(** * document_graph frontend: the API client and the pages built on it

    A shallow embedding of [frontend/src/lib/api.ts], [frontend/src/lib/colors.ts],
    [frontend/src/components/pdf-viewer.tsx], [frontend/src/app/page.tsx] and
    [frontend/src/app/w/[workspaceId]/page.tsx].

    Conventions.
    - A TypeScript field [f?: T | null] is a [maybe T]: [undefined], [null] or a value.
    - An [async] function is an [Async A]: a finite tree whose nodes are the
      [fetch] calls it awaits; the browser picks the outcome of every call.
    - React state is a record; a state updater [setX(prev => ...)] is a
      function applied to the field; updaters run in program order.
    - What the browser provides ([JSON.stringify], [String.prototype.trim],
      [process.env], opaque values) is the class [JsHost]. *)

From stdpp Require Import gmap strings list fin_maps pretty.
From Stdlib Require Import ZArith Lia.

Set Default Proof Using "Type".
Open Scope list_scope.

(** ** JavaScript values the code passes around *)

Module Js.

(** [T | null | undefined] *)
Inductive maybe (A : Type) : Type :=
| undefined
| null
| val (a : A).
Arguments undefined {A}.
Arguments null {A}.
Arguments val {A} a.

(** [x ?? null] *)
Definition or_null {A} (x : maybe A) : maybe A :=
  match x with
  | undefined | null => null
  | val a => val a
  end.

(** [s || ""] on a string: the empty string is the only falsy one. *)
Definition or_empty (s : string) : string :=
  if decide (s = "") then "" else s.

(** [Boolean(s)] on a string. *)
Definition truthy (s : string) : bool :=
  if decide (s = "") then false else true.

(** Result of [JSON.stringify] on a value of unknown shape. *)
Inductive stringified : Type :=
| StringifyThrows
| StringifyUndefined
| StringifyText (s : string).

End Js.
Export Js.

(** What the JavaScript host provides. *)
Class JsHost : Type := {
  (** IEEE doubles that the code only carries from one place to another *)
  number : Type;
  (** values of TypeScript type [unknown] *)
  unknown : Type;
  (** DOM [File] objects *)
  File : Type;
  (** [process.env.NEXT_PUBLIC_API_BASE_URL] *)
  NEXT_PUBLIC_API_BASE_URL : maybe string;
  (** [JSON.stringify] on a record of strings and numbers: always a string *)
  JSON_stringify : ∀ T : Type, T → string;
  (** [JSON.stringify] on an arbitrary thrown value *)
  JSON_stringify_unknown : unknown → stringified;
  (** [String(e)] *)
  String_unknown : unknown → string;
  (** [String.prototype.trim] *)
  trim : string → string;
}.
Arguments JSON_stringify {_ T} _.

(** A thrown value: an [Error] instance with its message, or anything else. *)
Inductive Thrown `{JsHost} : Type :=
| ErrorObject (message : string)
| OtherValue (v : unknown).

(** How a promise settles. *)
Inductive settled `{JsHost} (A : Type) : Type :=
| Fulfilled (a : A)
| Rejected (e : Thrown).
Arguments Fulfilled {_ A} a.
Arguments Rejected {_ A} e.

(** ** The fetch interface *)

Inductive Body `{JsHost} : Type :=
| TextBody (s : string)
| FormData (fields : list (string * File)).

(** The members of [RequestInit] that this code sets. *)
Record RequestInit `{JsHost} : Type := {
  method : option string;
  headers : option (gmap string string);
  body : option Body;
}.

(** The settled [Response]: [text] and [json] are the outcomes of
    [resp.text()] and [resp.json()]; the cast [as T] is unchecked, so the
    parsed body is taken at the declared type. *)
Record Response `{JsHost} (T : Type) : Type := {
  ok : bool;
  status : N;
  statusText : string;
  text : settled string;
  json : settled T;
}.
Arguments ok {_ T} r.
Arguments status {_ T} r.
Arguments statusText {_ T} r.
Arguments text {_ T} r.
Arguments json {_ T} r.

(** One call [fetch(url, init)]. *)
Record FetchCall `{JsHost} : Type := {
  url : string;
  init : RequestInit;
}.

(** The method fetch uses: GET unless [init.method] is set. *)
Definition effective_method `{JsHost} (c : FetchCall) : string :=
  default "GET" (method (init c)).

(** ** Asynchronous computations *)

Inductive Async `{JsHost} (A : Type) : Type :=
| Done (a : A)
| Throw (e : Thrown)
| Await (T : Type) (call : FetchCall) (k : settled (Response T) → Async A).
Arguments Done {_ A} a.
Arguments Throw {_ A} e.
Arguments Await {_ A} T call k.

Section async.
Context `{JsHost}.

Fixpoint bind {A B} (m : Async A) (f : A → Async B) : Async B :=
  match m with
  | Done a => f a
  | Throw e => Throw e
  | Await T c k => Await T c (λ r, bind (k r) f)
  end.

(** [try { await m } catch (e) { ... }]: the outcome as a value. *)
Fixpoint settle {A} (m : Async A) : Async (settled A) :=
  match m with
  | Done a => Done (Fulfilled a)
  | Throw e => Done (Rejected e)
  | Await T c k => Await T c (λ r, settle (k r))
  end.

(** [await Promise.all(xs.map(f))] for an [f] that catches its own errors,
    as the polling callback does: the calls go out in the order of [xs]
    and the results come back in that order. *)
Fixpoint all {A B} (f : A → Async B) (xs : list A) : Async (list B) :=
  match xs with
  | [] => Done []
  | x :: xs' => bind (f x) (λ b, bind (all f xs') (λ bs, Done (b :: bs)))
  end.

(** One request and the outcome the network gave it. *)
Record Exchange : Type := {
  ex_type : Type;
  ex_call : FetchCall;
  ex_outcome : settled (Response ex_type);
}.

(** [Exec m tr res]: [m] can run issuing exactly the exchanges [tr], in
    order, and then settles as [res]. *)
Fixpoint Exec {A} (m : Async A) (tr : list Exchange) (res : settled A) : Prop :=
  match m with
  | Done a => tr = [] ∧ res = Fulfilled a
  | Throw e => tr = [] ∧ res = Rejected e
  | Await T c k =>
      ∃ (r : settled (Response T)) (tr' : list Exchange),
        tr = {| ex_type := T; ex_call := c; ex_outcome := r |} :: tr'
        ∧ Exec (k r) tr' res
  end.

End async.

(** ** [frontend/src/lib/api.ts] *)

Module TaskSummary.
Record t `{JsHost} : Type := {
  id : string;
  status : string;
  stage : maybe string;
  progress : maybe number;
  error : maybe unknown;
  updated_at : maybe string;
}.
End TaskSummary.

Module Task.
Record t `{JsHost} : Type := {
  id : string;
  workspace_id : string;
  document_id : maybe string;
  type : string;
  status : string;
  stage : maybe string;
  progress : maybe number;
  error : unknown;
  result : unknown;
  attempt : number;
  max_attempts : number;
  created_at : string;
  started_at : maybe string;
  finished_at : maybe string;
  updated_at : string;
}.
End Task.

Module DocumentRef.
Record t `{JsHost} : Type := {
  id : string;
  title : string;
  external_key : string;
  updated_at : maybe string;
  latest_task : maybe TaskSummary.t;
}.
End DocumentRef.

Unset Elimination Schemes.
Inductive NodeType : Type := folder | file.

Inductive DocumentTreeNode `{JsHost} : Type :=
TreeNode (type : NodeType) (name path : string)
         (children : maybe (list DocumentTreeNode))
         (document : maybe DocumentRef.t).

Set Elimination Schemes.

Module UploadResult.
Record t : Type := {
  workspace_id : string;
  document_id : string;
  task_id : string;
  task_status : string;
}.
End UploadResult.

Module ChatPayload.
Record t `{JsHost} : Type := {
  conversation_id : maybe string;
  message : string;
  top_k : maybe number;
}.
End ChatPayload.

Module ChatResult.
Record t `{JsHost} : Type := {
  conversation_id : string;
  answer : string;
  refs : list unknown;
}.
End ChatResult.

Module Api.
Section api.
Context `{JsHost}.

Definition DEFAULT_BASE : string := "http://localhost:8000".

(** [process.env.NEXT_PUBLIC_API_BASE_URL || DEFAULT_BASE] *)
Definition apiBaseUrl : string :=
  match NEXT_PUBLIC_API_BASE_URL with
  | val s => if truthy s then s else DEFAULT_BASE
  | undefined | null => DEFAULT_BASE
  end.

Definition request {T : Type} (path : string) (init : option RequestInit) : Async T :=
  let url := apiBaseUrl +:+ path in
  Await T
    {| url := url;
       init := {| method := init ≫= method;
                  headers := Some (default ∅ (init ≫= headers));
                  body := init ≫= body |} |}
    (λ r,
      match r with
      | Rejected e => Throw e
      | Fulfilled resp =>
          if negb (ok resp) then
            match text resp with
            | Rejected e => Throw e
            | Fulfilled txt =>
                Throw (ErrorObject
                  (pretty (status resp) +:+ " " +:+ statusText resp +:+ ": " +:+ txt))
            end
          else
            match json resp with
            | Rejected e => Throw e
            | Fulfilled v => Done v
            end
      end).

(** [form.append(name, value)] *)
Definition FormData_append (form : list (string * File)) (name : string) (value : File)
  : list (string * File) := form ++ [(name, value)].

Definition uploadDocument (workspaceId : string) (file : File) : Async UploadResult.t :=
  let form := [] in
  let form := FormData_append form "file" file in
  request ("/workspaces/" +:+ workspaceId +:+ "/documents/upload")
    (Some {| method := Some "POST"; headers := None; body := Some (FormData form) |}).

Definition getTask (taskId : string) : Async Task.t :=
  request ("/tasks/" +:+ taskId) None.

Definition chat (workspaceId : string) (payload : ChatPayload.t) : Async ChatResult.t :=
  request ("/workspaces/" +:+ workspaceId +:+ "/chat")
    (Some {| method := Some "POST";
             headers := Some {[ "Content-Type" := "application/json" ]};
             body := Some (TextBody (JSON_stringify payload)) |}).

(** [getDocumentTree(workspaceId)] as the page calls it, without [opts]:
    the query string is empty and so is the suffix. *)
Definition getDocumentTree (workspaceId : string) : Async DocumentTreeNode :=
  let suffix := "" in
  request ("/workspaces/" +:+ workspaceId +:+ "/documents/tree" +:+ suffix) None.

(** The calls the functions above hand to [fetch]. *)
Definition chat_call (workspaceId : string) (payload : ChatPayload.t) : FetchCall :=
  {| url := apiBaseUrl +:+ "/workspaces/" +:+ workspaceId +:+ "/chat";
     init := {| method := Some "POST";
                headers := Some {[ "Content-Type" := "application/json" ]};
                body := Some (TextBody (JSON_stringify payload)) |} |}.

Definition upload_call (workspaceId : string) (file : File) : FetchCall :=
  {| url := apiBaseUrl +:+ "/workspaces/" +:+ workspaceId +:+ "/documents/upload";
     init := {| method := Some "POST";
                headers := Some ∅;
                body := Some (FormData [("file", file)]) |} |}.

Definition task_call (taskId : string) : FetchCall :=
  {| url := apiBaseUrl +:+ "/tasks/" +:+ taskId;
     init := {| method := None; headers := Some ∅; body := None |} |}.

Definition tree_call (workspaceId : string) : FetchCall :=
  {| url := apiBaseUrl +:+ "/workspaces/" +:+ workspaceId +:+ "/documents/tree";
     init := {| method := None; headers := Some ∅; body := None |} |}.

(** What [request] settles to once [fetch] has settled as [r]. *)
Definition received {T} (r : settled (Response T)) : settled T :=
  match r with
  | Rejected e => Rejected e
  | Fulfilled resp =>
      if ok resp then json resp
      else match text resp with
           | Rejected e => Rejected e
           | Fulfilled txt =>
               Rejected (ErrorObject
                 (pretty (status resp) +:+ " " +:+ statusText resp +:+ ": " +:+ txt))
           end
  end.

End api.
End Api.

(** ** [frontend/src/lib/colors.ts] *)

Module Colors.

(** [gradientForId] looks at the UTF-16 code units of [id]; here a string is
    the list of its code units. Sums are exact: a sum of code units stays
    below 2^53 for every string an engine can hold. *)
Definition is_high_surrogate (u : N) : bool := ((0xD800 <=? u) && (u <=? 0xDBFF))%N.
Definition is_low_surrogate (u : N) : bool := ((0xDC00 <=? u) && (u <=? 0xDFFF))%N.

(** [Array.from(id)]: the string iterator yields one string per code point,
    keeping a surrogate pair together. *)
Fixpoint Array_from (id : list N) : list (list N) :=
  match id with
  | [] => []
  | u :: rest =>
      match rest with
      | v :: rest' =>
          if is_high_surrogate u && is_low_surrogate v
          then [u; v] :: Array_from rest'
          else [u] :: Array_from rest
      | [] => [[u]]
      end
  end.

(** [ch.charCodeAt(0)]; [None] is NaN (the empty string has no unit 0). *)
Definition charCodeAt0 (ch : list N) : option N := head ch.

(** [acc + x] where either side may be NaN *)
Definition add (acc x : option N) : option N :=
  match acc, x with
  | Some a, Some b => Some (a + b)%N
  | _, _ => None
  end.

Definition palettes : list (list string) :=
  [ ["from-indigo-500/30"; "via-sky-500/20"; "to-emerald-500/30"];
    ["from-fuchsia-500/25"; "via-rose-500/20"; "to-amber-500/25"];
    ["from-cyan-500/25"; "via-violet-500/20"; "to-lime-500/25"];
    ["from-amber-500/25"; "via-orange-500/20"; "to-pink-500/25"];
    ["from-slate-500/25"; "via-blue-500/20"; "to-teal-500/25"] ].

(** [Array.prototype.join] *)
Definition join (sep : string) (p : list string) : string := String.concat sep p.

(** The character codes [reduce] adds up: the first code unit of every
    code point. *)
Definition first_units (id : list N) : list N :=
  omap charCodeAt0 (Array_from id).

(** [n]: the reduce over the code points *)
Definition code_sum (id : list N) : option N :=
  foldl (λ acc ch, add acc (charCodeAt0 ch)) (Some 0%N) (Array_from id).

(** [n % palettes.length]; [None] is NaN *)
Definition palette_index (id : list N) : option nat :=
  n ← code_sum id; Some (N.to_nat (n mod N.of_nat (length palettes))).

(** [None]: [p] is undefined and [p.join] throws a TypeError. *)
Definition gradientForId (id : list N) : option string :=
  i ← palette_index id;
  p ← palettes !! i;
  Some ("bg-gradient-to-br " +:+ join " " p).

End Colors.

(** ** [frontend/src/components/pdf-viewer.tsx] *)

Module PdfViewer.

(** The state the page buttons read and write; page numbers are integers. *)
Record State : Type := {
  numPages : Z;
  page : Z;
  loading : bool;
  error : option string;
}.

Definition clampedPage (st : State) : Z :=
  if (numPages st <=? 0)%Z then 1%Z
  else Z.max 1 (Z.min (page st) (numPages st)).

Definition setPage (f : Z → Z) (st : State) : State :=
  {| numPages := numPages st; page := f (page st);
     loading := loading st; error := error st |}.

Definition prev_disabled (st : State) : bool :=
  (clampedPage st <=? 1)%Z || loading st.

Definition next_disabled (st : State) : bool :=
  (numPages st <=? 0)%Z || (clampedPage st >=? numPages st)%Z || loading st.

Definition onPrevClick (st : State) : State := setPage (λ p, Z.max 1 (p - 1)) st.
Definition onNextClick (st : State) : State := setPage (λ p, (p + 1)%Z) st.

(** A click reaches the handler only when the button is not disabled. *)
Definition clickPrev (st : State) : State :=
  if prev_disabled st then st else onPrevClick st.
Definition clickNext (st : State) : State :=
  if next_disabled st then st else onNextClick st.

(** The page the re-render effect hands to [doc.getPage]; [None] when the
    effect returns early ([loading || error]). *)
Definition requested_page (st : State) : option Z :=
  if loading st || match error st with Some msg => truthy msg | None => false end
  then None
  else Some (clampedPage st).

(** The effect on [url]: reset, then the outcome of loading the document.
    [doc_numPages] is [doc.numPages]; [doc.numPages || 0] maps a missing
    count ([None]) and 0 to 0. *)
Definition load_start (st : State) : State :=
  {| numPages := 0; page := 1; loading := true; error := None |}.

Definition load_done (doc_numPages : option Z) (st : State) : State :=
  {| numPages := default 0%Z doc_numPages; page := page st;
     loading := false; error := error st |}.

Definition load_failed (msg : string) (st : State) : State :=
  {| numPages := numPages st; page := page st;
     loading := false; error := Some msg |}.

Definition initial : State :=
  {| numPages := 0; page := 1; loading := true; error := None |}.

Inductive Event : Type :=
| UrlChanged
| Loaded (doc_numPages : option Z)
| LoadFailed (msg : string)
| PrevClicked
| NextClicked.

(** [Loaded] and [LoadFailed] come from the run started by the last
    [UrlChanged], which left [loading] set. *)
Definition step (st : State) (ev : Event) : State :=
  match ev with
  | UrlChanged => load_start st
  | Loaded n => if loading st then load_done n st else st
  | LoadFailed msg => if loading st then load_failed msg st else st
  | PrevClicked => clickPrev st
  | NextClicked => clickNext st
  end.

Definition run (evs : list Event) : State := foldl step initial evs.

(** The [page] state is itself the page shown. *)
Definition page_in_range (st : State) : Prop := page st = clampedPage st.

End PdfViewer.

(** ** [frontend/src/app/page.tsx] *)

Module HomePage.

Record RecentWorkspace : Type := {
  workspace_id : string;
  last_opened_at : string;
}.

(** The text kept under [recent_workspaces], identified by what
    [JSON.parse] makes of it. [JSON.stringify] of an array of records is a
    text that parses back to that array. *)
Inductive StoredText : Type :=
| NotJson
| JsonOther
| JsonArray (items : list RecentWorkspace).

(** [window.localStorage], as far as this page uses it: [None] when the
    key is absent. *)
Record Storage : Type := {
  recent_workspaces : option StoredText;
}.

(** [window] is [None] where [typeof window === "undefined"]. *)
Definition loadRecent (window : option Storage) : list RecentWorkspace :=
  match window with
  | None => []
  | Some localStorage =>
      match recent_workspaces localStorage with
      | None => []
      | Some NotJson => []
      | Some JsonOther => []
      | Some (JsonArray parsed) => parsed
      end
  end.

(** [items.slice(0, 20)] *)
Definition saveRecent (items : list RecentWorkspace) (localStorage : Storage) : Storage :=
  {| recent_workspaces := Some (JsonArray (take 20 items)) |}.

(** [now] is [new Date().toISOString()]. *)
Definition onOpenWorkspace (workspaceId now : string) (localStorage : Storage) : Storage :=
  let current := loadRecent (Some localStorage) in
  let next :=
    [ {| workspace_id := workspaceId; last_opened_at := now |} ]
    ++ filter (λ x, workspace_id x ≠ workspaceId) current in
  saveRecent next localStorage.

Definition ids (items : list RecentWorkspace) : list string :=
  workspace_id <$> items.

End HomePage.

(** ** [frontend/src/app/w/[workspaceId]/page.tsx] *)

Inductive Role : Type := user | assistant.

#[global] Instance Role_eq_dec : EqDecision Role.
Proof. solve_decision. Defined.

Module Message.
Record t `{JsHost} : Type := {
  role : Role;
  content : string;
  refs : maybe (list unknown);
}.
End Message.

(** An entry of [activeIndexTasks]; [error] is [None] when the property is absent. *)
Module IndexTask.
Record t `{JsHost} : Type := {
  taskId : string;
  status : string;
  stage : maybe string;
  progress : maybe number;
  error : option unknown;
}.
End IndexTask.

(** One element of [updates] in the polling timer; [latest] is [None] for null. *)
Module Update.
Record t `{JsHost} : Type := {
  docId : string;
  latest : option Task.t;
}.
End Update.

Module WorkspacePage.
Section page.
Context `{JsHost}.

(** [useParams().workspaceId] *)
Variable workspaceId : string.

(** The part of the component's state that the handlers below read or
    write (the tree, the uploads, the task map and the conversation), with
    the browser's [localStorage] beside it. [string | null] state is an
    [option]. *)
Record State : Type := {
  tree : option DocumentTreeNode;
  docLoading : bool;
  docError : maybe string;
  uploading : bool;
  activeIndexTasks : gmap string IndexTask.t;
  messages : list Message.t;
  input : string;
  sending : bool;
  sendStage : option string;
  conversationId : option string;
  historyNextBefore : option string;
  localStorage : gmap string string;
}.

Definition initial (storage : gmap string string) : State :=
  {| tree := None; docLoading := true; docError := null; uploading := false;
     activeIndexTasks := ∅; messages := []; input := ""; sending := false;
     sendStage := None; conversationId := None; historyNextBefore := None;
     localStorage := storage |}.

Definition setTree (v : option DocumentTreeNode) (st : State) : State :=
  {| tree := v; docLoading := docLoading st; docError := docError st;
     uploading := uploading st; activeIndexTasks := activeIndexTasks st;
     messages := messages st; input := input st; sending := sending st;
     sendStage := sendStage st; conversationId := conversationId st;
     historyNextBefore := historyNextBefore st; localStorage := localStorage st |}.

Definition setDocLoading (v : bool) (st : State) : State :=
  {| tree := tree st; docLoading := v; docError := docError st;
     uploading := uploading st; activeIndexTasks := activeIndexTasks st;
     messages := messages st; input := input st; sending := sending st;
     sendStage := sendStage st; conversationId := conversationId st;
     historyNextBefore := historyNextBefore st; localStorage := localStorage st |}.

Definition setDocError (v : maybe string) (st : State) : State :=
  {| tree := tree st; docLoading := docLoading st; docError := v;
     uploading := uploading st; activeIndexTasks := activeIndexTasks st;
     messages := messages st; input := input st; sending := sending st;
     sendStage := sendStage st; conversationId := conversationId st;
     historyNextBefore := historyNextBefore st; localStorage := localStorage st |}.

Definition setUploading (v : bool) (st : State) : State :=
  {| tree := tree st; docLoading := docLoading st; docError := docError st;
     uploading := v; activeIndexTasks := activeIndexTasks st;
     messages := messages st; input := input st; sending := sending st;
     sendStage := sendStage st; conversationId := conversationId st;
     historyNextBefore := historyNextBefore st; localStorage := localStorage st |}.

Definition setActiveIndexTasks
    (f : gmap string IndexTask.t → gmap string IndexTask.t) (st : State) : State :=
  {| tree := tree st; docLoading := docLoading st; docError := docError st;
     uploading := uploading st; activeIndexTasks := f (activeIndexTasks st);
     messages := messages st; input := input st; sending := sending st;
     sendStage := sendStage st; conversationId := conversationId st;
     historyNextBefore := historyNextBefore st; localStorage := localStorage st |}.

Definition setMessages (f : list Message.t → list Message.t) (st : State) : State :=
  {| tree := tree st; docLoading := docLoading st; docError := docError st;
     uploading := uploading st; activeIndexTasks := activeIndexTasks st;
     messages := f (messages st); input := input st; sending := sending st;
     sendStage := sendStage st; conversationId := conversationId st;
     historyNextBefore := historyNextBefore st; localStorage := localStorage st |}.

Definition setInput (v : string) (st : State) : State :=
  {| tree := tree st; docLoading := docLoading st; docError := docError st;
     uploading := uploading st; activeIndexTasks := activeIndexTasks st;
     messages := messages st; input := v; sending := sending st;
     sendStage := sendStage st; conversationId := conversationId st;
     historyNextBefore := historyNextBefore st; localStorage := localStorage st |}.

Definition setSending (v : bool) (st : State) : State :=
  {| tree := tree st; docLoading := docLoading st; docError := docError st;
     uploading := uploading st; activeIndexTasks := activeIndexTasks st;
     messages := messages st; input := input st; sending := v;
     sendStage := sendStage st; conversationId := conversationId st;
     historyNextBefore := historyNextBefore st; localStorage := localStorage st |}.

Definition setSendStage (f : option string → option string) (st : State) : State :=
  {| tree := tree st; docLoading := docLoading st; docError := docError st;
     uploading := uploading st; activeIndexTasks := activeIndexTasks st;
     messages := messages st; input := input st; sending := sending st;
     sendStage := f (sendStage st); conversationId := conversationId st;
     historyNextBefore := historyNextBefore st; localStorage := localStorage st |}.

Definition setConversationId (v : option string) (st : State) : State :=
  {| tree := tree st; docLoading := docLoading st; docError := docError st;
     uploading := uploading st; activeIndexTasks := activeIndexTasks st;
     messages := messages st; input := input st; sending := sending st;
     sendStage := sendStage st; conversationId := v;
     historyNextBefore := historyNextBefore st; localStorage := localStorage st |}.

Definition setHistoryNextBefore (v : option string) (st : State) : State :=
  {| tree := tree st; docLoading := docLoading st; docError := docError st;
     uploading := uploading st; activeIndexTasks := activeIndexTasks st;
     messages := messages st; input := input st; sending := sending st;
     sendStage := sendStage st; conversationId := conversationId st;
     historyNextBefore := v; localStorage := localStorage st |}.

(** [window.localStorage.setItem] / [removeItem] / [getItem] *)
Definition withLocalStorage (f : gmap string string → gmap string string) (st : State) : State :=
  {| tree := tree st; docLoading := docLoading st; docError := docError st;
     uploading := uploading st; activeIndexTasks := activeIndexTasks st;
     messages := messages st; input := input st; sending := sending st;
     sendStage := sendStage st; conversationId := conversationId st;
     historyNextBefore := historyNextBefore st; localStorage := f (localStorage st) |}.

Definition setItem (key value : string) : State → State := withLocalStorage (<[key := value]>).
Definition removeItem (key : string) : State → State := withLocalStorage (delete key).
Definition getItem (key : string) (st : State) : option string := localStorage st !! key.

(** [errToString]: [undefined] when [JSON.stringify(e)] gives undefined. *)
Definition errToString (e : Thrown) : maybe string :=
  match e with
  | ErrorObject message => val message
  | OtherValue v =>
      match JSON_stringify_unknown v with
      | StringifyText s => val s
      | StringifyUndefined => undefined
      | StringifyThrows => val (String_unknown v)
      end
  end.

(** A string-typed expression inside a template literal. *)
Definition interpolate (x : maybe string) : string :=
  match x with
  | val s => s
  | undefined => "undefined"
  | null => "null"
  end.

Definition conversationKey (workspaceId : string) : string :=
  "current_conversation:" +:+ workspaceId.

(** *** The document tree *)

Definition refreshTree (st : State) : Async State :=
  let st := setDocLoading true st in
  let st := setDocError null st in
  bind (settle (Api.getDocumentTree workspaceId)) (λ r,
    let st :=
      match r with
      | Fulfilled root => setTree (Some root) st
      | Rejected e => setDocError (errToString e) st
      end in
    Done (setDocLoading false st)).

(** *** Polling the indexing tasks *)





(** The effect arms the timer only when some entry has a non-empty task id. *)
Definition timer_armed (st : State) : bool :=
  let taskIds :=
    filter (λ s, truthy s = true)
      ((λ e : string * IndexTask.t, IndexTask.taskId e.2) <$> map_to_list (activeIndexTasks st)) in
  negb (bool_decide (length taskIds = 0)).


(** *** Uploading one file *)

(** The state the handler leaves, and how its promise settles: no [catch],
    so a rejection of the upload is passed on after [finally]. *)
Definition onUploadFile (f : File) (st : State) : Async (State * settled ()) :=
  let st := setUploading true st in
  bind (settle (Api.uploadDocument workspaceId f)) (λ r,
    match r with
    | Fulfilled res =>
        let st :=
          setActiveIndexTasks (λ prev,
            <[ UploadResult.document_id res :=
                 {| IndexTask.taskId := UploadResult.task_id res;
                    IndexTask.status := UploadResult.task_status res;
                    IndexTask.stage := null;
                    IndexTask.progress := null;
                    IndexTask.error := None |} ]> prev) st in
        bind (refreshTree st) (λ st, Done (setUploading false st, Fulfilled ()))
    | Rejected e => Done (setUploading false st, Rejected e)
    end).

(** *** The conversation *)

Definition PENDING : string := "__pending__".

Definition user_message (text : string) : Message.t :=
  {| Message.role := user; Message.content := text; Message.refs := undefined |}.

Definition pending_message : Message.t :=
  {| Message.role := assistant; Message.content := PENDING; Message.refs := undefined |}.

(** [next[i].role === "assistant" && next[i].content === "__pending__"] *)
Definition is_pending (m : Message.t) : bool :=
  bool_decide (Message.role m = assistant) && bool_decide (Message.content m = PENDING).

(** [for (let i = next.length - 1; i >= 0; i--)], entered with
    [n = i + 1] indices still to visit; [Some] is the early [return next]. *)
Fixpoint scan_pending (n : nat) (replacement : Message.t) (next : list Message.t)
  : option (list Message.t) :=
  match n with
  | 0 => None
  | S i =>
      match next !! i with
      | Some m =>
          if is_pending m then Some (<[ i := replacement ]> next)
          else scan_pending i replacement next
      | None => scan_pending i replacement next
      end
  end.

(** The updater both handlers hand to [setMessages]: replace the last
    pending assistant message, or push. *)
Definition replace_pending (replacement : Message.t) (prev : list Message.t)
  : list Message.t :=
  let next := prev in
  match scan_pending (length next) replacement next with
  | Some done => done
  | None => next ++ [replacement]
  end.

(** [String(out.answer || "")] and [out.refs || []] (an array is never falsy) *)
Definition answer_message (out : ChatResult.t) : Message.t :=
  {| Message.role := assistant;
     Message.content := or_empty (ChatResult.answer out);
     Message.refs := val (ChatResult.refs out) |}.

Definition failure_message (e : Thrown) : Message.t :=
  {| Message.role := assistant;
     Message.content := "请求失败：" +:+ interpolate (errToString e);
     Message.refs := undefined |}.

(** The payload [onSend] builds from the state its closure sees. *)
Definition send_payload (conversationId : option string) (text : string) : ChatPayload.t :=
  {| ChatPayload.conversation_id :=
       match conversationId with Some c => val c | None => null end;
     ChatPayload.message := text;
     ChatPayload.top_k := undefined |}.

Definition on_chat_success (out : ChatResult.t) (st : State) : State :=
  let st := setConversationId (Some (ChatResult.conversation_id out)) st in
  let st := setItem (conversationKey workspaceId) (ChatResult.conversation_id out) st in
  setMessages (replace_pending (answer_message out)) st.

Definition on_chat_failure (e : Thrown) (st : State) : State :=
  setMessages (replace_pending (failure_message e)) st.

(** [onSend] up to the [await]: the state updates before [chat] is called. *)
Definition begin_send (text : string) (st : State) : State :=
  let st := setInput "" st in
  let st := setSending true st in
  let st := setSendStage (λ _, Some "正在检索相关片段…") st in
  let st := setMessages (λ prev, prev ++ [user_message text]) st in
  setMessages (λ prev, prev ++ [pending_message]) st.

(** [onSend] after the [await]: the rest of [try], or [catch], then [finally]. *)
Definition end_send (r : settled ChatResult.t) (st : State) : State :=
  let st :=
    match r with
    | Fulfilled out => on_chat_success out st
    | Rejected e => on_chat_failure e st
    end in
  let st := setSending false st in
  setSendStage (λ _, None) st.

Definition onSend (st : State) : Async State :=
  let text := trim (input st) in
  if negb (truthy text) then Done st else
  let closure := st in
  let st := begin_send text st in
  bind (settle (Api.chat workspaceId (send_payload (conversationId closure) text)))
    (λ r, Done (end_send r st)).

(** The callback of [window.setTimeout(..., 900)] *)
Definition onStageTimeout (st : State) : State :=
  setSendStage (λ cur, match cur with Some _ => Some "正在生成回答…" | None => cur end) st.

(** The effect that restores the conversation after mounting *)
Definition restoreConversation (st : State) : State :=
  match getItem (conversationKey workspaceId) st with
  | Some v => if truthy v then setConversationId (Some v) st else st
  | None => st
  end.

(** The click handler of the new-conversation button *)
Definition onNewConversation (st : State) : State :=
  let st := setConversationId None st in
  let st := removeItem (conversationKey workspaceId) st in
  let st := setMessages (λ _, []) st in
  setHistoryNextBefore None st.

(** Mounting the page in a browser whose storage is [storage]: the initial
    state, then the restore effect. *)
Definition mount (storage : gmap string string) : State :=
  restoreConversation (initial storage).

(** *** A session on the page

    What happens to the conversation between two turns: the user types,
    sends (and the network answers [r]), starts a new conversation, or the
    page is mounted again over the same storage. *)
Inductive Event : Type :=
| Typed (text : string)
| Sent (r : settled (Response ChatResult.t))
| NewConversationClicked
| Remounted.

(** The state [onSend] leaves when the network answers [r]. *)
Definition turn (r : settled (Response ChatResult.t)) (st : State) : State :=
  let text := trim (input st) in
  if negb (truthy text) then st
  else end_send (Api.received r) (begin_send text st).

Definition step (st : State) (ev : Event) : State :=
  match ev with
  | Typed text => setInput text st
  | Sent r => turn r st
  | NewConversationClicked => onNewConversation st
  | Remounted => mount (localStorage st)
  end.

Definition play (evs : list Event) (st : State) : State := foldl step st evs.

(** Events that do not take the page off conversation [c]: typing, a turn
    that fails or that the server answers under [c] again, and a remount
    (which restores a non-empty id only). *)
Definition keeps_conversation (c : string) (ev : Event) : Prop :=
  match ev with
  | Typed _ => True
  | Sent r =>
      match Api.received r with
      | Rejected _ => True
      | Fulfilled out => ChatResult.conversation_id out = c
      end
  | NewConversationClicked => False
  | Remounted => c ≠ ""
  end.

(** The page is on conversation [c]: the state and the storage both hold it. *)
Definition on_conversation (c : string) (st : State) : Prop :=
  conversationId st = Some c
  ∧ getItem (conversationKey workspaceId) st = Some c.

(** The state [refreshTree] leaves when its call settles as [r] *)
Definition refreshed (r : settled DocumentTreeNode) (st : State) : State :=
  let st := setDocError null (setDocLoading true st) in
  let st :=
    match r with
    | Fulfilled root => setTree (Some root) st
    | Rejected e => setDocError (errToString e) st
    end in
  setDocLoading false st.


(** The entry [onUploadFile] and the folder upload record for a fresh task *)
Definition fresh_task (task_id task_status : string) : IndexTask.t :=
  {| IndexTask.taskId := task_id; IndexTask.status := task_status;
     IndexTask.stage := null; IndexTask.progress := null;
     IndexTask.error := None |}.




(** [next] is [prev] with its last pending assistant message replaced by
    [replacement] and every other entry as it was, or, when [prev] has no
    pending message, [prev] with [replacement] appended. *)
Definition one_entry_changed (replacement : Message.t) (prev next : list Message.t) : Prop :=
  (∃ i p,
      prev !! i = Some p ∧ is_pending p = true
      ∧ (∀ j q, i < j → prev !! j = Some q → is_pending q = false)
      ∧ next = <[ i := replacement ]> prev
      ∧ length next = length prev
      ∧ next !! i = Some replacement
      ∧ ∀ j, j ≠ i → next !! j = prev !! j)
  ∨ ((∀ q, q ∈ prev → is_pending q = false)
     ∧ next = prev ++ [replacement]
     ∧ ∀ j, j < length prev → next !! j = prev !! j).

End page.
End WorkspacePage.

(** ** A host for the worked examples *)

Definition example_host : JsHost :=
  {| number := Z;
     unknown := string;
     File := string;
     NEXT_PUBLIC_API_BASE_URL := undefined;
     JSON_stringify := λ _ _, "{}";
     JSON_stringify_unknown := StringifyText;
     String_unknown := λ v, v;
     trim := λ s, s |}.

Definition example_chat_result : @ChatResult.t example_host :=
  {| ChatResult.conversation_id := "c-1";
     ChatResult.answer := "42";
     ChatResult.refs := ["chunk-7" : @unknown example_host] |}.


Definition example_upload_result : UploadResult.t :=
  {| UploadResult.workspace_id := "w-1"; UploadResult.document_id := "d-1";
     UploadResult.task_id := "t-1"; UploadResult.task_status := "pending" |}.

(** A 200 response whose body parses to [v]. *)
Definition ok_response `{JsHost} {T} (v : T) : Response T :=
  {| ok := true; status := 200; statusText := "OK";
     text := Fulfilled ""; json := Fulfilled v |}.

(** A response outside 200-299 with the given body text. *)
Definition error_response `{JsHost} {T} (code : N) (reason body_text : string) : Response T :=
  {| ok := false; status := code; statusText := reason;
     text := Fulfilled body_text;
     json := Rejected (ErrorObject "Unexpected token") |}.

Section example_values.
#[local] Existing Instance example_host.

(** A freshly mounted page with [text] typed into the input. *)
Definition typed_page (text : string) : WorkspacePage.State :=
  WorkspacePage.setInput text (WorkspacePage.mount "w-1" ∅).


Definition server_down : settled (Response ChatResult.t) :=
  Fulfilled (error_response 500 "Internal Server Error" "boom").

Definition offline {T} : settled (Response T) :=
  Rejected (ErrorObject "Failed to fetch").

End example_values.

(** * Properties *)

(** Builds a run of a closed computation from the outcomes written in the
    trace of the goal. *)
Ltac run_example :=
  repeat (simpl; first [ split; reflexivity
                       | eexists _, _; split; [reflexivity|] ]).

(** ** JavaScript helpers *)

Lemma or_empty_id s : or_empty s = s.
Proof. unfold or_empty. by case_decide. Qed.

Lemma truthy_true s : truthy s = true ↔ s ≠ "".
Proof. unfold truthy. case_decide; split; congruence. Qed.

(** ** Asynchronous computations *)

Section async_facts.
Context `{JsHost}.

Lemma Exec_bind {A B} (m : Async A) (f : A → Async B) tr res :
  Exec (bind m f) tr res ↔
  (∃ tr1 tr2 a, tr = tr1 ++ tr2 ∧ Exec m tr1 (Fulfilled a) ∧ Exec (f a) tr2 res)
  ∨ (∃ e, Exec m tr (Rejected e) ∧ res = Rejected e).
Proof.
  revert tr. induction m as [a|e|T c k IH]; intros tr; simpl.
  - split.
    + intros Hf. left. by exists [], tr, a.
    + intros [(tr1 & tr2 & a' & -> & [-> [= <-]] & Hf)|(e & [_ [=]] & _)]. done.
  - split.
    + intros [-> ->]. right. by exists e.
    + intros [(tr1 & tr2 & a' & _ & [_ [=]] & _)|(e' & [-> [= <-]] & ->)]. done.
  - split.
    + intros (r & tr' & -> & Hk).
      apply IH in Hk as [(tr1 & tr2 & a & -> & H1 & H2)|(e & H1 & ->)].
      * left. exists (Build_Exchange T c r :: tr1), tr2, a.
        split; [done|]. split; [|done]. by exists r, tr1.
      * right. exists e. split; [|done]. by exists r, tr'.
    + intros [(tr1 & tr2 & a & -> & (r & tr' & -> & H1) & H2)
             |(e & (r & tr' & -> & H1) & ->)].
      * exists r, (tr' ++ tr2). split; [done|]. apply IH. left. by exists tr', tr2, a.
      * exists r, tr'. split; [done|]. apply IH. right. by exists e.
Qed.

Lemma Exec_settle {A} (m : Async A) tr res :
  Exec (settle m) tr res ↔ ∃ r, Exec m tr r ∧ res = Fulfilled r.
Proof.
  revert tr. induction m as [a|e|T c k IH]; intros tr; simpl.
  - split.
    + intros [-> ->]. by exists (Fulfilled a).
    + intros (r & [-> ->] & ->). done.
  - split.
    + intros [-> ->]. by exists (Rejected e).
    + intros (r & [-> ->] & ->). done.
  - split.
    + intros (r & tr' & -> & Hk). apply IH in Hk as (r' & Hk & ->).
      exists r'. split; [|done]. by exists r, tr'.
    + intros (r' & (r & tr' & -> & Hk) & ->). exists r, tr'. split; [done|].
      apply IH. by exists r'.
Qed.

(** Every computation runs to an end, whatever the network answers: it is a
    finite tree. *)
Lemma Exec_total {A} (m : Async A)
    (net : ∀ T, FetchCall → settled (Response T)) :
  ∃ tr res, Exec m tr res.
Proof.
  induction m as [a|e|T c k IH]; simpl.
  - by exists [], (Fulfilled a).
  - by exists [], (Rejected e).
  - destruct (IH (net T c)) as (tr & res & Hk).
    exists (Build_Exchange T c (net T c) :: tr), res. by exists (net T c), tr.
Qed.

End async_facts.

(** ** The API client *)

Section api_facts.
Context `{JsHost}.

(** [request] makes one call and settles as [received] says. *)
Lemma Exec_request {T} path (init : option RequestInit) tr (res : settled T) :
  Exec (Api.request path init) tr res ↔
  ∃ r : settled (Response T),
    tr = [ {| ex_type := T;
              ex_call := {| url := Api.apiBaseUrl +:+ path;
                            init := {| method := init ≫= method;
                                       headers := Some (default ∅ (init ≫= headers));
                                       body := init ≫= body |} |};
              ex_outcome := r |} ]
    ∧ res = Api.received r.
Proof.
  unfold Api.request. simpl. split.
  - intros (r & tr' & -> & Hk). exists r.
    destruct r as [resp|e]; simpl in *.
    + destruct (ok resp); simpl in Hk.
      * destruct (json resp); destruct Hk as [-> ->]; done.
      * destruct (text resp); destruct Hk as [-> ->]; done.
    + by destruct Hk as [-> ->].
  - intros (r & -> & ->). exists r, []. split; [done|].
    destruct r as [resp|e]; simpl; [|done].
    destruct (ok resp); simpl.
    + by destruct (json resp).
    + by destruct (text resp).
Qed.

Lemma received_ok {T} (resp : Response T) :
  ok resp = true → Api.received (Fulfilled resp) = json resp.
Proof. simpl. by intros ->. Qed.

Lemma Exec_chat workspaceId payload tr res :
  Exec (Api.chat workspaceId payload) tr res ↔
  ∃ r, tr = [ {| ex_type := ChatResult.t;
                 ex_call := Api.chat_call workspaceId payload;
                 ex_outcome := r |} ]
       ∧ res = Api.received r.
Proof. unfold Api.chat. by rewrite Exec_request. Qed.

Lemma Exec_getTask taskId tr res :
  Exec (Api.getTask taskId) tr res ↔
  ∃ r, tr = [ {| ex_type := Task.t;
                 ex_call := Api.task_call taskId;
                 ex_outcome := r |} ]
       ∧ res = Api.received r.
Proof. unfold Api.getTask. by rewrite Exec_request. Qed.

Lemma Exec_uploadDocument workspaceId f tr res :
  Exec (Api.uploadDocument workspaceId f) tr res ↔
  ∃ r, tr = [ {| ex_type := UploadResult.t;
                 ex_call := Api.upload_call workspaceId f;
                 ex_outcome := r |} ]
       ∧ res = Api.received r.
Proof. unfold Api.uploadDocument. by rewrite Exec_request. Qed.

Lemma Exec_getDocumentTree workspaceId tr res :
  Exec (Api.getDocumentTree workspaceId) tr res ↔
  ∃ r, tr = [ {| ex_type := DocumentTreeNode;
                 ex_call := Api.tree_call workspaceId;
                 ex_outcome := r |} ]
       ∧ res = Api.received r.
Proof. unfold Api.getDocumentTree. by rewrite Exec_request. Qed.

End api_facts.

(** C1. For every workspace id and payload, [chat] runs whatever the
    network answers, and every run makes exactly one call: a POST to
    [/workspaces/{workspace_id}/chat] under the API base, with content type
    [application/json] and [JSON.stringify(payload)] as body. When the
    response is ok and its body parses, the promise resolves to that body,
    a record of the conversation id, the answer and the list of citations
    ([refs]). *)
Theorem chat_posts_payload_and_resolves `{JsHost}
    (workspaceId : string) (payload : ChatPayload.t) :
  (∀ r : settled (Response ChatResult.t),
     Exec (Api.chat workspaceId payload)
       [ {| ex_type := ChatResult.t;
            ex_call := Api.chat_call workspaceId payload;
            ex_outcome := r |} ]
       (Api.received r))
  ∧ ∀ (tr : list Exchange) (res : settled ChatResult.t),
  Exec (Api.chat workspaceId payload) tr res →
  ∃ (call : FetchCall) (r : settled (Response ChatResult.t)),
    tr = [ {| ex_type := ChatResult.t; ex_call := call; ex_outcome := r |} ]
    ∧ url call = Api.apiBaseUrl +:+ "/workspaces/" +:+ workspaceId +:+ "/chat"
    ∧ effective_method call = "POST"
    ∧ headers (init call) = Some {[ "Content-Type" := "application/json" ]}
    ∧ body (init call) = Some (TextBody (JSON_stringify payload))
    ∧ ∀ resp out,
        r = Fulfilled resp → ok resp = true → json resp = Fulfilled out →
        res = Fulfilled
                {| ChatResult.conversation_id := ChatResult.conversation_id out;
                   ChatResult.answer := ChatResult.answer out;
                   ChatResult.refs := ChatResult.refs out |}.
Proof.
  split; [intros r; apply Exec_chat; by exists r|].
  intros tr res Hrun. apply Exec_chat in Hrun as (r & -> & ->).
  exists (Api.chat_call workspaceId payload), r.
  do 5 (split; [done|]).
  intros resp out -> Hok Hjson. rewrite received_ok, Hjson by done.
  by destruct out.
Qed.

Section chat_example.
#[local] Existing Instance example_host.

Lemma chat_posts_payload_and_resolves_witness :
  let payload : @ChatPayload.t example_host :=
    {| ChatPayload.conversation_id := null;
       ChatPayload.message := "why";
       ChatPayload.top_k := undefined |} in
  let tr :=
    [ {| ex_type := ChatResult.t;
         ex_call := Api.chat_call "w-1" payload;
         ex_outcome := Fulfilled (ok_response example_chat_result) |} ] in
  Exec (Api.chat "w-1" payload) tr (Fulfilled example_chat_result)
  ∧ ∃ call r,
      tr = [ {| ex_type := ChatResult.t; ex_call := call; ex_outcome := r |} ]
      ∧ url call = "http://localhost:8000/workspaces/w-1/chat"
      ∧ effective_method call = "POST"
      ∧ headers (init call) = Some {[ "Content-Type" := "application/json" ]}
      ∧ body (init call) = Some (TextBody "{}")
      ∧ ∀ resp out,
          r = Fulfilled resp → ok resp = true → json resp = Fulfilled out →
          Fulfilled example_chat_result
          = Fulfilled
              {| ChatResult.conversation_id := ChatResult.conversation_id out;
                 ChatResult.answer := ChatResult.answer out;
                 ChatResult.refs := ChatResult.refs out |}.
Proof.
  cbv zeta.
  match goal with |- ?E ∧ _ => assert (Hrun : E) end.
  { run_example. }
  split; [exact Hrun|].
  exact (proj2 (chat_posts_payload_and_resolves _ _) _ _ Hrun).
Defined.

End chat_example.

(** C6. For every task id, [getTask] runs whatever the network answers,
    and every run makes exactly one call: a GET (no method set, no body) to
    [/tasks/{task_id}] under the API base. When the response is ok and its
    body parses, the promise resolves to that body, a [Task] with its
    [status], [stage], [progress] and [error]; [stage] and [progress] are
    [maybe] values and may be null. *)
Theorem getTask_gets_task `{JsHost} (taskId : string) :
  (∀ r : settled (Response Task.t),
     Exec (Api.getTask taskId)
       [ {| ex_type := Task.t; ex_call := Api.task_call taskId; ex_outcome := r |} ]
       (Api.received r))
  ∧ ∀ (tr : list Exchange) (res : settled Task.t),
  Exec (Api.getTask taskId) tr res →
  ∃ (call : FetchCall) (r : settled (Response Task.t)),
    tr = [ {| ex_type := Task.t; ex_call := call; ex_outcome := r |} ]
    ∧ url call = Api.apiBaseUrl +:+ "/tasks/" +:+ taskId
    ∧ method (init call) = None
    ∧ effective_method call = "GET"
    ∧ body (init call) = None
    ∧ ∀ resp task,
        r = Fulfilled resp → ok resp = true → json resp = Fulfilled task →
        res = Fulfilled task
        ∧ ∃ (status : string) (stage : maybe string)
            (progress : maybe number) (error : unknown),
            Task.status task = status ∧ Task.stage task = stage
            ∧ Task.progress task = progress ∧ Task.error task = error.
Proof.
  split; [intros r; apply Exec_getTask; by exists r|].
  intros tr res Hrun. apply Exec_getTask in Hrun as (r & -> & ->).
  exists (Api.task_call taskId), r.
  do 5 (split; [done|]).
  intros resp task -> Hok Hjson. split.
  - by rewrite received_ok, Hjson.
  - by eexists _, _, _, _.
Qed.

Section getTask_example.
#[local] Existing Instance example_host.

Lemma getTask_gets_task_witness :
  let task : @Task.t example_host :=
    {| Task.id := "t-1"; Task.workspace_id := "w-1"; Task.document_id := val "d-1";
       Task.type := "document_index"; Task.status := "pending";
       Task.stage := null; Task.progress := null;
       Task.error := ("none" : @unknown example_host);
       Task.result := ("none" : @unknown example_host);
       Task.attempt := (0%Z : @number example_host);
       Task.max_attempts := (3%Z : @number example_host);
       Task.created_at := "2025-01-01"; Task.started_at := null;
       Task.finished_at := null; Task.updated_at := "2025-01-01" |} in
  let tr :=
    [ {| ex_type := Task.t; ex_call := Api.task_call "t-1";
         ex_outcome := Fulfilled (ok_response task) |} ] in
  Exec (Api.getTask "t-1") tr (Fulfilled task)
  ∧ ∃ call r,
      tr = [ {| ex_type := Task.t; ex_call := call; ex_outcome := r |} ]
      ∧ url call = "http://localhost:8000/tasks/t-1"
      ∧ method (init call) = None
      ∧ effective_method call = "GET"
      ∧ body (init call) = None
      ∧ ∀ resp task',
          r = Fulfilled resp → ok resp = true → json resp = Fulfilled task' →
          Fulfilled task = Fulfilled task'
          ∧ ∃ (status : string) (stage : maybe string)
              (progress : maybe number) (error : unknown),
              Task.status task' = status ∧ Task.stage task' = stage
              ∧ Task.progress task' = progress ∧ Task.error task' = error.
Proof.
  cbv zeta.
  match goal with |- ?E ∧ _ => assert (Hrun : E) end.
  { run_example. }
  split; [exact Hrun|].
  exact (proj2 (getTask_gets_task _) _ _ Hrun).
Defined.

End getTask_example.

(** ** Gradients *)

Section colors_facts.
Import Colors.

Lemma Array_from_nonempty_chunks (id : list N) :
  Forall (λ ch, ch ≠ []) (Array_from id)
  ∧ ∀ u, Forall (λ ch, ch ≠ []) (Array_from (u :: id)).
Proof.
  induction id as [|v rest [IH1 IH2]].
  - split; [constructor|]. intros u. simpl. by repeat constructor.
  - split; [apply IH2|]. intros u.
    change (Array_from (u :: v :: rest)) with
      (if is_high_surrogate u && is_low_surrogate v
       then [u; v] :: Array_from rest
       else [u] :: Array_from (v :: rest)).
    destruct (is_high_surrogate u && is_low_surrogate v); constructor; auto.
Qed.

Lemma foldl_add_chunks (chunks : list (list N)) (acc : N) :
  Forall (λ ch, ch ≠ []) chunks →
  foldl (λ acc ch, add acc (charCodeAt0 ch)) (Some acc) chunks
  = Some (acc + foldr N.add 0 (omap charCodeAt0 chunks))%N.
Proof.
  intros Hne. revert acc. induction Hne as [|ch chunks Hch _ IH]; intros acc; simpl.
  - f_equal. lia.
  - destruct ch as [|u ch]; [done|]. simpl. rewrite IH. f_equal.
    rewrite <- N.add_assoc. reflexivity.
Qed.

Lemma code_sum_total (id : list N) :
  code_sum id = Some (foldr N.add 0 (first_units id))%N.
Proof.
  unfold code_sum, first_units.
  rewrite foldl_add_chunks by apply Array_from_nonempty_chunks.
  reflexivity.
Qed.

(** Without surrogate pairs every code unit is a code point of its own. *)
Lemma first_units_no_high_surrogate (id : list N) :
  Forall (λ u, is_high_surrogate u = false) id → first_units id = id.
Proof.
  unfold first_units. induction 1 as [|u rest Hu _ IH]; [done|].
  destruct rest as [|v rest]; [done|].
  change (Array_from (u :: v :: rest)) with
    (if is_high_surrogate u && is_low_surrogate v
     then [u; v] :: Array_from rest
     else [u] :: Array_from (v :: rest)).
  rewrite Hu. cbn [andb].
  change (u :: omap charCodeAt0 (Array_from (v :: rest)) = u :: v :: rest).
  by rewrite IH.
Qed.

End colors_facts.

(** C8. For every string [id], [gradientForId] returns (no TypeError, no
    NaN): the sum [n] of the character codes is a number, the index
    [n % 5] is below the length 5 of the palette array, so the lookup finds
    one of the five triples, and the result is ["bg-gradient-to-br "]
    followed by that triple joined with spaces. The result is a function of
    [id] alone. *)
Theorem gradientForId_total_in_range (id : list N) :
  length Colors.palettes = 5
  ∧ Forall (λ p, length p = 3) Colors.palettes
  ∧ (∃ (n : N) (i : nat) (p : list string),
       Colors.code_sum id = Some n
       ∧ n = foldr N.add 0%N (Colors.first_units id)
       ∧ Colors.palette_index id = Some i
       ∧ i = N.to_nat (n mod 5)
       ∧ i < length Colors.palettes
       ∧ Colors.palettes !! i = Some p
       ∧ Colors.gradientForId id
         = Some ("bg-gradient-to-br " +:+ Colors.join " " p))
  ∧ ∀ id', id = id' → Colors.gradientForId id = Colors.gradientForId id'.
Proof.
  split; [done|]. split; [by repeat constructor|]. split; [|by intros ? <-].
  set (n := foldr N.add 0%N (Colors.first_units id)).
  assert (Hi : N.to_nat (n mod 5) < length Colors.palettes).
  { change (length Colors.palettes) with 5. pose proof (N.mod_upper_bound n 5). lia. }
  destruct (lookup_lt_is_Some_2 _ _ Hi) as [p Hp].
  exists n, (N.to_nat (n mod 5)), p.
  unfold Colors.gradientForId, Colors.palette_index.
  rewrite code_sum_total. fold n.
  change (N.of_nat (length Colors.palettes)) with 5%N.
  cbn [mbind option_bind]. rewrite Hp.
  by repeat split.
Qed.

Lemma gradientForId_total_in_range_witness :
  Colors.gradientForId [119; 45; 49]%N
  = Some "bg-gradient-to-br from-amber-500/25 via-orange-500/20 to-pink-500/25"
  ∧ Colors.gradientForId [0xD83D; 0xDE00]%N
    = Some "bg-gradient-to-br from-cyan-500/25 via-violet-500/20 to-lime-500/25"
  ∧ Colors.gradientForId [119; 45; 49]%N = Colors.gradientForId [119; 45; 49]%N.
Proof.
  split; [reflexivity|]. split; [reflexivity|].
  exact (proj2 (proj2 (proj2 (gradientForId_total_in_range [119; 45; 49]%N)))
           [119; 45; 49]%N eq_refl).
Defined.

(** ** The PDF viewer *)

Section pdf_facts.
Import PdfViewer.

Lemma clampedPage_bounds (st : State) :
  ((numPages st <= 0)%Z → clampedPage st = 1%Z)
  ∧ ((0 < numPages st)%Z → (1 <= clampedPage st <= numPages st)%Z).
Proof.
  unfold clampedPage. destruct (Z.leb_spec (numPages st) 0); split; intros; lia.
Qed.

Lemma clickPrev_in_range (st : State) :
  page_in_range st → page_in_range (clickPrev st).
Proof.
  unfold page_in_range, clickPrev, prev_disabled, onPrevClick, clampedPage.
  destruct st as [n p l e]; simpl.
  destruct (Z.leb_spec n 0); simpl.
  - intros ->. simpl. destruct (Z.leb_spec n 0); [done|lia].
  - intros Hp. destruct (Z.leb_spec (Z.max 1 (Z.min p n)) 1); simpl.
    + destruct (Z.leb_spec n 0); [lia|done].
    + destruct l; simpl; destruct (Z.leb_spec n 0); lia.
Qed.

Lemma clickNext_in_range (st : State) :
  page_in_range st → page_in_range (clickNext st).
Proof.
  unfold page_in_range, clickNext, next_disabled, onNextClick, clampedPage.
  destruct st as [n p l e]; simpl.
  destruct (Z.leb_spec n 0); simpl.
  - intros ->. simpl. destruct (Z.leb_spec n 0); [done|lia].
  - intros Hp. rewrite Z.geb_leb.
    destruct (Z.leb_spec n (Z.max 1 (Z.min p n))); simpl.
    + destruct (Z.leb_spec n 0); [lia|done].
    + destruct l; simpl; destruct (Z.leb_spec n 0); lia.
Qed.

(** While a document loads the page stays 1, so the count that arrives
    finds the page in range. *)
Lemma step_in_range (st : State) (ev : Event) :
  page_in_range st ∧ (loading st = true → page st = 1%Z) →
  page_in_range (step st ev) ∧ (loading (step st ev) = true → page (step st ev) = 1%Z).
Proof.
  intros [Hr Hl]. destruct ev as [|n|msg| |]; simpl.
  - split; [|done]. by unfold page_in_range, clampedPage.
  - destruct (loading st) eqn:Hld; [|by rewrite Hld].
    split; [|done]. unfold page_in_range, clampedPage, load_done. simpl.
    rewrite Hl by done. destruct (Z.leb_spec (default 0%Z n) 0); lia.
  - destruct (loading st) eqn:Hld; [|by rewrite Hld].
    split; [|done]. exact Hr.
  - split; [by apply clickPrev_in_range|].
    unfold clickPrev, prev_disabled. destruct (loading st) eqn:Hld.
    + rewrite orb_true_r. by rewrite Hld.
    + rewrite orb_false_r. destruct (clampedPage st <=? 1)%Z; simpl; congruence.
  - split; [by apply clickNext_in_range|].
    unfold clickNext, next_disabled. destruct (loading st) eqn:Hld.
    + rewrite orb_true_r. by rewrite Hld.
    + rewrite orb_false_r.
      destruct ((numPages st <=? 0)%Z || (clampedPage st >=? numPages st)%Z);
        simpl; congruence.
Qed.

Lemma run_in_range (evs : list Event) : page_in_range (run evs).
Proof.
  unfold run.
  cut (page_in_range (foldl step initial evs)
       ∧ (loading (foldl step initial evs) = true → page (foldl step initial evs) = 1%Z)).
  { by intros [? _]. }
  induction evs as [|ev evs IH] using rev_ind.
  - by split.
  - rewrite foldl_app. simpl. by apply step_in_range.
Qed.

End pdf_facts.

(** C9. For every [page] and [numPages], [clampedPage] is 1 when [numPages]
    is not positive and lies in 1..[numPages] otherwise. The previous and
    next buttons, which act only when not disabled, leave [numPages] alone
    and keep a [page] that is in range in range, moving the shown page by
    exactly one; the [page] of every state the viewer reaches is in range.
    The page the viewer asks the document for is [clampedPage], so it obeys
    the same bound. *)
Theorem clampedPage_within_document (st : PdfViewer.State) :
  ((PdfViewer.numPages st <= 0)%Z → PdfViewer.clampedPage st = 1%Z)
  ∧ ((0 < PdfViewer.numPages st)%Z →
     (1 <= PdfViewer.clampedPage st <= PdfViewer.numPages st)%Z)
  ∧ PdfViewer.numPages (PdfViewer.clickPrev st) = PdfViewer.numPages st
  ∧ PdfViewer.numPages (PdfViewer.clickNext st) = PdfViewer.numPages st
  ∧ (PdfViewer.page_in_range st →
     PdfViewer.page_in_range (PdfViewer.clickPrev st)
     ∧ PdfViewer.page_in_range (PdfViewer.clickNext st))
  ∧ (PdfViewer.page_in_range st → PdfViewer.prev_disabled st = false →
     PdfViewer.clampedPage (PdfViewer.clickPrev st) = (PdfViewer.clampedPage st - 1)%Z)
  ∧ (PdfViewer.page_in_range st → PdfViewer.next_disabled st = false →
     PdfViewer.clampedPage (PdfViewer.clickNext st) = (PdfViewer.clampedPage st + 1)%Z)
  ∧ (∀ evs, PdfViewer.page_in_range (PdfViewer.run evs))
  ∧ (∀ k, PdfViewer.requested_page st = Some k →
       k = PdfViewer.clampedPage st
       ∧ ((PdfViewer.numPages st <= 0)%Z → k = 1%Z)
       ∧ ((0 < PdfViewer.numPages st)%Z → (1 <= k <= PdfViewer.numPages st)%Z)).
Proof.
  pose proof (clampedPage_bounds st) as [Hlow Hhigh].
  split; [done|]. split; [done|].
  split. { unfold PdfViewer.clickPrev. by destruct (PdfViewer.prev_disabled st). }
  split. { unfold PdfViewer.clickNext. by destruct (PdfViewer.next_disabled st). }
  split. { intros Hr. split; [by apply clickPrev_in_range|by apply clickNext_in_range]. }
  split.
  { intros Hr Hen. pose proof (clickPrev_in_range st Hr) as Hr'.
    rewrite <- Hr'. unfold PdfViewer.clickPrev. rewrite Hen. simpl.
    unfold PdfViewer.prev_disabled in Hen. apply orb_false_elim in Hen as [Hc _].
    apply Z.leb_gt in Hc. rewrite Hr. lia. }
  split.
  { intros Hr Hen. pose proof (clickNext_in_range st Hr) as Hr'.
    rewrite <- Hr'. unfold PdfViewer.clickNext. rewrite Hen. simpl.
    by rewrite Hr. }
  split; [apply run_in_range|].
  intros k. unfold PdfViewer.requested_page.
  destruct (PdfViewer.loading st || _); [done|].
  intros [= <-]. done.
Qed.

Lemma clampedPage_within_document_witness :
  let st := {| PdfViewer.numPages := 3; PdfViewer.page := 2;
               PdfViewer.loading := false; PdfViewer.error := None |} in
  PdfViewer.clampedPage st = 2%Z
  ∧ PdfViewer.page (PdfViewer.clickNext st) = 3%Z
  ∧ PdfViewer.clickNext (PdfViewer.clickNext st) = PdfViewer.clickNext st
  ∧ PdfViewer.requested_page st = Some 2%Z
  ∧ (1 <= PdfViewer.clampedPage st <= PdfViewer.numPages st)%Z
  ∧ PdfViewer.page_in_range (PdfViewer.clickPrev st)
  ∧ PdfViewer.clampedPage (PdfViewer.clickPrev st) = (PdfViewer.clampedPage st - 1)%Z
  ∧ PdfViewer.clampedPage (PdfViewer.clickNext st) = (PdfViewer.clampedPage st + 1)%Z
  ∧ (1 <= 2 <= PdfViewer.numPages st)%Z.
Proof.
  cbv zeta.
  pose proof (clampedPage_within_document
                {| PdfViewer.numPages := 3; PdfViewer.page := 2;
                   PdfViewer.loading := false; PdfViewer.error := None |})
    as (_ & Hb & _ & _ & Hr & Hp & Hn & _ & Hq).
  split; [reflexivity|]. split; [reflexivity|]. split; [reflexivity|].
  split; [reflexivity|].
  split; [apply Hb; reflexivity|].
  split; [apply Hr; reflexivity|].
  split; [apply Hp; reflexivity|].
  split; [apply Hn; reflexivity|].
  apply (Hq 2%Z); reflexivity.
Defined.

(** ** Recent workspaces *)

Section home_facts.
Import HomePage.

Lemma ids_filter_NoDup (workspaceId : string) (current : list RecentWorkspace) :
  NoDup (ids current) →
  NoDup (workspaceId :: ids (filter (λ x, workspace_id x ≠ workspaceId) current)).
Proof.
  intros Hnd. constructor.
  - unfold ids. rewrite list_elem_of_fmap. intros (x & Hx & Hin).
    apply list_elem_of_filter in Hin as [Hne _]. by apply Hne.
  - eapply sublist_NoDup; [exact Hnd|].
    unfold ids. apply fmap_sublist, sublist_filter.
Qed.

Lemma loadRecent_saveRecent (items : list RecentWorkspace) (localStorage : Storage) :
  loadRecent (Some (saveRecent items localStorage)) = take 20 items.
Proof. done. Qed.

End home_facts.

(** C10. After [onOpenWorkspace], the stored list of recent workspaces,
    as [loadRecent] reads it back, starts with the entry of the opened
    workspace (with the current time), has at most 20 entries, is the first
    20 of that entry followed by the earlier entries of the other
    workspaces in their order, and has no workspace id twice when the list
    stored before had none twice. *)
Theorem onOpenWorkspace_recent_list (workspaceId now : string) (localStorage : HomePage.Storage) :
  let before := HomePage.loadRecent (Some localStorage) in
  let stored := HomePage.onOpenWorkspace workspaceId now localStorage in
  let after := HomePage.loadRecent (Some stored) in
  HomePage.recent_workspaces stored = Some (HomePage.JsonArray after)
  ∧ head after
    = Some {| HomePage.workspace_id := workspaceId; HomePage.last_opened_at := now |}
  ∧ length after ≤ 20
  ∧ after
    = take 20
        ({| HomePage.workspace_id := workspaceId; HomePage.last_opened_at := now |}
         :: filter (λ x, HomePage.workspace_id x ≠ workspaceId) before)
  ∧ (NoDup (HomePage.ids before) → NoDup (HomePage.ids after)).
Proof.
  cbv zeta. unfold HomePage.onOpenWorkspace. rewrite loadRecent_saveRecent.
  split; [done|]. split; [done|].
  split; [rewrite length_take; lia|]. split; [done|].
  intros Hnd. eapply sublist_NoDup.
  - apply (ids_filter_NoDup workspaceId _ Hnd).
  - change (workspaceId :: HomePage.ids ?l) with
      (HomePage.ids ({| HomePage.workspace_id := workspaceId;
                        HomePage.last_opened_at := now |} :: l)).
    unfold HomePage.ids. apply fmap_sublist, sublist_take.
Qed.

Lemma onOpenWorkspace_recent_list_witness :
  let entry id := {| HomePage.workspace_id := id; HomePage.last_opened_at := "t0" |} in
  let localStorage :=
    {| HomePage.recent_workspaces :=
         Some (HomePage.JsonArray [entry "a"; entry "b"; entry "c"]) |} in
  HomePage.loadRecent (Some (HomePage.onOpenWorkspace "b" "t1" localStorage))
  = [ {| HomePage.workspace_id := "b"; HomePage.last_opened_at := "t1" |};
      entry "a"; entry "c" ]
  ∧ NoDup (HomePage.ids
             (HomePage.loadRecent (Some (HomePage.onOpenWorkspace "b" "t1" localStorage)))).
Proof.
  cbv zeta. split; [reflexivity|].
  apply (onOpenWorkspace_recent_list "b" "t1"
           {| HomePage.recent_workspaces :=
                Some (HomePage.JsonArray
                        [ {| HomePage.workspace_id := "a"; HomePage.last_opened_at := "t0" |};
                          {| HomePage.workspace_id := "b"; HomePage.last_opened_at := "t0" |};
                          {| HomePage.workspace_id := "c"; HomePage.last_opened_at := "t0" |} ]) |}).
  apply (bool_decide_unpack _). vm_compute. exact I.
Defined.

(** ** The workspace page: the message list *)

Section messages_facts.
Context `{JsHost}.
Import WorkspacePage.

Lemma scan_pending_Some (n : nat) (m : Message.t) (next done : list Message.t) :
  scan_pending n m next = Some done →
  ∃ i p, i < n ∧ next !! i = Some p ∧ is_pending p = true
         ∧ (∀ j q, i < j < n → next !! j = Some q → is_pending q = false)
         ∧ done = <[ i := m ]> next.
Proof.
  induction n as [|n IH]; simpl; [done|].
  destruct (next !! n) as [p|] eqn:Hn.
  - destruct (is_pending p) eqn:Hp.
    + intros [= <-]. exists n, p. repeat split; try done; try lia.
    + intros (i & p' & Hi & Hl & Hp' & Hafter & ->)%IH.
      exists i, p'. repeat split; try done; try lia.
      intros j q Hj Hq. destruct (decide (j = n)) as [->|].
      * congruence.
      * apply (Hafter j q); [lia|done].
  - intros (i & p' & Hi & Hl & Hp' & Hafter & ->)%IH.
    exists i, p'. repeat split; try done; try lia.
    intros j q Hj Hq. destruct (decide (j = n)) as [->|].
    + congruence.
    + apply (Hafter j q); [lia|done].
Qed.

Lemma scan_pending_None (n : nat) (m : Message.t) (next : list Message.t) :
  scan_pending n m next = None →
  ∀ j q, j < n → next !! j = Some q → is_pending q = false.
Proof.
  induction n as [|n IH]; simpl; [intros; lia|].
  destruct (next !! n) as [p|] eqn:Hn.
  - destruct (is_pending p) eqn:Hp; [done|].
    intros Hs j q Hj Hq. destruct (decide (j = n)) as [->|].
    + congruence.
    + apply (IH Hs j q); [lia|done].
  - intros Hs j q Hj Hq. destruct (decide (j = n)) as [->|].
    + congruence.
    + apply (IH Hs j q); [lia|done].
Qed.

Lemma replace_pending_frame (replacement : Message.t) (prev : list Message.t) :
  one_entry_changed replacement prev (replace_pending replacement prev).
Proof.
  unfold replace_pending, one_entry_changed.
  destruct (scan_pending (length prev) replacement prev) as [done|] eqn:Hs.
  - left. apply scan_pending_Some in Hs as (i & p & Hi & Hl & Hp & Hafter & ->).
    exists i, p. split; [done|]. split; [done|]. split.
    { intros j q Hj Hq. apply (Hafter j q); [|done].
      split; [done|]. by eapply lookup_lt_Some. }
    split; [done|]. split; [by rewrite length_insert|].
    split; [by apply list_lookup_insert_eq|].
    intros j Hj. by apply list_lookup_insert_ne.
  - right. split.
    { intros q [j Hj]%list_elem_of_lookup.
      apply (scan_pending_None _ _ _ Hs j q); [|done]. by eapply lookup_lt_Some. }
    split; [done|]. intros j Hj. by apply lookup_app_l.
Qed.

(** The placeholder [onSend] has just pushed is the one replaced. *)
Lemma replace_pending_last (replacement : Message.t) (l : list Message.t) :
  replace_pending replacement (l ++ [pending_message]) = l ++ [replacement].
Proof.
  unfold replace_pending. rewrite length_app. simpl.
  replace (length l + 1) with (S (length l)) by lia. simpl.
  rewrite list_lookup_middle by done. simpl.
  replace (length l) with (length l + 0) at 1 by lia.
  rewrite insert_app_r. done.
Qed.

End messages_facts.

(** C7. In every state of the message list, the updater that the success
    path and the failure path of [onSend] hand to [setMessages] changes at
    most one entry that was there: the last assistant entry whose content
    is [__pending__], which becomes the answer (or the error message). All
    other entries stay as they were, at their indices, and the list keeps
    its length. An entry is appended only when the list holds no such
    placeholder, and then no entry that was there changes. No other field
    of the message list is touched by the two handlers. *)
Theorem onSend_updaters_change_one_entry `{JsHost}
    (workspaceId : string) (st : WorkspacePage.State)
    (out : ChatResult.t) (e : Thrown) :
  WorkspacePage.one_entry_changed (WorkspacePage.answer_message out)
    (WorkspacePage.messages st)
    (WorkspacePage.messages (WorkspacePage.on_chat_success workspaceId out st))
  ∧ WorkspacePage.one_entry_changed (WorkspacePage.failure_message e)
      (WorkspacePage.messages st)
      (WorkspacePage.messages (WorkspacePage.on_chat_failure e st))
  ∧ WorkspacePage.messages
      (WorkspacePage.end_send workspaceId (Fulfilled out) st)
    = WorkspacePage.messages (WorkspacePage.on_chat_success workspaceId out st)
  ∧ WorkspacePage.messages
      (WorkspacePage.end_send workspaceId (Rejected e) st)
    = WorkspacePage.messages (WorkspacePage.on_chat_failure e st).
Proof.
  split; [apply replace_pending_frame|]. split; [apply replace_pending_frame|]. done.
Qed.

(** ** The workspace page: running the handlers *)

Section page_runs.
Context `{JsHost}.
Import WorkspacePage.

Lemma Exec_bind_settle {A B} (m : Async A) (k : settled A → Async B) tr res :
  Exec (bind (settle m) k) tr res ↔
  ∃ tr1 tr2 r, tr = tr1 ++ tr2 ∧ Exec m tr1 r ∧ Exec (k r) tr2 res.
Proof.
  rewrite Exec_bind. split.
  - intros [(tr1 & tr2 & a & -> & (r & H1 & [= ->])%Exec_settle & H2)
           |(e & (r & _ & [=])%Exec_settle & _)].
    by exists tr1, tr2, r.
  - intros (tr1 & tr2 & r & -> & H1 & H2). left. exists tr1, tr2, r.
    split; [done|]. split; [|done]. apply Exec_settle. by exists r.
Qed.

Lemma Exec_refreshTree workspaceId (st : State) tr res :
  Exec (refreshTree workspaceId st) tr res ↔
  ∃ r, tr = [ {| ex_type := DocumentTreeNode;
                 ex_call := Api.tree_call workspaceId;
                 ex_outcome := r |} ]
       ∧ res = Fulfilled (refreshed (Api.received r) st).
Proof.
  unfold refreshTree. rewrite Exec_bind_settle. split.
  - intros (tr1 & tr2 & r & -> & (r0 & -> & ->)%Exec_getDocumentTree & Hk).
    exists r0. unfold refreshed. destruct (Api.received r0); simpl in Hk;
      by destruct Hk as [-> ->].
  - intros (r & -> & ->). eexists [_], [], (Api.received r).
    split; [done|]. split; [apply Exec_getDocumentTree; by exists r|].
    unfold refreshed. by destruct (Api.received r).
Qed.



(** *** The updater of the polling timer *)






End page_runs.

(** ** The workspace page: polling *)

Section polling_facts.
Context `{JsHost}.
Import WorkspacePage.


(** The timer is armed only over a non-empty task map. *)
Lemma timer_armed_tracks (st : State) :
  timer_armed st = true → activeIndexTasks st ≠ ∅.
Proof.
  unfold timer_armed. intros Harmed Hempty.
  by rewrite Hempty, map_to_list_empty in Harmed.
Qed.






End polling_facts.

(** ** The timer callback always completes *)

Section polling_runs.
Context `{JsHost}.
Import WorkspacePage.


End polling_runs.


(** ** The workspace page: uploading *)

Section upload_facts.
Context `{JsHost}.
Import WorkspacePage.

Lemma Exec_onUploadFile workspaceId (f : File) (st : State) tr res :
  Exec (onUploadFile workspaceId f st) tr res ↔
  ∃ r : settled (Response UploadResult.t),
    let upload := {| ex_type := UploadResult.t;
                     ex_call := Api.upload_call workspaceId f;
                     ex_outcome := r |} in
    match Api.received r with
    | Rejected e =>
        tr = [upload]
        ∧ res = Fulfilled (setUploading false (setUploading true st), Rejected e)
    | Fulfilled out =>
        ∃ r_tree,
          tr = [upload; {| ex_type := DocumentTreeNode;
                           ex_call := Api.tree_call workspaceId;
                           ex_outcome := r_tree |}]
          ∧ res = Fulfilled
                    (setUploading false
                       (refreshed (Api.received r_tree)
                          (setActiveIndexTasks
                             (λ prev, <[ UploadResult.document_id out :=
                                           fresh_task (UploadResult.task_id out)
                                                      (UploadResult.task_status out) ]> prev)
                             (setUploading true st))),
                     Fulfilled ())
    end.
Proof.
  unfold onUploadFile. rewrite Exec_bind_settle. split.
  - intros (tr1 & tr2 & r & -> & (r0 & -> & ->)%Exec_uploadDocument & Hk).
    exists r0. cbv zeta. destruct (Api.received r0) as [out|e].
    + apply Exec_bind in Hk as [(tr3 & tr4 & st2 & -> & (r_tree & -> & [= ->])%Exec_refreshTree & [-> ->])
                               |(e & (r_tree & _ & [=])%Exec_refreshTree & _)].
      by exists r_tree.
    + by destruct Hk as [-> ->].
  - intros (r & Hr). cbv zeta in Hr.
    destruct (Api.received r) as [out|e] eqn:Hrec.
    + destruct Hr as (r_tree & -> & ->).
      eexists [_], [_], (Fulfilled out).
      split; [done|]. split.
      { apply Exec_uploadDocument. exists r. by rewrite Hrec. }
      apply Exec_bind. left. eexists [_], [], _.
      split; [done|]. split; [|done]. apply Exec_refreshTree. by exists r_tree.
    + destruct Hr as [-> ->]. eexists [_], [], (Rejected e).
      split; [done|]. split; [|done].
      apply Exec_uploadDocument. exists r. by rewrite Hrec.
Qed.

End upload_facts.

(** C5. [onUploadFile] runs whatever the network answers, and every run
    first makes the call of [uploadDocument]: a POST to
    [/workspaces/{workspace_id}/documents/upload] under the API base whose
    body is form data with the file under the name [file] (the code sets no
    content type itself). When the response is ok and its body parses,
    [uploadDocument] resolves to that body, a record of [workspace_id],
    [document_id], [task_id] and [task_status], and the page puts an entry
    under the returned [document_id] in the active-task map, with the
    returned task id and status, [stage] and [progress] null and no error;
    the other entries of the map stay, the tree is fetched again and
    [uploading] is cleared. *)
Theorem onUploadFile_records_task `{JsHost}
    (workspaceId : string) (f : File) (st : WorkspacePage.State) :
  (∀ (r : settled (Response UploadResult.t))
     (r_tree : settled (Response DocumentTreeNode)),
     ∃ tr_rest res,
       Exec (WorkspacePage.onUploadFile workspaceId f st)
         ({| ex_type := UploadResult.t;
             ex_call := Api.upload_call workspaceId f;
             ex_outcome := r |} :: tr_rest) res)
  ∧ ∀ (tr : list Exchange) (res : settled (WorkspacePage.State * settled ())),
  Exec (WorkspacePage.onUploadFile workspaceId f st) tr res →
  ∃ (call : FetchCall) (r : settled (Response UploadResult.t))
    (tr_rest : list Exchange),
    tr = {| ex_type := UploadResult.t; ex_call := call; ex_outcome := r |} :: tr_rest
    ∧ url call
      = Api.apiBaseUrl +:+ "/workspaces/" +:+ workspaceId +:+ "/documents/upload"
    ∧ effective_method call = "POST"
    ∧ body (init call) = Some (FormData [("file", f)])
    ∧ headers (init call) = Some ∅
    ∧ Exec (Api.uploadDocument workspaceId f)
        [ {| ex_type := UploadResult.t; ex_call := call; ex_outcome := r |} ]
        (Api.received r)
    ∧ ∀ resp out,
        r = Fulfilled resp → ok resp = true → json resp = Fulfilled out →
        Api.received r
        = Fulfilled {| UploadResult.workspace_id := UploadResult.workspace_id out;
                       UploadResult.document_id := UploadResult.document_id out;
                       UploadResult.task_id := UploadResult.task_id out;
                       UploadResult.task_status := UploadResult.task_status out |}
        ∧ ∃ st' r_tree,
            res = Fulfilled (st', Fulfilled ())
            ∧ tr_rest = [ {| ex_type := DocumentTreeNode;
                             ex_call := Api.tree_call workspaceId;
                             ex_outcome := r_tree |} ]
            ∧ WorkspacePage.activeIndexTasks st'
              = <[ UploadResult.document_id out :=
                     {| IndexTask.taskId := UploadResult.task_id out;
                        IndexTask.status := UploadResult.task_status out;
                        IndexTask.stage := null;
                        IndexTask.progress := null;
                        IndexTask.error := None |} ]>
                  (WorkspacePage.activeIndexTasks st)
            ∧ WorkspacePage.activeIndexTasks st' !! UploadResult.document_id out
              = Some {| IndexTask.taskId := UploadResult.task_id out;
                        IndexTask.status := UploadResult.task_status out;
                        IndexTask.stage := null;
                        IndexTask.progress := null;
                        IndexTask.error := None |}
            ∧ (∀ d, d ≠ UploadResult.document_id out →
                 WorkspacePage.activeIndexTasks st' !! d
                 = WorkspacePage.activeIndexTasks st !! d)
            ∧ WorkspacePage.uploading st' = false.
Proof.
  split.
  { intros r r_tree. destruct (Api.received r) as [out|e] eqn:Hrec.
    - eexists [_], _. apply Exec_onUploadFile. exists r. cbv zeta. rewrite Hrec.
      by exists r_tree.
    - eexists [], _. apply Exec_onUploadFile. exists r. cbv zeta. by rewrite Hrec. }
  intros tr res (r & Hr)%Exec_onUploadFile. cbv zeta in Hr.
  assert (Hup : Exec (Api.uploadDocument workspaceId f)
                  [ {| ex_type := UploadResult.t;
                       ex_call := Api.upload_call workspaceId f;
                       ex_outcome := r |} ] (Api.received r)).
  { apply Exec_uploadDocument. by exists r. }
  destruct (Api.received r) as [out'|e] eqn:Hrec.
  - destruct Hr as (r_tree & -> & ->).
    eexists (Api.upload_call workspaceId f), r, _.
    split; [done|]. do 4 (split; [done|]). split; [by rewrite Hrec|].
    intros resp out -> Hok Hjson.
    rewrite received_ok, Hjson in Hrec by done. injection Hrec as <-.
    split; [rewrite received_ok, Hjson by done; by destruct out|].
    eexists _, r_tree. split; [done|]. split; [done|].
    assert (WorkspacePage.activeIndexTasks
              (WorkspacePage.setUploading false
                 (WorkspacePage.refreshed (Api.received r_tree)
                    (WorkspacePage.setActiveIndexTasks
                       (λ prev, <[ UploadResult.document_id out :=
                                     WorkspacePage.fresh_task (UploadResult.task_id out)
                                       (UploadResult.task_status out) ]> prev)
                       (WorkspacePage.setUploading true st))))
            = <[ UploadResult.document_id out :=
                   WorkspacePage.fresh_task (UploadResult.task_id out)
                     (UploadResult.task_status out) ]>
                (WorkspacePage.activeIndexTasks st)) as Hmap.
    { unfold WorkspacePage.refreshed. by destruct (Api.received r_tree). }
    split; [exact Hmap|]. rewrite Hmap.
    split; [by rewrite lookup_insert_eq|].
    split; [intros d Hd; by rewrite lookup_insert_ne|]. done.
  - destruct Hr as [-> ->].
    exists (Api.upload_call workspaceId f), r, [].
    split; [done|]. do 4 (split; [done|]). split; [by rewrite Hrec|].
    intros resp out -> Hok Hjson.
    rewrite received_ok, Hjson in Hrec by done. discriminate Hrec.
Qed.

(** ** The workspace page: sending a message *)

Section send_facts.
Context `{JsHost}.
Import WorkspacePage.

Lemma State_ext (st1 st2 : State) :
  tree st1 = tree st2 → docLoading st1 = docLoading st2 →
  docError st1 = docError st2 → uploading st1 = uploading st2 →
  activeIndexTasks st1 = activeIndexTasks st2 → messages st1 = messages st2 →
  input st1 = input st2 → sending st1 = sending st2 →
  sendStage st1 = sendStage st2 → conversationId st1 = conversationId st2 →
  historyNextBefore st1 = historyNextBefore st2 →
  localStorage st1 = localStorage st2 →
  st1 = st2.
Proof. destruct st1, st2; simpl; intros; by subst. Qed.

Lemma Exec_onSend workspaceId (st : State) tr res :
  truthy (trim (input st)) = true →
  Exec (onSend workspaceId st) tr res ↔
  ∃ r : settled (Response ChatResult.t),
    tr = [ {| ex_type := ChatResult.t;
              ex_call := Api.chat_call workspaceId
                           (send_payload (conversationId st) (trim (input st)));
              ex_outcome := r |} ]
    ∧ res = Fulfilled (turn workspaceId r st).
Proof.
  intros Htext. unfold onSend, turn. rewrite Htext. cbn [negb].
  rewrite Exec_bind_settle. split.
  - intros (tr1 & tr2 & r & -> & (r0 & -> & ->)%Exec_chat & [-> ->]). by exists r0.
  - intros (r & -> & ->). eexists [_], [], (Api.received r).
    split; [done|]. split; [|done]. apply Exec_chat. by exists r.
Qed.

Lemma Exec_onSend_blank workspaceId (st : State) tr res :
  truthy (trim (input st)) = false →
  Exec (onSend workspaceId st) tr res ↔ tr = [] ∧ res = Fulfilled st.
Proof. intros Htext. unfold onSend. rewrite Htext. done. Qed.

Lemma messages_begin_send (text : string) (st : State) :
  messages (begin_send text st)
  = (messages st ++ [user_message text]) ++ [pending_message].
Proof. done. Qed.

Lemma messages_end_send_failure workspaceId (e : Thrown) (text : string) (st : State) :
  messages (end_send workspaceId (Rejected e) (begin_send text st))
  = messages st ++ [user_message text; failure_message e].
Proof.
  unfold end_send, on_chat_failure. simpl. rewrite replace_pending_last.
  by rewrite <- app_assoc.
Qed.

Lemma messages_end_send_success workspaceId (out : ChatResult.t) (text : string) (st : State) :
  messages (end_send workspaceId (Fulfilled out) (begin_send text st))
  = messages st ++ [user_message text; answer_message out].
Proof.
  unfold end_send, on_chat_success. simpl. rewrite replace_pending_last.
  by rewrite <- app_assoc.
Qed.

(** The 900 ms timeout that fires after the turn is over finds [sendStage]
    null and leaves the page as it is. *)
Lemma onStageTimeout_after_turn workspaceId (r : settled ChatResult.t) (st : State) :
  onStageTimeout (end_send workspaceId r st) = end_send workspaceId r st.
Proof. done. Qed.

(** While the turn is in flight it moves the stage text on. *)
Lemma onStageTimeout_in_flight (text : string) (st : State) :
  sendStage (onStageTimeout (begin_send text st)) = Some "正在生成回答…".
Proof. done. Qed.

(** A message that is not the placeholder survives the updater, whatever
    else the list holds by then. *)
Lemma replace_pending_keeps (replacement m : Message.t) (prev : list Message.t) :
  m ∈ prev → is_pending m = false → m ∈ replace_pending replacement prev.
Proof.
  intros Hin Hm.
  destruct (replace_pending_frame replacement prev)
    as [(i & p & Hi & Hp & _ & _ & _ & _ & Hframe)|(_ & -> & _)].
  - apply list_elem_of_lookup in Hin as [j Hj]. apply list_elem_of_lookup. exists j.
    rewrite Hframe; [done|]. intros ->. congruence.
  - apply elem_of_app. by left.
Qed.

(** *** The conversation over a session *)

Lemma step_keeps_conversation workspaceId (c : string) (st : State) (ev : Event) :
  keeps_conversation c ev →
  on_conversation workspaceId c st →
  on_conversation workspaceId c (step workspaceId st ev).
Proof.
  unfold on_conversation, getItem. intros Hev [Hc Hs].
  destruct ev as [text|r| |]; simpl in *.
  - done.
  - unfold turn. destruct (negb (truthy (trim (input st)))); [done|].
    destruct (Api.received r) as [out|e]; simpl.
    + rewrite Hev. split; [done|]. by rewrite lookup_insert_eq.
    + done.
  - done.
  - unfold mount, restoreConversation, getItem. simpl. rewrite Hs.
    assert (truthy c = true) as -> by by apply truthy_true.
    done.
Qed.

Lemma play_keeps_conversation workspaceId (c : string) (evs : list Event) (st : State) :
  Forall (keeps_conversation c) evs →
  on_conversation workspaceId c st →
  on_conversation workspaceId c (play workspaceId evs st).
Proof.
  unfold play. intros Hevs. revert st.
  induction Hevs as [|ev evs Hev _ IH]; intros st Hst; simpl; [done|].
  apply IH. by apply step_keeps_conversation.
Qed.

End send_facts.

(** C2. With a non-blank input [onSend] makes the chat call and runs to
    its end whatever the answer. In a turn whose [chat] call rejects with
    [e], [onSend] ends in a
    state that differs from the one it started in only by: the input
    cleared, [sending] false and [sendStage] null, and the message list
    with two more entries, the user's message and, in place of the pending
    placeholder, the assistant message [请求失败：] followed by the text of
    [e]. The messages already listed, the stored conversation id and
    [localStorage] are as before. In whatever state the failure handler
    finds the page, it leaves the conversation id and the storage alone and
    keeps every message that is not the placeholder, the user's among them. *)
Theorem onSend_failure_keeps_user_message `{JsHost}
    (workspaceId : string) (st : WorkspacePage.State) :
  truthy (trim (WorkspacePage.input st)) = true →
  (∀ r : settled (Response ChatResult.t),
     Exec (WorkspacePage.onSend workspaceId st)
       [ {| ex_type := ChatResult.t;
            ex_call := Api.chat_call workspaceId
                         (WorkspacePage.send_payload (WorkspacePage.conversationId st)
                            (trim (WorkspacePage.input st)));
            ex_outcome := r |} ]
       (Fulfilled (WorkspacePage.turn workspaceId r st)))
  ∧ ∀ (tr : list Exchange) (res : settled WorkspacePage.State),
  Exec (WorkspacePage.onSend workspaceId st) tr res →
  ∃ (call : FetchCall) (r : settled (Response ChatResult.t))
    (st' : WorkspacePage.State),
    tr = [ {| ex_type := ChatResult.t; ex_call := call; ex_outcome := r |} ]
    ∧ res = Fulfilled st'
    ∧ ∀ e, Api.received r = Rejected e →
        st' =
        {| WorkspacePage.tree := WorkspacePage.tree st;
           WorkspacePage.docLoading := WorkspacePage.docLoading st;
           WorkspacePage.docError := WorkspacePage.docError st;
           WorkspacePage.uploading := WorkspacePage.uploading st;
           WorkspacePage.activeIndexTasks := WorkspacePage.activeIndexTasks st;
           WorkspacePage.messages :=
             WorkspacePage.messages st
             ++ [ {| Message.role := user;
                     Message.content := trim (WorkspacePage.input st);
                     Message.refs := undefined |};
                  {| Message.role := assistant;
                     Message.content :=
                       "请求失败：" +:+
                       WorkspacePage.interpolate (WorkspacePage.errToString e);
                     Message.refs := undefined |} ];
           WorkspacePage.input := "";
           WorkspacePage.sending := false;
           WorkspacePage.sendStage := None;
           WorkspacePage.conversationId := WorkspacePage.conversationId st;
           WorkspacePage.historyNextBefore := WorkspacePage.historyNextBefore st;
           WorkspacePage.localStorage := WorkspacePage.localStorage st |}
        ∧ (∀ any : WorkspacePage.State,
             let after := WorkspacePage.end_send workspaceId (Rejected e) any in
             WorkspacePage.conversationId after = WorkspacePage.conversationId any
             ∧ WorkspacePage.localStorage after = WorkspacePage.localStorage any
             ∧ WorkspacePage.sending after = false
             ∧ WorkspacePage.sendStage after = None
             ∧ length (WorkspacePage.messages any) ≤ length (WorkspacePage.messages after)
             ∧ ∀ m, m ∈ WorkspacePage.messages any →
                 WorkspacePage.is_pending m = false →
                 m ∈ WorkspacePage.messages after).
Proof.
  intros Htext. split; [intros r; apply Exec_onSend; [done|by exists r]|].
  intros tr res (r & -> & ->)%Exec_onSend; [|done].
  eexists _, r, _. split; [done|]. split; [done|].
  intros e He. split.
  - unfold WorkspacePage.turn. rewrite Htext, He. cbn [negb].
    apply State_ext; try reflexivity.
    apply (messages_end_send_failure workspaceId).
  - intros any. cbv zeta. do 4 (split; [done|]). split.
    + simpl.
      destruct (replace_pending_frame (WorkspacePage.failure_message e)
                  (WorkspacePage.messages any))
        as [(i & p & _ & _ & _ & _ & -> & _)|(_ & -> & _)]; [done|].
      rewrite length_app. lia.
    + intros m Hin Hm. by apply replace_pending_keeps.
Qed.

(** C4. Every turn sent from the page (the input is not blank) makes the
    chat call, with the stored conversation id in the request, null when
    none is stored. After a successful
    response the returned id [c] is the [conversationId] of the state and
    the value of [localStorage] under [current_conversation:<workspaceId>].
    From then on, through typing, failed turns, turns the server answers
    under [c] and (for a non-empty [c]) remounts of the page, both still
    hold [c] and every turn sent carries [c]; the new-conversation button
    sets the id to null and removes the key, so the next request carries
    null, also after a remount. *)
Theorem conversation_id_stored_and_reused `{JsHost}
    (workspaceId : string) (st : WorkspacePage.State) :
  truthy (trim (WorkspacePage.input st)) = true →
  (∀ r : settled (Response ChatResult.t),
     Exec (WorkspacePage.onSend workspaceId st)
       [ {| ex_type := ChatResult.t;
            ex_call := Api.chat_call workspaceId
                         (WorkspacePage.send_payload (WorkspacePage.conversationId st)
                            (trim (WorkspacePage.input st)));
            ex_outcome := r |} ]
       (Fulfilled (WorkspacePage.turn workspaceId r st)))
  ∧ ∀ (tr : list Exchange) (res : settled WorkspacePage.State),
  Exec (WorkspacePage.onSend workspaceId st) tr res →
  ∃ (call : FetchCall) (r : settled (Response ChatResult.t))
    (st' : WorkspacePage.State),
    tr = [ {| ex_type := ChatResult.t; ex_call := call; ex_outcome := r |} ]
    ∧ res = Fulfilled st'
    ∧ url call = Api.apiBaseUrl +:+ "/workspaces/" +:+ workspaceId +:+ "/chat"
    ∧ body (init call)
      = Some (TextBody (JSON_stringify
                {| ChatPayload.conversation_id :=
                     match WorkspacePage.conversationId st with
                     | Some c => val c
                     | None => null
                     end;
                   ChatPayload.message := trim (WorkspacePage.input st);
                   ChatPayload.top_k := undefined |}))
    ∧ ∀ out, Api.received r = Fulfilled out →
        let c := ChatResult.conversation_id out in
        let key := "current_conversation:" +:+ workspaceId in
        WorkspacePage.conversationId st' = Some c
        ∧ WorkspacePage.localStorage st' = <[ key := c ]> (WorkspacePage.localStorage st)
        ∧ WorkspacePage.localStorage st' !! key = Some c
        ∧ ∀ evs, Forall (WorkspacePage.keeps_conversation c) evs →
            let later := WorkspacePage.play workspaceId evs st' in
            WorkspacePage.conversationId later = Some c
            ∧ WorkspacePage.localStorage later !! key = Some c
            ∧ (∀ tr2 res2,
                 truthy (trim (WorkspacePage.input later)) = true →
                 Exec (WorkspacePage.onSend workspaceId later) tr2 res2 →
                 ∃ call2 r2,
                   tr2 = [ {| ex_type := ChatResult.t; ex_call := call2;
                              ex_outcome := r2 |} ]
                   ∧ body (init call2)
                     = Some (TextBody (JSON_stringify
                               {| ChatPayload.conversation_id := val c;
                                  ChatPayload.message := trim (WorkspacePage.input later);
                                  ChatPayload.top_k := undefined |})))
            ∧ (let fresh := WorkspacePage.onNewConversation workspaceId later in
               WorkspacePage.conversationId fresh = None
               ∧ WorkspacePage.localStorage fresh !! key = None
               ∧ WorkspacePage.messages fresh = []
               ∧ WorkspacePage.conversationId
                   (WorkspacePage.mount workspaceId (WorkspacePage.localStorage fresh))
                 = None
               ∧ ∀ text,
                   ChatPayload.conversation_id
                     (WorkspacePage.send_payload (WorkspacePage.conversationId fresh) text)
                   = null).
Proof.
  intros Htext. split; [intros r; apply Exec_onSend; [done|by exists r]|].
  intros tr res (r & -> & ->)%Exec_onSend; [|done].
  eexists _, r, _. split; [done|]. split; [done|]. split; [done|]. split; [done|].
  intros out Hout. cbv zeta.
  assert (Hhere : WorkspacePage.on_conversation workspaceId (ChatResult.conversation_id out)
                    (WorkspacePage.turn workspaceId r st)).
  { unfold WorkspacePage.on_conversation, WorkspacePage.turn, WorkspacePage.getItem.
    rewrite Htext, Hout. simpl. split; [done|]. by rewrite lookup_insert_eq. }
  split; [apply Hhere|].
  split. { unfold WorkspacePage.turn. by rewrite Htext, Hout. }
  split; [apply Hhere|].
  intros evs Hevs.
  destruct (play_keeps_conversation workspaceId _ evs _ Hevs Hhere) as [Hc Hs].
  split; [done|]. split; [done|]. split.
  - intros tr2 res2 Htext2 (r2 & -> & ->)%Exec_onSend; [|done].
    eexists _, r2. split; [done|]. simpl. by rewrite Hc.
  - split; [done|]. split; [apply lookup_delete_eq|]. split; [done|]. split; [|done].
    unfold WorkspacePage.mount, WorkspacePage.restoreConversation, WorkspacePage.getItem.
    simpl. unfold WorkspacePage.conversationKey. by rewrite lookup_delete_eq.
Qed.

(** ** Worked examples *)

Section page_examples.
#[local] Existing Instance example_host.
Import WorkspacePage.

Example replace_pending_example :
  replace_pending (failure_message (ErrorObject "boom"))
    [ user_message "a"; pending_message; user_message "b"; pending_message ]
  = [ user_message "a"; pending_message; user_message "b";
      failure_message (ErrorObject "boom") ]
  ∧ replace_pending (failure_message (ErrorObject "boom")) [ user_message "a" ]
    = [ user_message "a"; failure_message (ErrorObject "boom") ].
Proof. split; vm_compute; reflexivity. Qed.

Lemma onSend_failure_keeps_user_message_witness :
  let st := typed_page "hi" in
  let tr := [ {| ex_type := ChatResult.t;
                 ex_call := Api.chat_call "w-1"
                              (send_payload (conversationId st) (trim (input st)));
                 ex_outcome := server_down |} ] in
  let st' := turn "w-1" server_down st in
  truthy (trim (input st)) = true
  ∧ Exec (onSend "w-1" st) tr (Fulfilled st')
  ∧ messages st'
    = [ user_message "hi";
        {| Message.role := assistant;
           Message.content := "请求失败：500 Internal Server Error: boom";
           Message.refs := undefined |} ]
  ∧ sending st' = false
  ∧ conversationId st' = None
  ∧ ∃ call r st'',
      tr = [ {| ex_type := ChatResult.t; ex_call := call; ex_outcome := r |} ]
      ∧ Fulfilled st' = Fulfilled st''.
Proof.
  cbv zeta.
  assert (Htext : truthy (trim (input (typed_page "hi"))) = true)
    by (vm_compute; reflexivity).
  pose proof (proj2 (Exec_onSend "w-1" (typed_page "hi") _ _ Htext)
                (ex_intro _ server_down (conj eq_refl eq_refl))) as Hrun.
  split; [exact Htext|]. split; [exact Hrun|].
  split; [vm_compute; reflexivity|]. split; [vm_compute; reflexivity|].
  split; [vm_compute; reflexivity|].
  destruct (proj2 (onSend_failure_keeps_user_message "w-1" _ Htext) _ _ Hrun)
    as (call & r & st'' & Htr & Hres & _).
  exists call, r, st''. split; [exact Htr|]. exact Hres.
Defined.

Lemma conversation_id_stored_and_reused_witness :
  let st := typed_page "hi" in
  let answered := Fulfilled (ok_response example_chat_result) in
  let tr := [ {| ex_type := ChatResult.t;
                 ex_call := Api.chat_call "w-1"
                              (send_payload (conversationId st) (trim (input st)));
                 ex_outcome := answered |} ] in
  let st' := turn "w-1" answered st in
  truthy (trim (input st)) = true
  ∧ Exec (onSend "w-1" st) tr (Fulfilled st')
  ∧ conversationId st' = Some "c-1"
  ∧ localStorage st' !! "current_conversation:w-1" = Some "c-1"
  ∧ conversationId (play "w-1" [Typed "more"; Sent server_down; Remounted] st')
    = Some "c-1"
  ∧ conversationId (play "w-1" [NewConversationClicked; Remounted] st') = None
  ∧ ∃ call r st'',
      tr = [ {| ex_type := ChatResult.t; ex_call := call; ex_outcome := r |} ]
      ∧ Fulfilled st' = Fulfilled st''.
Proof.
  cbv zeta.
  assert (Htext : truthy (trim (input (typed_page "hi"))) = true)
    by (vm_compute; reflexivity).
  pose proof (proj2 (Exec_onSend "w-1" (typed_page "hi") _ _ Htext)
                (ex_intro _ (Fulfilled (ok_response example_chat_result))
                   (conj eq_refl eq_refl))) as Hrun.
  split; [exact Htext|]. split; [exact Hrun|].
  split; [vm_compute; reflexivity|]. split; [vm_compute; reflexivity|].
  split; [vm_compute; reflexivity|]. split; [vm_compute; reflexivity|].
  destruct (proj2 (conversation_id_stored_and_reused "w-1" _ Htext) _ _ Hrun)
    as (call & r & st'' & Htr & Hres & _).
  exists call, r, st''. split; [exact Htr|]. exact Hres.
Defined.

Lemma onUploadFile_records_task_witness :
  let st := mount "w-1" ∅ in
  let f : @File example_host := "bytes" in
  let tr := [ {| ex_type := UploadResult.t;
                 ex_call := Api.upload_call "w-1" f;
                 ex_outcome := Fulfilled (ok_response example_upload_result) |};
              {| ex_type := DocumentTreeNode;
                 ex_call := Api.tree_call "w-1";
                 ex_outcome := offline |} ] in
  let st' :=
    setUploading false
      (refreshed (Api.received offline)
         (setActiveIndexTasks (λ prev, <[ "d-1" := fresh_task "t-1" "pending" ]> prev)
            (setUploading true st))) in
  Exec (onUploadFile "w-1" f st) tr (Fulfilled (st', Fulfilled ()))
  ∧ activeIndexTasks st' !! "d-1" = Some (fresh_task "t-1" "pending")
  ∧ ∃ call r tr_rest,
      tr = {| ex_type := UploadResult.t; ex_call := call; ex_outcome := r |} :: tr_rest
      ∧ effective_method call = "POST".
Proof.
  cbv zeta.
  match goal with |- ?E ∧ _ => assert (Hrun : E) end.
  { apply Exec_onUploadFile.
    exists (Fulfilled (ok_response example_upload_result)). by exists offline. }
  split; [exact Hrun|]. split; [vm_compute; reflexivity|].
  destruct (proj2 (onUploadFile_records_task "w-1" _ _) _ _ Hrun)
    as (call & r & tr_rest & Htr & _ & Hm & _).
  exists call, r, tr_rest. split; [exact Htr|]. exact Hm.
Defined.


End page_examples.

(** * The rest of the client and of the pages *)

(** ** More of the host: URLs and strings *)

Class WebHost : Type := {
  (** [URLSearchParams.prototype.toString] on the list of pairs *)
  URLSearchParams_toString : list (string * string) → string;
  (** [String.prototype.toLowerCase] *)
  toLowerCase : string → string;
  (** [s.includes(q)] *)
  includes : string → string → bool;
}.

(** [qs.set(key, value)]: replaces the first pair of that key and drops the
    others, or appends. *)
Fixpoint set_first (key value : string) (qs : list (string * string))
  : list (string * string) :=
  match qs with
  | [] => []
  | p :: rest =>
      if decide (p.1 = key)
      then (key, value) :: filter (λ q, q.1 ≠ key) rest
      else p :: set_first key value rest
  end.

Definition URLSearchParams_set (key value : string) (qs : list (string * string))
  : list (string * string) :=
  if bool_decide (key ∈ qs.*1) then set_first key value qs
  else qs ++ [(key, value)].

(** [x] used as a condition, for a [string | null | undefined] *)
Definition maybe_truthy (x : maybe string) : bool :=
  match x with
  | val s => truthy s
  | undefined | null => false
  end.

(** ** More of [frontend/src/lib/api.ts] *)

Module Workspace.
Record t : Type := {
  id : string;
  name : string;
  qdrant_collection : string;
  qdrant_alias : maybe string;
  created_at : string;
  updated_at : string;
}.
End Workspace.

Inductive ContentType : Type := markdown | plain_text | image.

Module DocumentPreview.
Record t : Type := {
  document_id : string;
  title : string;
  file_ext : maybe string;
  mime_type : maybe string;
  content : string;
  content_type : ContentType;
  truncated : bool;
  download_url : string;
  view_url : string;
}.
End DocumentPreview.

(** A message as the server lists it. [role] is any string; [refs] is
    [metadata?.["refs"]] at the type the page casts it to. *)
Module MessageItem.
Record t `{JsHost} : Type := {
  id : string;
  conversation_id : string;
  role : string;
  content : string;
  refs : maybe (list unknown);
  created_at : string;
}.
End MessageItem.

Module MessageListResponse.
Record t `{JsHost} : Type := {
  items : list MessageItem.t;
  next_before : maybe string;
}.
End MessageListResponse.

Module DeleteManyResponse.
Record t `{JsHost} : Type := {
  deleted_documents : number;
  deleted_files : number;
  deleted_vectors : number;
  revoked_tasks : number;
}.
End DeleteManyResponse.

Module DeleteManyPayload.
Record t : Type := {
  document_ids : maybe (list string);
  prefixes : maybe (list string);
}.
End DeleteManyPayload.

Module CreateWorkspacePayload.
Record t : Type := {
  name : string;
  qdrant_alias : maybe string;
}.
End CreateWorkspacePayload.

(** The options of [listConversationMessages]; the page count is a whole
    number, printed by [String(limit)] in decimal. *)
Module HistoryOpts.
Record t : Type := {
  limit : option N;
  before : maybe string;
}.
End HistoryOpts.

Module ApiMore.
Section api_more.
Context `{JsHost} `{WebHost}.

Definition listWorkspaces : Async (list Workspace.t) :=
  Api.request "/workspaces" None.

Definition createWorkspace (payload : CreateWorkspacePayload.t) : Async Workspace.t :=
  Api.request "/workspaces"
    (Some {| method := Some "POST";
             headers := Some {[ "Content-Type" := "application/json" ]};
             body := Some (TextBody (JSON_stringify payload)) |}).

Definition getDocumentPreview (workspaceId documentId : string) : Async DocumentPreview.t :=
  Api.request ("/workspaces/" +:+ workspaceId +:+ "/documents/" +:+ documentId +:+ "/preview")
    None.

Definition listConversationMessages (conversationId : string) (opts : option HistoryOpts.t)
  : Async MessageListResponse.t :=
  let limit := default 50%N (opts ≫= HistoryOpts.limit) in
  let before := or_null (from_option HistoryOpts.before undefined opts) in
  let qs := [] in
  let qs := URLSearchParams_set "limit" (pretty limit) qs in
  let qs := match before with
            | val b => if truthy b then URLSearchParams_set "before" b qs else qs
            | undefined | null => qs
            end in
  Api.request ("/conversations/" +:+ conversationId +:+ "/messages?"
               +:+ URLSearchParams_toString qs) None.

Definition deleteDocument (workspaceId documentId : string) : Async DeleteManyResponse.t :=
  Api.request ("/workspaces/" +:+ workspaceId +:+ "/documents/" +:+ documentId)
    (Some {| method := Some "DELETE"; headers := None; body := None |}).

Definition deleteByPrefix (workspaceId prefix : string) : Async DeleteManyResponse.t :=
  let qs := [] in
  let qs := URLSearchParams_set "prefix" prefix qs in
  Api.request ("/workspaces/" +:+ workspaceId +:+ "/documents/by_prefix?"
               +:+ URLSearchParams_toString qs)
    (Some {| method := Some "DELETE"; headers := None; body := None |}).

Definition deleteMany (workspaceId : string) (payload : DeleteManyPayload.t)
  : Async DeleteManyResponse.t :=
  Api.request ("/workspaces/" +:+ workspaceId +:+ "/documents/delete_many")
    (Some {| method := Some "POST";
             headers := Some {[ "Content-Type" := "application/json" ]};
             body := Some (TextBody (JSON_stringify payload)) |}).

(** The calls these functions hand to [fetch]. *)
Definition get_call (path : string) : FetchCall :=
  {| url := Api.apiBaseUrl +:+ path;
     init := {| method := None; headers := Some ∅; body := None |} |}.

Definition delete_call (path : string) : FetchCall :=
  {| url := Api.apiBaseUrl +:+ path;
     init := {| method := Some "DELETE"; headers := Some ∅; body := None |} |}.

Definition post_json_call (path body_text : string) : FetchCall :=
  {| url := Api.apiBaseUrl +:+ path;
     init := {| method := Some "POST";
                headers := Some {[ "Content-Type" := "application/json" ]};
                body := Some (TextBody body_text) |} |}.

End api_more.
End ApiMore.

(** The message of the [Error] that [request] throws for a response that
    is not ok. *)
Definition http_error_text (code : N) (reason body_text : string) : string :=
  pretty code +:+ " " +:+ reason +:+ ": " +:+ body_text.

Section api_more_facts.
Context `{JsHost} `{WebHost}.

Lemma Exec_get {T} (path : string) tr (res : settled T) :
  Exec (Api.request path None) tr res ↔
  ∃ r, tr = [ {| ex_type := T; ex_call := ApiMore.get_call path; ex_outcome := r |} ]
       ∧ res = Api.received r.
Proof. by rewrite Exec_request. Qed.

Lemma Exec_delete {T} (path : string) tr (res : settled T) :
  Exec (Api.request path
          (Some {| method := Some "DELETE"; headers := None; body := None |})) tr res ↔
  ∃ r, tr = [ {| ex_type := T; ex_call := ApiMore.delete_call path; ex_outcome := r |} ]
       ∧ res = Api.received r.
Proof. by rewrite Exec_request. Qed.

Lemma Exec_post_json {T} (path body_text : string) tr (res : settled T) :
  Exec (Api.request path
          (Some {| method := Some "POST";
                   headers := Some {[ "Content-Type" := "application/json" ]};
                   body := Some (TextBody body_text) |})) tr res ↔
  ∃ r, tr = [ {| ex_type := T; ex_call := ApiMore.post_json_call path body_text;
                 ex_outcome := r |} ]
       ∧ res = Api.received r.
Proof. by rewrite Exec_request. Qed.

Lemma received_not_ok {T} (resp : Response T) (body_text : string) :
  ok resp = false → text resp = Fulfilled body_text →
  Api.received (Fulfilled resp)
  = Rejected (ErrorObject (http_error_text (status resp) (statusText resp) body_text)).
Proof. simpl. by intros -> ->. Qed.

End api_more_facts.

(** X1. Whatever the path and the options, [request] makes one call and
    resolves only when [fetch] fulfilled with an ok response whose body
    parsed, and then to that body. A rejection of [fetch], of [resp.text()]
    or of [resp.json()] is passed on unchanged; a response that is not ok
    rejects with an [Error] whose message is the status, the status text
    and the body text, and its JSON is never looked at. *)
Theorem request_rejects_unless_ok `{JsHost} {T : Type}
    (path : string) (init : option RequestInit)
    (r : settled (Response T)) :
  ∃ call : FetchCall,
    url call = Api.apiBaseUrl +:+ path
    ∧ Exec (Api.request path init)
        [ {| ex_type := T; ex_call := call; ex_outcome := r |} ] (Api.received r)
    ∧ match r with
      | Rejected e => Api.received r = Rejected e
      | Fulfilled resp =>
          if ok resp then Api.received r = json resp
          else match text resp with
               | Rejected e => Api.received r = Rejected e
               | Fulfilled body_text =>
                   Api.received r
                   = Rejected (ErrorObject
                       (pretty (status resp) +:+ " " +:+ statusText resp
                        +:+ ": " +:+ body_text))
               end
      end
    ∧ (∀ v, Api.received r = Fulfilled v ↔
         ∃ resp, r = Fulfilled resp ∧ ok resp = true ∧ json resp = Fulfilled v)
    ∧ (∀ tr res, Exec (Api.request path init) tr res →
         ∃ r', tr = [ {| ex_type := T; ex_call := call; ex_outcome := r' |} ]
               ∧ res = Api.received r').
Proof.
  eexists. split; [|split; [apply Exec_request; by eexists|]]; [done|].
  split; [|split; [|by intros tr res ?%Exec_request]].
  - destruct r as [resp|e]; [|done]. simpl.
    destruct (ok resp); [done|]. by destruct (text resp).
  - intros v. split.
    + destruct r as [resp|e]; [|done]. simpl.
      destruct (ok resp) eqn:Hok.
      * intros Hj. by exists resp.
      * by destruct (text resp).
    + intros (resp & -> & Hok & Hj). by rewrite received_ok.
Qed.

(** ** More about sending a message *)

Section send_more_facts.
Context `{JsHost}.
Import WorkspacePage.

Lemma failure_message_not_pending (e : Thrown) :
  is_pending (failure_message e) = false.
Proof.
  unfold is_pending. apply andb_false_iff. right.
  apply bool_decide_eq_false. unfold failure_message, PENDING. simpl. discriminate.
Qed.

Lemma answer_message_pending (out : ChatResult.t) :
  is_pending (answer_message out) = true ↔ ChatResult.answer out = "__pending__".
Proof.
  unfold is_pending. rewrite andb_true_iff, !bool_decide_eq_true.
  unfold answer_message, PENDING. simpl. rewrite or_empty_id. tauto.
Qed.

End send_more_facts.

(** X2. When the chat endpoint answers with a status outside 200-299, the
    turn ends with the user's message followed by an assistant message
    that reads [请求失败：], the status code, the status text, a colon and the
    body text of the response; when the network call itself fails with an
    [Error], the assistant message reads [请求失败：] followed by its
    message. *)
Theorem onSend_shows_the_http_error `{JsHost}
    (workspaceId : string) (st : WorkspacePage.State)
    (r : settled (Response ChatResult.t)) :
  truthy (trim (WorkspacePage.input st)) = true →
  let st' := WorkspacePage.turn workspaceId r st in
  let shown (text : string) :=
    WorkspacePage.messages st' =
    WorkspacePage.messages st
    ++ [ {| Message.role := user;
            Message.content := trim (WorkspacePage.input st);
            Message.refs := undefined |};
         {| Message.role := assistant;
            Message.content := "请求失败：" +:+ text;
            Message.refs := undefined |} ] in
  Exec (WorkspacePage.onSend workspaceId st)
    [ {| ex_type := ChatResult.t;
         ex_call := Api.chat_call workspaceId
                      (WorkspacePage.send_payload (WorkspacePage.conversationId st)
                         (trim (WorkspacePage.input st)));
         ex_outcome := r |} ]
    (Fulfilled st')
  ∧ match r with
    | Rejected (ErrorObject message) => shown message
    | Rejected (OtherValue _) => True
    | Fulfilled resp =>
        if ok resp then True
        else match text resp with
             | Fulfilled body_text =>
                 shown (pretty (status resp) +:+ " " +:+ statusText resp
                        +:+ ": " +:+ body_text)
             | Rejected (ErrorObject message) => shown message
             | Rejected (OtherValue _) => True
             end
    end.
Proof.
  intros Htext st' shown. split.
  { apply Exec_onSend; [done|]. by exists r. }
  assert (Hfail : ∀ message, Api.received r = Rejected (ErrorObject message) →
            shown message).
  { intros message Hr. unfold shown, st', WorkspacePage.turn.
    rewrite Htext, Hr. cbn [negb].
    by rewrite (messages_end_send_failure workspaceId). }
  destruct r as [resp|[message|v]]; [|by apply Hfail|done].
  destruct (ok resp) eqn:Hok; [done|].
  destruct (text resp) as [body_text|[message|v]] eqn:Htxt; [| |done].
  - apply Hfail. simpl. by rewrite Hok, Htxt.
  - apply Hfail. simpl. by rewrite Hok, Htxt.
Qed.

Section send_more_examples.
#[local] Existing Instance example_host.

Lemma onSend_shows_the_http_error_witness :
  truthy (trim (WorkspacePage.input (typed_page "hi"))) = true
  ∧ WorkspacePage.messages (WorkspacePage.turn "w-1" server_down (typed_page "hi"))
    = [ WorkspacePage.user_message "hi";
        {| Message.role := assistant;
           Message.content := "请求失败：500 Internal Server Error: boom";
           Message.refs := undefined |} ].
Proof.
  assert (Htext : truthy (trim (WorkspacePage.input (typed_page "hi"))) = true)
    by (vm_compute; reflexivity).
  split; [exact Htext|].
  exact (proj2 (onSend_shows_the_http_error "w-1" (typed_page "hi") server_down Htext)).
Defined.

End send_more_examples.

(** X3. A turn, however the chat call settles, leaves the message list
    longer by exactly two entries: the user's message and one assistant
    message that took the place of the placeholder. That assistant message
    is itself read as the pending placeholder (and shown as a spinner)
    exactly when the server's answer is the text [__pending__]; an error
    message never is. [sending] and the stage text are cleared. *)
Theorem turn_replaces_the_placeholder `{JsHost}
    (workspaceId : string) (st : WorkspacePage.State)
    (r : settled (Response ChatResult.t)) :
  truthy (trim (WorkspacePage.input st)) = true →
  let st' := WorkspacePage.turn workspaceId r st in
  ∃ m : Message.t,
    WorkspacePage.messages st'
    = WorkspacePage.messages st
      ++ [ WorkspacePage.user_message (trim (WorkspacePage.input st)); m ]
    ∧ Message.role m = assistant
    ∧ (WorkspacePage.is_pending m = true ↔
       ∃ out, Api.received r = Fulfilled out
              ∧ ChatResult.answer out = "__pending__")
    ∧ WorkspacePage.sending st' = false
    ∧ WorkspacePage.sendStage st' = None
    ∧ WorkspacePage.input st' = "".
Proof.
  intros Htext st'. unfold st', WorkspacePage.turn. rewrite Htext. cbn [negb].
  destruct (Api.received r) as [out|e].
  - exists (WorkspacePage.answer_message out).
    split; [apply (messages_end_send_success workspaceId)|]. split; [done|].
    split; [|done]. rewrite answer_message_pending. split.
    + intros Hans. by exists out.
    + by intros (out' & [= <-] & Hans).
  - exists (WorkspacePage.failure_message e).
    split; [apply (messages_end_send_failure workspaceId)|]. split; [done|].
    split; [|done]. rewrite failure_message_not_pending. split; [done|].
    by intros (out' & [=] & _).
Qed.

Section send_placeholder_examples.
#[local] Existing Instance example_host.

Lemma turn_replaces_the_placeholder_witness :
  truthy (trim (WorkspacePage.input (typed_page "hi"))) = true
  ∧ ∃ m : Message.t,
      WorkspacePage.messages
        (WorkspacePage.turn "w-1" (Fulfilled (ok_response example_chat_result))
           (typed_page "hi"))
      = WorkspacePage.messages (typed_page "hi")
        ++ [ WorkspacePage.user_message (trim (WorkspacePage.input (typed_page "hi"))); m ]
      ∧ Message.role m = assistant.
Proof.
  assert (Htext : truthy (trim (WorkspacePage.input (typed_page "hi"))) = true)
    by (vm_compute; reflexivity).
  split; [exact Htext|].
  destruct (turn_replaces_the_placeholder "w-1" (typed_page "hi")
              (Fulfilled (ok_response example_chat_result)) Htext)
    as (m & Hm & Hrole & _).
  exists m. split; [exact Hm|exact Hrole].
Defined.

End send_placeholder_examples.

(** ** The rest of [frontend/src/app/w/[workspaceId]/page.tsx]: selecting and deleting *)

(** [{ any, all }] of [selectionStats] *)
Module Stats.
Record t : Type := {
  any : bool;
  all : bool;
}.
End Stats.

Module Deleting.
Section deleting.
Context `{JsHost} `{WebHost}.

(** [useParams().workspaceId] *)
Variable workspaceId : string.

(** [collectDocIds]: the document ids below a node, in tree order; a
    file node without a document or with an empty id gives none. *)
Fixpoint collectDocIds (node : DocumentTreeNode) : list string :=
  match node with
  | TreeNode type _ _ children document =>
      match type with
      | file =>
          match document with
          | val d => if truthy (DocumentRef.id d) then [DocumentRef.id d] else []
          | undefined | null => []
          end
      | folder =>
          match children with
          | val cs =>
              (fix each (cs : list DocumentTreeNode) : list string :=
                 match cs with
                 | [] => []
                 | c :: rest => collectDocIds c ++ each rest
                 end) cs
          | undefined | null => []
          end
      end
  end.

(** [Boolean(selectedDocIds[id])] *)
Definition is_selected (selectedDocIds : gmap string bool) (id : string) : bool :=
  default false (selectedDocIds !! id).

Definition selectionStats (selectedDocIds : gmap string bool) (ids : list string) : Stats.t :=
  if bool_decide (length ids = 0) then {| Stats.any := false; Stats.all := false |}
  else {| Stats.any := existsb (is_selected selectedDocIds) ids;
          Stats.all := forallb (is_selected selectedDocIds) ids |}.

Definition toggleSelectedDoc (id : string) (checked : bool)
    (prev : gmap string bool) : gmap string bool :=
  let next := prev in
  if checked then <[ id := true ]> next else delete id next.

(** The updater of [toggleFolderSelection], for the ids and the [all] it
    computed before. *)
Definition folder_updater (ids : list string) (all : bool)
    (prev : gmap string bool) : gmap string bool :=
  foldl (λ next id, if all then delete id next else <[ id := true ]> next) prev ids.

Definition toggleFolderSelection (node : DocumentTreeNode)
    (selectedDocIds : gmap string bool) : gmap string bool :=
  let ids := collectDocIds node in
  let all := Stats.all (selectionStats selectedDocIds ids) in
  folder_updater ids all selectedDocIds.

(** The page with its delete mode, its selection and the alerts shown. *)
Record Ui : Type := {
  page : WorkspacePage.State;
  deleteMode : bool;
  selectedDocIds : gmap string bool;
  alerts : list string;
}.

Definition setPage (st : WorkspacePage.State) (ui : Ui) : Ui :=
  {| page := st; deleteMode := deleteMode ui;
     selectedDocIds := selectedDocIds ui; alerts := alerts ui |}.

Definition setDeleteMode (v : bool) (ui : Ui) : Ui :=
  {| page := page ui; deleteMode := v;
     selectedDocIds := selectedDocIds ui; alerts := alerts ui |}.

Definition setSelectedDocIds (f : gmap string bool → gmap string bool) (ui : Ui) : Ui :=
  {| page := page ui; deleteMode := deleteMode ui;
     selectedDocIds := f (selectedDocIds ui); alerts := alerts ui |}.

(** [alert(message)] *)
Definition alert (message : string) (ui : Ui) : Ui :=
  {| page := page ui; deleteMode := deleteMode ui;
     selectedDocIds := selectedDocIds ui; alerts := alerts ui ++ [message] |}.

Definition clearSelection (ui : Ui) : Ui := setSelectedDocIds (λ _, ∅) ui.

(** The click handler of the delete-mode button *)
Definition onDeleteModeClick (ui : Ui) : Ui :=
  if deleteMode ui then clearSelection (setDeleteMode false ui)
  else clearSelection (setDeleteMode true ui).

(** [disabled] of the delete-selected button *)
Definition delete_selected_disabled (ui : Ui) : bool :=
  bool_decide (length (map_to_list (selectedDocIds ui)).*1 = 0).

(** [refreshTree] on the page inside [ui] *)
Definition refreshTree (ui : Ui) : Async Ui :=
  bind (WorkspacePage.refreshTree workspaceId (page ui)) (λ st, Done (setPage st ui)).

Definition delete_failed (e : Thrown) : string :=
  "删除失败：" +:+ WorkspacePage.interpolate (WorkspacePage.errToString e).

Definition selected_prompt (count : nat) : string :=
  "确认删除选中的 " +:+ pretty count +:+ " 个文件？此操作将同时删除向量与 chunks。".

Definition file_prompt (title : string) : string :=
  "确认删除文件：" +:+ title +:+ "？".

Definition folder_prompt (prefix : string) : string :=
  "确认删除文件夹：" +:+ prefix +:+ "？将删除其下所有文件与索引。".

(** [confirm] is the answer the user gives to [window.confirm].
    [Object.keys(selectedDocIds)] is read off the map, so the ids come in
    the map's order and not in the order in which they were checked.
    [refreshTree] catches its own errors, so the [catch] of the three
    handlers only ever sees the error of the delete call. *)
Definition onDeleteSelected (confirm : string → bool) (ui : Ui) : Async Ui :=
  let ids := (map_to_list (selectedDocIds ui)).*1 in
  if bool_decide (length ids = 0) then Done ui else
  if negb (confirm (selected_prompt (length ids))) then Done ui else
  bind (settle (ApiMore.deleteMany workspaceId
                  {| DeleteManyPayload.document_ids := val ids;
                     DeleteManyPayload.prefixes := undefined |})) (λ r,
    match r with
    | Fulfilled _ =>
        let ui := clearSelection ui in
        let ui := setDeleteMode false ui in
        refreshTree ui
    | Rejected e => Done (alert (delete_failed e) ui)
    end).

Definition onDeleteFile (confirm : string → bool) (docId title : string) (ui : Ui)
  : Async Ui :=
  if negb (confirm (file_prompt title)) then Done ui else
  bind (settle (ApiMore.deleteDocument workspaceId docId)) (λ r,
    match r with
    | Fulfilled _ => refreshTree ui
    | Rejected e => Done (alert (delete_failed e) ui)
    end).

Definition onDeleteFolder (confirm : string → bool) (prefix : string) (ui : Ui)
  : Async Ui :=
  if negb (confirm (folder_prompt prefix)) then Done ui else
  bind (settle (ApiMore.deleteByPrefix workspaceId prefix)) (λ r,
    match r with
    | Fulfilled _ => refreshTree ui
    | Rejected e => Done (alert (delete_failed e) ui)
    end).

(** What the user does to the selection *)
Inductive SelectionEvent : Type :=
| DocToggled (id : string) (checked : bool)
| FolderToggled (node : DocumentTreeNode)
| DeleteModeClicked.

Definition select (ui : Ui) (ev : SelectionEvent) : Ui :=
  match ev with
  | DocToggled id checked => setSelectedDocIds (toggleSelectedDoc id checked) ui
  | FolderToggled node => setSelectedDocIds (toggleFolderSelection node) ui
  | DeleteModeClicked => onDeleteModeClick ui
  end.

Definition initial (st : WorkspacePage.State) : Ui :=
  {| page := st; deleteMode := false; selectedDocIds := ∅; alerts := [] |}.

End deleting.
End Deleting.

(** A host for the examples below: pairs are joined by [&] and [=]. *)
Definition example_web_host : WebHost :=
  {| URLSearchParams_toString :=
       λ qs, String.concat "&" ((λ p : string * string, p.1 +:+ "=" +:+ p.2) <$> qs);
     toLowerCase := λ s, s;
     includes := λ s q, bool_decide (q = "") || bool_decide (s = q) |}.

Section selection_facts.
Context `{JsHost} `{WebHost}.
Import Deleting.

Lemma folder_updater_lookup (ids : list string) (all : bool)
    (prev : gmap string bool) (id : string) :
  folder_updater ids all prev !! id =
  if decide (id ∈ ids) then (if all then None else Some true) else prev !! id.
Proof.
  unfold folder_updater. revert prev.
  induction ids as [|a ids IH]; intros prev; cbn [foldl].
  - rewrite decide_False; [done|]. apply not_elem_of_nil.
  - rewrite IH. destruct (decide (id ∈ ids)) as [Hin|Hnin].
    + rewrite decide_True; [done|]. by apply list_elem_of_further.
    + destruct (decide (id = a)) as [->|Hne].
      * rewrite decide_True by apply list_elem_of_here.
        destruct all; [by rewrite lookup_delete_eq|by rewrite lookup_insert_eq].
      * rewrite decide_False.
        -- destruct all; [by rewrite lookup_delete_ne|by rewrite lookup_insert_ne].
        -- intros [->|?]%elem_of_cons; [done|done].
Qed.

Lemma is_selected_folder_updater (ids : list string) (all : bool)
    (prev : gmap string bool) (id : string) :
  id ∈ ids → is_selected (folder_updater ids all prev) id = negb all.
Proof.
  intros Hin. unfold is_selected. rewrite folder_updater_lookup.
  rewrite decide_True by done. by destruct all.
Qed.

Lemma existsb_const_on {A} (f : A → bool) (b : bool) (l : list A) :
  l ≠ [] → (∀ x, x ∈ l → f x = b) → existsb f l = b ∧ forallb f l = b.
Proof.
  induction l as [|x l IH]; [done|]. intros _ Hall. simpl.
  rewrite (Hall x) by apply list_elem_of_here.
  destruct l as [|y l].
  - simpl. by destruct b.
  - destruct IH as [-> ->]; [done|intros z Hz; apply Hall; by apply list_elem_of_further|].
    by destruct b.
Qed.

Lemma forallb_existsb {A} (f : A → bool) (l : list A) :
  l ≠ [] → forallb f l = true → existsb f l = true.
Proof.
  destruct l as [|x l]; [done|]. simpl. intros _ [-> _]%andb_true_iff. done.
Qed.

(** The selection after any clicks holds [true] only. *)
Lemma select_only_true (ui : Ui) (ev : SelectionEvent) :
  (∀ id b, selectedDocIds ui !! id = Some b → b = true) →
  ∀ id b, selectedDocIds (select ui ev) !! id = Some b → b = true.
Proof.
  intros Hinv id b. destruct ev as [d checked|node|]; simpl.
  - unfold toggleSelectedDoc. destruct checked.
    + destruct (decide (d = id)) as [->|Hne].
      * rewrite lookup_insert_eq. congruence.
      * rewrite lookup_insert_ne by done. apply Hinv.
    + destruct (decide (d = id)) as [->|Hne].
      * by rewrite lookup_delete_eq.
      * rewrite lookup_delete_ne by done. apply Hinv.
  - unfold toggleFolderSelection. rewrite folder_updater_lookup.
    case_decide.
    + destruct (Stats.all _); congruence.
    + apply Hinv.
  - unfold onDeleteModeClick. destruct (deleteMode ui); simpl; by rewrite lookup_empty.
Qed.

End selection_facts.

(** X4. Clicking a folder's checkbox selects every document below the
    folder, or, when all of them were selected already, unselects every one
    of them; documents outside the folder keep their state. Afterwards the
    folder is never half selected ([any] and [all] agree); on a folder with
    no documents the click changes nothing and the folder counts as not
    selected. Whenever [all] holds so does [any]. *)
Theorem toggleFolderSelection_all_or_none `{JsHost}
    (node : DocumentTreeNode) (selectedDocIds : gmap string bool) :
  let ids := Deleting.collectDocIds node in
  let before := Deleting.selectionStats selectedDocIds ids in
  let after := Deleting.toggleFolderSelection node selectedDocIds in
  (∀ id, id ∈ ids →
     after !! id = if Stats.all before then None else Some true)
  ∧ (∀ id, id ∉ ids → after !! id = selectedDocIds !! id)
  ∧ Deleting.selectionStats after ids
    = (if bool_decide (ids = []) then {| Stats.any := false; Stats.all := false |}
       else {| Stats.any := negb (Stats.all before);
               Stats.all := negb (Stats.all before) |})
  ∧ (if bool_decide (ids = []) then after = selectedDocIds else True)
  ∧ (if Stats.all before then Stats.any before = true else True).
Proof.
  intros ids before after. unfold after, Deleting.toggleFolderSelection. fold ids.
  fold before. split; [|split; [|split; [|split]]].
  - intros id Hin. rewrite folder_updater_lookup. by rewrite decide_True.
  - intros id Hin. rewrite folder_updater_lookup. by rewrite decide_False.
  - unfold Deleting.selectionStats at 1. case_bool_decide as Hlen.
    + apply nil_length_inv in Hlen. by rewrite bool_decide_eq_true_2.
    + assert (ids ≠ []) as Hne by (intros Heq; by rewrite Heq in Hlen).
      rewrite bool_decide_eq_false_2 by done.
      destruct (existsb_const_on
                  (Deleting.is_selected
                     (Deleting.folder_updater ids (Stats.all before) selectedDocIds))
                  (negb (Stats.all before)) ids Hne) as [-> ->]; [|done].
      intros id Hin. by apply is_selected_folder_updater.
  - case_bool_decide as Hnil; [|done]. by rewrite Hnil.
  - destruct (Stats.all before) eqn:Hall; [|done].
    unfold before, Deleting.selectionStats in *.
    case_bool_decide as Hlen; [done|]. simpl in *.
    apply forallb_existsb; [|done]. intros Heq. by rewrite Heq in Hlen.
Qed.

(** X5. However the user clicks document checkboxes, folder checkboxes and
    the delete-mode button, the selection map holds only [true]: a
    document is shown as checked exactly when its id is a key of the map,
    so the keys (the ids sent by the bulk delete, and their count in the
    prompt) are the checked documents. The clicks touch neither the page
    nor the alerts, and the delete-selected button is disabled exactly
    when nothing is checked. A click on the delete-mode button switches
    the mode and empties the selection. *)
Theorem selection_keys_are_the_checked `{JsHost}
    (st : WorkspacePage.State) (evs : list Deleting.SelectionEvent) :
  let ui := foldl Deleting.select (Deleting.initial st) evs in
  (∀ id, id ∈ (map_to_list (Deleting.selectedDocIds ui)).*1 ↔
         Deleting.is_selected (Deleting.selectedDocIds ui) id = true)
  ∧ Deleting.page ui = st
  ∧ Deleting.alerts ui = []
  ∧ (Deleting.delete_selected_disabled ui = true ↔
     ∀ id, Deleting.is_selected (Deleting.selectedDocIds ui) id = false)
  ∧ Deleting.selectedDocIds (Deleting.select ui Deleting.DeleteModeClicked) = ∅
  ∧ Deleting.deleteMode (Deleting.select ui Deleting.DeleteModeClicked)
    = negb (Deleting.deleteMode ui).
Proof.
  intros ui.
  assert (Hinv : (∀ id b, Deleting.selectedDocIds ui !! id = Some b → b = true)
                 ∧ Deleting.page ui = st ∧ Deleting.alerts ui = []).
  { unfold ui. induction evs as [|ev evs IH] using rev_ind.
    - simpl. split; [|done]. intros id b. by rewrite lookup_empty.
    - rewrite foldl_app. simpl. destruct IH as (IH1 & IH2 & IH3).
      split; [by apply select_only_true|].
      destruct ev as [d c|node|]; simpl; [done|done|].
      unfold Deleting.onDeleteModeClick.
      by destruct (Deleting.deleteMode _). }
  destruct Hinv as (Hinv & Hpage & Halerts).
  assert (Hkeys : ∀ id, id ∈ (map_to_list (Deleting.selectedDocIds ui)).*1 ↔
            Deleting.is_selected (Deleting.selectedDocIds ui) id = true).
  { intros id. unfold Deleting.is_selected. rewrite list_elem_of_fmap. split.
    - intros ([k b] & -> & Hin). apply elem_of_map_to_list in Hin. simpl.
      rewrite Hin. simpl. by eapply Hinv.
    - destruct (Deleting.selectedDocIds ui !! id) as [b|] eqn:Hl; [|done].
      simpl. intros ->. exists (id, true). split; [done|].
      by apply elem_of_map_to_list. }
  split; [exact Hkeys|]. split; [done|]. split; [done|].
  split; [|cbn; unfold Deleting.onDeleteModeClick;
           by destruct (Deleting.deleteMode ui)].
  unfold Deleting.delete_selected_disabled. rewrite bool_decide_eq_true. split.
  - intros Hlen%nil_length_inv id.
    destruct (Deleting.is_selected (Deleting.selectedDocIds ui) id) eqn:Hs; [|done].
    apply Hkeys in Hs. rewrite Hlen in Hs. by apply elem_of_nil in Hs.
  - intros Hnone.
    destruct ((map_to_list (Deleting.selectedDocIds ui)).*1) as [|id l] eqn:Hl; [done|].
    pose proof (proj1 (Hkeys id) (list_elem_of_here _ _)) as Hin.
    by rewrite Hnone in Hin.
Qed.

(** ** Deleting documents *)

Section delete_facts.
Context `{JsHost} `{WebHost}.
Import Deleting.

Lemma Exec_ui_refreshTree workspaceId (ui : Ui) tr res :
  Exec (refreshTree workspaceId ui) tr res ↔
  ∃ r_tree,
    tr = [ {| ex_type := DocumentTreeNode;
              ex_call := Api.tree_call workspaceId;
              ex_outcome := r_tree |} ]
    ∧ res = Fulfilled
              (setPage (WorkspacePage.refreshed (Api.received r_tree) (page ui)) ui).
Proof.
  unfold refreshTree. rewrite Exec_bind. split.
  - intros [(tr1 & tr2 & st & -> & (r_tree & -> & [= ->])%Exec_refreshTree & [-> ->])
           |(e & (r_tree & _ & [=])%Exec_refreshTree & _)].
    by exists r_tree.
  - intros (r_tree & -> & ->). left. eexists [_], [], _.
    split; [done|]. split; [|done]. apply Exec_refreshTree. by exists r_tree.
Qed.

(** A delete call followed by what the three handlers do with its outcome. *)
Lemma Exec_delete_then_refresh workspaceId (m : Async DeleteManyResponse.t)
    (call : FetchCall) (ui_ok ui : Ui) tr res :
  (∀ tr' res', Exec m tr' res' ↔
     ∃ r, tr' = [ {| ex_type := DeleteManyResponse.t; ex_call := call;
                     ex_outcome := r |} ]
          ∧ res' = Api.received r) →
  Exec (bind (settle m) (λ r,
          match r with
          | Fulfilled _ => refreshTree workspaceId ui_ok
          | Rejected e => Done (alert (delete_failed e) ui)
          end)) tr res ↔
  ∃ r : settled (Response DeleteManyResponse.t),
    let sent := {| ex_type := DeleteManyResponse.t; ex_call := call;
                   ex_outcome := r |} in
    match Api.received r with
    | Fulfilled _ =>
        ∃ r_tree,
          tr = [ sent; {| ex_type := DocumentTreeNode;
                          ex_call := Api.tree_call workspaceId;
                          ex_outcome := r_tree |} ]
          ∧ res = Fulfilled
                    (setPage (WorkspacePage.refreshed (Api.received r_tree)
                                (page ui_ok)) ui_ok)
    | Rejected e => tr = [sent] ∧ res = Fulfilled (alert (delete_failed e) ui)
    end.
Proof.
  intros Hm. rewrite Exec_bind_settle. split.
  - intros (tr1 & tr2 & r0 & -> & (r & -> & ->)%Hm & Hk). exists r. cbv zeta.
    destruct (Api.received r) as [v|e].
    + apply Exec_ui_refreshTree in Hk as (r_tree & -> & ->). by exists r_tree.
    + by destruct Hk as [-> ->].
  - intros (r & Hr). cbv zeta in Hr.
    destruct (Api.received r) as [v|e] eqn:Hrec.
    + destruct Hr as (r_tree & -> & ->). eexists [_], [_], (Fulfilled v).
      split; [done|]. split; [apply Hm; exists r; by rewrite Hrec|].
      apply Exec_ui_refreshTree. by exists r_tree.
    + destruct Hr as [-> ->]. eexists [_], [], (Rejected e).
      split; [done|]. split; [apply Hm; exists r; by rewrite Hrec|done].
Qed.

End delete_facts.

(** X6. [onDeleteSelected] does nothing at all (no prompt, no request, no
    change) when no document is selected, and nothing when the user
    declines the prompt, which names the number of selected documents.
    Otherwise it makes one POST to
    [/workspaces/{workspace_id}/documents/delete_many] whose body is the
    JSON of the selected ids. When that succeeds the selection is emptied,
    delete mode is left and the tree is fetched again; when it fails the
    selection and the mode stay, no tree is fetched and one alert
    [删除失败：] with the error text is shown. *)
Theorem onDeleteSelected_runs `{JsHost} `{WebHost}
    (workspaceId : string) (confirm : string → bool) (ui : Deleting.Ui)
    (tr : list Exchange) (res : settled Deleting.Ui) :
  let ids := (map_to_list (Deleting.selectedDocIds ui)).*1 in
  Exec (Deleting.onDeleteSelected workspaceId confirm ui) tr res ↔
  if bool_decide (length ids = 0) then tr = [] ∧ res = Fulfilled ui
  else if negb (confirm ("确认删除选中的 " +:+ pretty (length ids)
                          +:+ " 个文件？此操作将同时删除向量与 chunks。"))
  then tr = [] ∧ res = Fulfilled ui
  else
    ∃ r : settled (Response DeleteManyResponse.t),
      let sent :=
        {| ex_type := DeleteManyResponse.t;
           ex_call :=
             {| url := Api.apiBaseUrl +:+ "/workspaces/" +:+ workspaceId
                       +:+ "/documents/delete_many";
                init := {| method := Some "POST";
                           headers := Some {[ "Content-Type" := "application/json" ]};
                           body := Some (TextBody (JSON_stringify
                                     {| DeleteManyPayload.document_ids := val ids;
                                        DeleteManyPayload.prefixes := undefined |})) |} |};
           ex_outcome := r |} in
      match Api.received r with
      | Fulfilled _ =>
          ∃ r_tree,
            tr = [ sent; {| ex_type := DocumentTreeNode;
                            ex_call := Api.tree_call workspaceId;
                            ex_outcome := r_tree |} ]
            ∧ res = Fulfilled
                      {| Deleting.page :=
                           WorkspacePage.refreshed (Api.received r_tree) (Deleting.page ui);
                         Deleting.deleteMode := false;
                         Deleting.selectedDocIds := ∅;
                         Deleting.alerts := Deleting.alerts ui |}
      | Rejected e =>
          tr = [sent]
          ∧ res = Fulfilled
                    {| Deleting.page := Deleting.page ui;
                       Deleting.deleteMode := Deleting.deleteMode ui;
                       Deleting.selectedDocIds := Deleting.selectedDocIds ui;
                       Deleting.alerts :=
                         Deleting.alerts ui
                         ++ [ "删除失败：" +:+
                              WorkspacePage.interpolate (WorkspacePage.errToString e) ] |}
      end.
Proof.
  intros ids. unfold Deleting.onDeleteSelected. fold ids.
  case_bool_decide as Hlen; [done|].
  change (Deleting.selected_prompt (length ids)) with
    ("确认删除选中的 " +:+ pretty (length ids)
     +:+ " 个文件？此操作将同时删除向量与 chunks。").
  destruct (negb (confirm _)); [done|].
  rewrite Exec_delete_then_refresh; [done|].
  intros tr' res'. unfold ApiMore.deleteMany. by rewrite Exec_post_json.
Qed.

(** X7. [onDeleteFile] sends nothing and changes nothing when the user
    declines the prompt naming the file. Otherwise it makes one DELETE to
    [/workspaces/{workspace_id}/documents/{document_id}]; on success the
    tree is fetched again, on failure it is not and one alert [删除失败：]
    with the error text is shown. Selection and delete mode are never
    touched. *)
Theorem onDeleteFile_runs `{JsHost} `{WebHost}
    (workspaceId : string) (confirm : string → bool) (docId title : string)
    (ui : Deleting.Ui) (tr : list Exchange) (res : settled Deleting.Ui) :
  Exec (Deleting.onDeleteFile workspaceId confirm docId title ui) tr res ↔
  if negb (confirm ("确认删除文件：" +:+ title +:+ "？"))
  then tr = [] ∧ res = Fulfilled ui
  else
    ∃ r : settled (Response DeleteManyResponse.t),
      let sent :=
        {| ex_type := DeleteManyResponse.t;
           ex_call :=
             {| url := Api.apiBaseUrl +:+ "/workspaces/" +:+ workspaceId
                       +:+ "/documents/" +:+ docId;
                init := {| method := Some "DELETE"; headers := Some ∅;
                           body := None |} |};
           ex_outcome := r |} in
      match Api.received r with
      | Fulfilled _ =>
          ∃ r_tree,
            tr = [ sent; {| ex_type := DocumentTreeNode;
                            ex_call := Api.tree_call workspaceId;
                            ex_outcome := r_tree |} ]
            ∧ res = Fulfilled
                      {| Deleting.page :=
                           WorkspacePage.refreshed (Api.received r_tree) (Deleting.page ui);
                         Deleting.deleteMode := Deleting.deleteMode ui;
                         Deleting.selectedDocIds := Deleting.selectedDocIds ui;
                         Deleting.alerts := Deleting.alerts ui |}
      | Rejected e =>
          tr = [sent]
          ∧ res = Fulfilled
                    {| Deleting.page := Deleting.page ui;
                       Deleting.deleteMode := Deleting.deleteMode ui;
                       Deleting.selectedDocIds := Deleting.selectedDocIds ui;
                       Deleting.alerts :=
                         Deleting.alerts ui
                         ++ [ "删除失败：" +:+
                              WorkspacePage.interpolate (WorkspacePage.errToString e) ] |}
      end.
Proof.
  unfold Deleting.onDeleteFile.
  change (Deleting.file_prompt title) with ("确认删除文件：" +:+ title +:+ "？").
  destruct (negb (confirm _)); [done|].
  rewrite Exec_delete_then_refresh; [done|].
  intros tr' res'. unfold ApiMore.deleteDocument. by rewrite Exec_delete.
Qed.

(** X8. [onDeleteFolder] sends nothing and changes nothing when the user
    declines the prompt naming the folder. Otherwise it makes one DELETE
    to [/workspaces/{workspace_id}/documents/by_prefix?] followed by the
    query string of the single pair [prefix]; on success the tree is
    fetched again, on failure it is not and one alert [删除失败：] with the
    error text is shown. *)
Theorem onDeleteFolder_runs `{JsHost} `{WebHost}
    (workspaceId : string) (confirm : string → bool) (prefix : string)
    (ui : Deleting.Ui) (tr : list Exchange) (res : settled Deleting.Ui) :
  Exec (Deleting.onDeleteFolder workspaceId confirm prefix ui) tr res ↔
  if negb (confirm ("确认删除文件夹：" +:+ prefix +:+ "？将删除其下所有文件与索引。"))
  then tr = [] ∧ res = Fulfilled ui
  else
    ∃ r : settled (Response DeleteManyResponse.t),
      let sent :=
        {| ex_type := DeleteManyResponse.t;
           ex_call :=
             {| url := Api.apiBaseUrl +:+ "/workspaces/" +:+ workspaceId
                       +:+ "/documents/by_prefix?"
                       +:+ URLSearchParams_toString [("prefix", prefix)];
                init := {| method := Some "DELETE"; headers := Some ∅;
                           body := None |} |};
           ex_outcome := r |} in
      match Api.received r with
      | Fulfilled _ =>
          ∃ r_tree,
            tr = [ sent; {| ex_type := DocumentTreeNode;
                            ex_call := Api.tree_call workspaceId;
                            ex_outcome := r_tree |} ]
            ∧ res = Fulfilled
                      {| Deleting.page :=
                           WorkspacePage.refreshed (Api.received r_tree) (Deleting.page ui);
                         Deleting.deleteMode := Deleting.deleteMode ui;
                         Deleting.selectedDocIds := Deleting.selectedDocIds ui;
                         Deleting.alerts := Deleting.alerts ui |}
      | Rejected e =>
          tr = [sent]
          ∧ res = Fulfilled
                    {| Deleting.page := Deleting.page ui;
                       Deleting.deleteMode := Deleting.deleteMode ui;
                       Deleting.selectedDocIds := Deleting.selectedDocIds ui;
                       Deleting.alerts :=
                         Deleting.alerts ui
                         ++ [ "删除失败：" +:+
                              WorkspacePage.interpolate (WorkspacePage.errToString e) ] |}
      end.
Proof.
  unfold Deleting.onDeleteFolder.
  change (Deleting.folder_prompt prefix)
    with ("确认删除文件夹：" +:+ prefix +:+ "？将删除其下所有文件与索引。").
  destruct (negb (confirm _)); [done|].
  rewrite Exec_delete_then_refresh; [done|].
  intros tr' res'. unfold ApiMore.deleteByPrefix. by rewrite Exec_delete.
Qed.

(** ** The history of a conversation *)

Module History.
Section history.
Context `{JsHost} `{WebHost}.

(** The page with the flag of the load-more button and what was written
    to the console. *)
Record Chat : Type := {
  page : WorkspacePage.State;
  historyLoading : bool;
  console : list (string * Thrown);
}.

Definition setPage (f : WorkspacePage.State → WorkspacePage.State) (c : Chat) : Chat :=
  {| page := f (page c); historyLoading := historyLoading c; console := console c |}.

Definition setHistoryLoading (v : bool) (c : Chat) : Chat :=
  {| page := page c; historyLoading := v; console := console c |}.

(** [console.warn(label, e)] *)
Definition console_warn (label : string) (e : Thrown) (c : Chat) : Chat :=
  {| page := page c; historyLoading := historyLoading c;
     console := console c ++ [(label, e)] |}.

Definition initial (st : WorkspacePage.State) : Chat :=
  {| page := st; historyLoading := false; console := [] |}.

(** [m.role === "user" || m.role === "assistant"] *)
Definition is_chat_role (m : MessageItem.t) : bool :=
  bool_decide (MessageItem.role m = "user")
  || bool_decide (MessageItem.role m = "assistant").

(** [m.role as "user" | "assistant"], on an item that passed the filter *)
Definition as_role (s : string) : Role :=
  if decide (s = "user") then user else assistant.

(** [x || undefined] on an array that may be missing *)
Definition or_undefined {A} (x : maybe (list A)) : maybe (list A) :=
  match x with
  | val l => val l
  | undefined | null => undefined
  end.

Definition mapped (items : list MessageItem.t) : list Message.t :=
  (λ m, {| Message.role := as_role (MessageItem.role m);
           Message.content := MessageItem.content m;
           Message.refs := or_undefined (MessageItem.refs m) |})
  <$> filter (λ m, is_chat_role m = true) items.

(** [x ?? null] stored in a [string | null] state *)
Definition to_state (x : maybe string) : option string :=
  match or_null x with
  | val s => Some s
  | undefined | null => None
  end.

(** [opts] is [None] for a call without argument, else its [before]. *)
Definition loadHistory (opts : option (maybe string)) (c : Chat) : Async Chat :=
  match WorkspacePage.conversationId (page c) with
  | None => Done c
  | Some conversationId =>
      if negb (truthy conversationId) then Done c else
      let c := setHistoryLoading true c in
      bind (settle (ApiMore.listConversationMessages conversationId
                      (Some {| HistoryOpts.limit := Some 50%N;
                               HistoryOpts.before :=
                                 or_null (from_option id undefined opts) |})))
        (λ r,
          let c :=
            match r with
            | Fulfilled resp =>
                let mapped := mapped (MessageListResponse.items resp) in
                let c := setPage (WorkspacePage.setMessages (λ prev,
                           if maybe_truthy (from_option id undefined opts)
                           then mapped ++ prev else mapped)) c in
                setPage (WorkspacePage.setHistoryNextBefore
                           (to_state (MessageListResponse.next_before resp))) c
            | Rejected e => console_warn "load_history_failed" e c
            end in
          Done (setHistoryLoading false c))
  end.

(** The effect that runs when [conversationId] has changed *)
Definition onConversationChange (c : Chat) : Async Chat :=
  match WorkspacePage.conversationId (page c) with
  | None => Done (setPage (WorkspacePage.setHistoryNextBefore None) c)
  | Some conversationId =>
      if negb (truthy conversationId)
      then Done (setPage (WorkspacePage.setHistoryNextBefore None) c)
      else loadHistory None c
  end.

(** The load-more button is shown when there are messages and a cursor;
    its click asks for the page before the cursor. *)
Definition load_more_shown (c : Chat) : bool :=
  negb (bool_decide (length (WorkspacePage.messages (page c)) = 0))
  && from_option truthy false (WorkspacePage.historyNextBefore (page c)).

Definition onLoadMoreClick (c : Chat) : Async Chat :=
  loadHistory (Some (from_option val null (WorkspacePage.historyNextBefore (page c)))) c.

End history.
End History.

Section history_facts.
Context `{JsHost} `{WebHost}.
Import History.

Lemma pretty_50 : pretty 50%N = "50".
Proof. reflexivity. Qed.

(** The query string that [listConversationMessages] builds. *)
Lemma Exec_listConversationMessages conversationId (opts : option HistoryOpts.t) tr res :
  Exec (ApiMore.listConversationMessages conversationId opts) tr res ↔
  ∃ r,
    tr = [ {| ex_type := MessageListResponse.t;
              ex_call := ApiMore.get_call
                ("/conversations/" +:+ conversationId +:+ "/messages?" +:+
                 URLSearchParams_toString
                   (("limit", pretty (default 50%N (opts ≫= HistoryOpts.limit)))
                    :: match opts ≫= (λ o, match HistoryOpts.before o with
                                           | val b => Some b
                                           | undefined | null => None
                                           end) with
                       | Some b => if truthy b then [("before", b)] else []
                       | None => []
                       end));
              ex_outcome := r |} ]
    ∧ res = Api.received r.
Proof.
  unfold ApiMore.listConversationMessages. rewrite Exec_get.
  assert (∀ a b : string, a = b →
    ApiMore.get_call ("/conversations/" +:+ conversationId +:+ "/messages?" +:+ a)
    = ApiMore.get_call ("/conversations/" +:+ conversationId +:+ "/messages?" +:+ b))
    as Heq by (by intros ?? ->).
  erewrite Heq; [reflexivity|]. f_equal.
  destruct opts as [[l [| |b]]|]; cbn; try done.
  destruct (truthy b); done.
Qed.

End history_facts.

Section history_run.
Context `{JsHost} `{WebHost}.

(** The cursor that a call of [loadHistory] puts in its request *)
Definition cursor_of (opts : option (maybe string)) : option string :=
  match opts with
  | Some (val b) => if truthy b then Some b else None
  | _ => None
  end.

(** The GET of one page of history *)
Definition history_exchange (conversationId : string) (before : option string)
    (r : settled (Response MessageListResponse.t)) : Exchange :=
  {| ex_type := MessageListResponse.t;
     ex_call :=
       {| url := Api.apiBaseUrl +:+ "/conversations/" +:+ conversationId
                 +:+ "/messages?" +:+
                 URLSearchParams_toString
                   (("limit", "50")
                    :: match before with
                       | Some b => [("before", b)]
                       | None => []
                       end);
          init := {| method := None; headers := Some ∅; body := None |} |};
     ex_outcome := r |}.

(** What [loadHistory] does once its request has settled with [r0] *)
Definition history_loaded (opts : option (maybe string))
    (r0 : settled MessageListResponse.t) (c : History.Chat) : History.Chat :=
  History.setHistoryLoading false
    match r0 with
    | Fulfilled resp =>
        History.setPage
          (WorkspacePage.setHistoryNextBefore
             (History.to_state (MessageListResponse.next_before resp)))
          (History.setPage
             (WorkspacePage.setMessages (λ prev,
                if maybe_truthy (from_option id undefined opts)
                then History.mapped (MessageListResponse.items resp) ++ prev
                else History.mapped (MessageListResponse.items resp)))
             (History.setHistoryLoading true c))
    | Rejected e =>
        History.console_warn "load_history_failed" e (History.setHistoryLoading true c)
    end.

Lemma Exec_loadHistory (opts : option (maybe string)) (c : History.Chat)
    (conversationId : string) tr res :
  WorkspacePage.conversationId (History.page c) = Some conversationId →
  conversationId ≠ "" →
  Exec (History.loadHistory opts c) tr res ↔
  ∃ r, tr = [history_exchange conversationId (cursor_of opts) r]
       ∧ res = Fulfilled (history_loaded opts (Api.received r) c).
Proof.
  intros Hconv Hne. unfold History.loadHistory. rewrite Hconv.
  unfold truthy at 1. destruct (decide (conversationId = "")); [done|]. cbn [negb].
  rewrite Exec_bind_settle.
  setoid_rewrite Exec_listConversationMessages.
  assert (match (Some {| HistoryOpts.limit := Some 50%N;
                         HistoryOpts.before := or_null (from_option id undefined opts) |})
                ≫= (λ o, match HistoryOpts.before o with
                         | val b => Some b
                         | undefined | null => None
                         end) with
          | Some b => if truthy b then [("before", b)] else []
          | None => []
          end
          = match cursor_of opts with Some b => [("before", b)] | None => [] end) as Hq.
  { destruct opts as [[| |b]|]; cbn; try done. by destruct (truthy b). }
  cbn [mbind option_bind HistoryOpts.limit default from_option] in *.
  rewrite Hq. clear Hq. change (pretty (id 50%N)) with "50".
  split.
  - intros (tr1 & tr2 & r0 & -> & (r & -> & ->) & [-> ->]). by exists r.
  - intros (r & -> & ->). eexists [_], [], (Api.received r).
    split; [done|]. split; [by exists r|done].
Qed.

(** The state after a page has loaded, field by field. *)
Lemma history_loaded_fields (opts : option (maybe string))
    (r0 : settled MessageListResponse.t) (c : History.Chat) :
  history_loaded opts r0 c
  = match r0 with
    | Fulfilled resp =>
        let shown :=
          History.mapped (MessageListResponse.items resp)
          ++ match cursor_of opts with
             | Some _ => WorkspacePage.messages (History.page c)
             | None => []
             end in
        {| History.page :=
             WorkspacePage.setHistoryNextBefore
               (match MessageListResponse.next_before resp with
                | val s => Some s
                | undefined | null => None
                end)
               (WorkspacePage.setMessages (λ _, shown) (History.page c));
           History.historyLoading := false;
           History.console := History.console c |}
    | Rejected e =>
        {| History.page := History.page c;
           History.historyLoading := false;
           History.console := History.console c ++ [("load_history_failed", e)] |}
    end.
Proof.
  destruct r0 as [resp|e]; [|done]. unfold history_loaded.
  destruct (MessageListResponse.next_before resp), opts as [[| |b]|];
    cbn; rewrite ?app_nil_r; try done.
  all: destruct (truthy b); cbn; by rewrite ?app_nil_r.
Qed.

Lemma mapped_app (l1 l2 : list MessageItem.t) :
  History.mapped (l1 ++ l2) = History.mapped l1 ++ History.mapped l2.
Proof. unfold History.mapped. by rewrite filter_app, fmap_app. Qed.

End history_run.

(** X9. [loadHistory] sends nothing and changes nothing while there is no
    conversation. Otherwise it makes one GET to
    [/conversations/{id}/messages?] with [limit=50], and [before] only when
    a non-empty cursor was passed. On success the items whose role is
    [user] or [assistant] are kept in the server's order; they replace the
    messages shown when no cursor was passed and are put in front of them
    when one was, and the cursor becomes [next_before] or none. On failure
    messages and cursor stay and one warning is written. In both cases
    [historyLoading] ends false. *)
Theorem loadHistory_runs `{JsHost} `{WebHost}
    (opts : option (maybe string)) (c : History.Chat)
    (tr : list Exchange) (res : settled History.Chat) :
  let before := match opts with
                | Some (val b) => if truthy b then Some b else None
                | _ => None
                end in
  Exec (History.loadHistory opts c) tr res ↔
  match WorkspacePage.conversationId (History.page c) with
  | None => tr = [] ∧ res = Fulfilled c
  | Some conversationId =>
      if decide (conversationId = "") then tr = [] ∧ res = Fulfilled c else
      ∃ r : settled (Response MessageListResponse.t),
        tr = [ {| ex_type := MessageListResponse.t;
                  ex_call :=
                    {| url := Api.apiBaseUrl +:+ "/conversations/" +:+ conversationId
                              +:+ "/messages?" +:+
                              URLSearchParams_toString
                                (("limit", "50")
                                 :: match before with
                                    | Some b => [("before", b)]
                                    | None => []
                                    end);
                       init := {| method := None; headers := Some ∅; body := None |} |};
                  ex_outcome := r |} ]
        ∧ res = Fulfilled
            match Api.received r with
            | Fulfilled resp =>
                let shown :=
                  History.mapped (MessageListResponse.items resp)
                  ++ match before with
                     | Some _ => WorkspacePage.messages (History.page c)
                     | None => []
                     end in
                {| History.page :=
                     WorkspacePage.setHistoryNextBefore
                       (match MessageListResponse.next_before resp with
                        | val s => Some s
                        | undefined | null => None
                        end)
                       (WorkspacePage.setMessages (λ _, shown) (History.page c));
                   History.historyLoading := false;
                   History.console := History.console c |}
            | Rejected e =>
                {| History.page := History.page c;
                   History.historyLoading := false;
                   History.console :=
                     History.console c ++ [("load_history_failed", e)] |}
            end
  end.
Proof.
  intros before.
  destruct (WorkspacePage.conversationId (History.page c)) as [conv|] eqn:Hconv;
    [|unfold History.loadHistory; by rewrite Hconv].
  destruct (decide (conv = "")) as [->|Hne];
    [unfold History.loadHistory; by rewrite Hconv|].
  rewrite (Exec_loadHistory opts c conv tr res Hconv Hne).
  split; intros (r & -> & ->); exists r; (split; [done|]); f_equal.
  - apply history_loaded_fields.
  - symmetry. apply history_loaded_fields.
Qed.




(** X10. Paging composes. When the first page of a conversation has
    loaded and named a non-empty cursor, a click on load-more asks for
    the page before that cursor; if it loads, the messages shown are the
    chat messages of the older page followed by those of the first page,
    and the cursor is the older page's; if it fails, the first page and
    its cursor stay as they were. The load-more button is offered after
    the first page exactly when that page has a chat message. *)
Theorem history_pages_compose `{JsHost} `{WebHost}
    (c : History.Chat) (conversationId b : string)
    (r1 : settled (Response MessageListResponse.t)) (resp1 : MessageListResponse.t) :
  WorkspacePage.conversationId (History.page c) = Some conversationId →
  conversationId ≠ "" →
  Api.received r1 = Fulfilled resp1 →
  MessageListResponse.next_before resp1 = val b →
  b ≠ "" →
  ∃ c1,
    Exec (History.onConversationChange c)
      [history_exchange conversationId None r1] (Fulfilled c1)
    ∧ WorkspacePage.messages (History.page c1)
      = History.mapped (MessageListResponse.items resp1)
    ∧ History.load_more_shown c1
      = negb (bool_decide (History.mapped (MessageListResponse.items resp1) = []))
    ∧ ∀ r2 : settled (Response MessageListResponse.t), ∃ c2,
        Exec (History.onLoadMoreClick c1)
          [history_exchange conversationId (Some b) r2] (Fulfilled c2)
        ∧ History.historyLoading c2 = false
        ∧ match Api.received r2 with
          | Fulfilled resp2 =>
              WorkspacePage.messages (History.page c2)
              = History.mapped (MessageListResponse.items resp2
                                ++ MessageListResponse.items resp1)
              ∧ WorkspacePage.historyNextBefore (History.page c2)
                = match MessageListResponse.next_before resp2 with
                  | val s => Some s
                  | undefined | null => None
                  end
          | Rejected e =>
              WorkspacePage.messages (History.page c2)
              = History.mapped (MessageListResponse.items resp1)
              ∧ WorkspacePage.historyNextBefore (History.page c2) = Some b
              ∧ History.console c2 = History.console c ++ [("load_history_failed", e)]
          end.
Proof.
  intros Hconv Hne Hr1 Hnext Hb.
  assert (Hb' : truthy b = true) by (unfold truthy; by destruct (decide (b = ""))).
  eexists. split.
  { unfold History.onConversationChange. rewrite Hconv.
    unfold truthy. destruct (decide (conversationId = "")); [done|]. cbn [negb].
    apply (Exec_loadHistory None _ conversationId); [done..|].
    exists r1. split; reflexivity. }
  rewrite Hr1, history_loaded_fields. cbn. rewrite app_nil_r, Hnext.
  split; [done|]. split.
  { unfold History.load_more_shown; cbn. rewrite Hb', andb_true_r. f_equal.
    apply bool_decide_ext. by rewrite length_zero_iff_nil. }
  intros r2. eexists. split.
  { unfold History.onLoadMoreClick.
    apply (Exec_loadHistory _ _ conversationId); [done..|].
    exists r2. cbn. rewrite Hb'. split; reflexivity. }
  rewrite history_loaded_fields. cbn. rewrite Hb'.
  destruct (Api.received r2) as [resp2|e]; cbn; [|done].
  by rewrite mapped_app.
Qed.

(** X11. After a click on the new-conversation button the history effect
    asks the server for nothing: the message list is empty, no cursor is
    left and the load-more button is not offered, whatever was shown
    before. *)
Theorem new_conversation_loads_no_history `{JsHost} `{WebHost}
    (workspaceId : string) (c : History.Chat)
    (tr : list Exchange) (res : settled History.Chat) :
  let c' := History.setPage (WorkspacePage.onNewConversation workspaceId) c in
  (Exec (History.onConversationChange c') tr res ↔ tr = [] ∧ res = Fulfilled c')
  ∧ WorkspacePage.messages (History.page c') = []
  ∧ WorkspacePage.historyNextBefore (History.page c') = None
  ∧ History.load_more_shown c' = false
  ∧ (∀ opts, Exec (History.loadHistory opts c') tr res ↔ tr = [] ∧ res = Fulfilled c').
Proof.
  intros c'. split; [|do 3 (split; [done|])].
  - unfold History.onConversationChange. cbn. by destruct c as [[] ? ?].
  - intros opts. by unfold History.loadHistory.
Qed.

Section history_examples.
#[local] Existing Instance example_host.
#[local] Existing Instance example_web_host.

(** A page of three stored messages, one of them a system message, with
    a cursor to older ones. *)
Definition example_history : MessageListResponse.t :=
  {| MessageListResponse.items :=
       [ {| MessageItem.id := "m-2"; MessageItem.conversation_id := "c-1";
            MessageItem.role := "user"; MessageItem.content := "q";
            MessageItem.refs := undefined; MessageItem.created_at := "t2" |};
         {| MessageItem.id := "m-3"; MessageItem.conversation_id := "c-1";
            MessageItem.role := "system"; MessageItem.content := "s";
            MessageItem.refs := null; MessageItem.created_at := "t3" |};
         {| MessageItem.id := "m-4"; MessageItem.conversation_id := "c-1";
            MessageItem.role := "assistant"; MessageItem.content := "a";
            MessageItem.refs := val ["chunk-7" : @unknown example_host];
            MessageItem.created_at := "t4" |} ];
     MessageListResponse.next_before := val "m-2" |}.

(** The page of workspace [w-1] on conversation [c-1]. *)
Definition resumed_chat : History.Chat :=
  History.initial
    (WorkspacePage.setConversationId (Some "c-1") (WorkspacePage.mount "w-1" ∅)).

Example mapped_example :
  History.mapped (MessageListResponse.items example_history)
  = [ {| Message.role := user; Message.content := "q"; Message.refs := undefined |};
      {| Message.role := assistant; Message.content := "a";
         Message.refs := val ["chunk-7" : @unknown example_host] |} ].
Proof. vm_compute. reflexivity. Qed.

Lemma history_pages_compose_witness :
  WorkspacePage.conversationId (History.page resumed_chat) = Some "c-1"
  ∧ "c-1" ≠ ""
  ∧ Api.received (Fulfilled (ok_response example_history)) = Fulfilled example_history
  ∧ MessageListResponse.next_before example_history = val "m-2"
  ∧ "m-2" ≠ ""
  ∧ ∃ c1,
      Exec (History.onConversationChange resumed_chat)
        [history_exchange "c-1" None (Fulfilled (ok_response example_history))]
        (Fulfilled c1)
      ∧ WorkspacePage.messages (History.page c1)
        = History.mapped (MessageListResponse.items example_history).
Proof.
  assert (H1 : WorkspacePage.conversationId (History.page resumed_chat) = Some "c-1")
    by reflexivity.
  assert (H2 : "c-1" ≠ "") by discriminate.
  assert (H3 : Api.received (Fulfilled (ok_response example_history))
               = Fulfilled example_history) by reflexivity.
  assert (H4 : MessageListResponse.next_before example_history = val "m-2")
    by reflexivity.
  assert (H5 : "m-2" ≠ "") by discriminate.
  do 5 (split; [assumption|]).
  destruct (history_pages_compose resumed_chat "c-1" "m-2"
              (Fulfilled (ok_response example_history)) example_history
              H1 H2 H3 H4 H5) as (c1 & Hrun & Hshown & _).
  exists c1. split; [exact Hrun|exact Hshown].
Defined.

End history_examples.

(** ** The preview dialog *)

Module Preview.
Section preview.
Context `{JsHost} `{WebHost}.
Variable workspaceId : string.

Record State : Type := {
  previewOpen : bool;
  previewLoading : bool;
  previewError : maybe string;
  previewData : option DocumentPreview.t;
}.

Definition initial : State :=
  {| previewOpen := false; previewLoading := false;
     previewError := null; previewData := None |}.

Definition setPreviewOpen (v : bool) (p : State) : State :=
  {| previewOpen := v; previewLoading := previewLoading p;
     previewError := previewError p; previewData := previewData p |}.

Definition setPreviewLoading (v : bool) (p : State) : State :=
  {| previewOpen := previewOpen p; previewLoading := v;
     previewError := previewError p; previewData := previewData p |}.

Definition setPreviewError (v : maybe string) (p : State) : State :=
  {| previewOpen := previewOpen p; previewLoading := previewLoading p;
     previewError := v; previewData := previewData p |}.

Definition setPreviewData (v : option DocumentPreview.t) (p : State) : State :=
  {| previewOpen := previewOpen p; previewLoading := previewLoading p;
     previewError := previewError p; previewData := v |}.

Definition onPreview (documentId : string) (p : State) : Async State :=
  let p := setPreviewOpen true p in
  let p := setPreviewLoading true p in
  let p := setPreviewError null p in
  let p := setPreviewData None p in
  bind (settle (ApiMore.getDocumentPreview workspaceId documentId)) (λ r,
    let p :=
      match r with
      | Fulfilled data => setPreviewData (Some data) p
      | Rejected e => setPreviewError (WorkspacePage.errToString e) p
      end in
    Done (setPreviewLoading false p)).

(** [onOpenChange] of the dialog *)
Definition onOpenChange (open : bool) (p : State) : State :=
  let p := setPreviewOpen open p in
  if negb open then
    let p := setPreviewData None p in
    let p := setPreviewError null p in
    setPreviewLoading false p
  else p.

(** What the body of the dialog shows *)
Inductive Body : Type :=
| LoadingText
| ErrorText (message : string)
| Image (alt src : string)
| Pdf (url : string)
| Docx
| Pre (content : string)
| NoContent.

Definition has_ext (ext : string) (data : DocumentPreview.t) : bool :=
  match DocumentPreview.file_ext data with
  | val s => bool_decide (s = ext)
  | undefined | null => false
  end.

(** The branch of the body that looks at [previewData] *)
Definition shown_data (data : option DocumentPreview.t) : Body :=
  match data with
  | Some data =>
      match DocumentPreview.content_type data with
      | image => Image (DocumentPreview.title data)
                   (Api.apiBaseUrl +:+ DocumentPreview.view_url data)
      | _ =>
          if has_ext "pdf" data
          then Pdf (Api.apiBaseUrl +:+ DocumentPreview.view_url data)
          else if has_ext "docx" data then Docx
          else Pre (DocumentPreview.content data)
      end
  | None => NoContent
  end.

Definition body (p : State) : Body :=
  if previewLoading p then LoadingText else
  match previewError p with
  | val message =>
      if truthy message then ErrorText message else shown_data (previewData p)
  | undefined | null => shown_data (previewData p)
  end.

(** [previewData?.title || "文档预览"] *)
Definition dialog_title (p : State) : string :=
  match previewData p with
  | Some data => if truthy (DocumentPreview.title data)
                 then DocumentPreview.title data else "文档预览"
  | None => "文档预览"
  end.

End preview.
End Preview.

(** X12. [onPreview] makes one GET to
    [/workspaces/{workspace_id}/documents/{document_id}/preview] and leaves
    the dialog open and not loading. What the dialog then holds depends on
    the outcome alone and on nothing previewed before: the document when
    the call succeeded, else no document and the error text. The body
    shows the document, or the error text when that is a non-empty string,
    and the no-content line when the error has no text; the title is the
    document's, or the default title when there is none. Closing the
    dialog afterwards gives the initial state back. *)
Theorem onPreview_runs `{JsHost} `{WebHost}
    (workspaceId documentId : string) (p : Preview.State)
    (tr : list Exchange) (res : settled Preview.State) :
  let after (r : settled (Response DocumentPreview.t)) : Preview.State :=
    {| Preview.previewOpen := true;
       Preview.previewLoading := false;
       Preview.previewError :=
         match Api.received r with
         | Fulfilled _ => null
         | Rejected e => WorkspacePage.errToString e
         end;
       Preview.previewData :=
         match Api.received r with
         | Fulfilled data => Some data
         | Rejected _ => None
         end |} in
  (Exec (Preview.onPreview workspaceId documentId p) tr res ↔
   ∃ r, tr = [ {| ex_type := DocumentPreview.t;
                  ex_call :=
                    {| url := Api.apiBaseUrl +:+ "/workspaces/" +:+ workspaceId
                              +:+ "/documents/" +:+ documentId +:+ "/preview";
                       init := {| method := None; headers := Some ∅; body := None |} |};
                  ex_outcome := r |} ]
        ∧ res = Fulfilled (after r))
  ∧ ∀ r,
      Preview.body (after r)
      = match Api.received r with
        | Fulfilled data => Preview.shown_data (Some data)
        | Rejected e =>
            match WorkspacePage.errToString e with
            | val message =>
                if decide (message = "") then Preview.NoContent
                else Preview.ErrorText message
            | undefined | null => Preview.NoContent
            end
        end
      ∧ Preview.dialog_title (after r)
        = match Api.received r with
          | Fulfilled data =>
              if decide (DocumentPreview.title data = "") then "文档预览"
              else DocumentPreview.title data
          | Rejected _ => "文档预览"
          end
      ∧ Preview.onOpenChange false (after r) = Preview.initial.
Proof.
  intros after. split.
  - unfold Preview.onPreview. rewrite Exec_bind_settle.
    unfold ApiMore.getDocumentPreview. setoid_rewrite Exec_get. split.
    + intros (tr1 & tr2 & r0 & -> & (r & -> & ->) & [-> ->]). exists r.
      split; [done|]. subst after. cbv beta. by destruct (Api.received r).
    + intros (r & -> & ->). eexists [_], [], (Api.received r).
      split; [done|]. split; [by exists r|]. split; [done|].
      subst after. cbv beta. by destruct (Api.received r).
  - intros r. subst after. cbv beta. split; [|split; [|done]].
    + unfold Preview.body; cbn. destruct (Api.received r) as [data|e]; [done|].
      destruct (WorkspacePage.errToString e) as [| |message]; [done..|].
      unfold truthy. by destruct (decide (message = "")).
    + unfold Preview.dialog_title, truthy; cbn.
      destruct (Api.received r) as [data|e]; [|done].
      by destruct (decide (DocumentPreview.title data = "")).
Qed.

(** ** Opening and closing folders *)

Module Folders.
Section folders.
Context `{JsHost}.

Definition node_type (node : DocumentTreeNode) : NodeType :=
  match node with TreeNode type _ _ _ _ => type end.

Definition node_path (node : DocumentTreeNode) : string :=
  match node with TreeNode _ _ path _ _ => path end.

Definition node_document (node : DocumentTreeNode) : maybe DocumentRef.t :=
  match node with TreeNode _ _ _ _ document => document end.

Definition nodeKey (node : DocumentTreeNode) : string :=
  match node_type node with
  | folder => if truthy (node_path node) then node_path node else "__root__"
  | file =>
      match node_document node with
      | val d => if truthy (DocumentRef.id d) then DocumentRef.id d else node_path node
      | undefined | null => node_path node
      end
  end.

(** The initial value of [expanded] *)
Definition initial : gmap string bool := {[ "__root__" := true ]}.

(** [!prev[path]]: a missing entry reads as [undefined], which is falsy. *)
Definition toggleFolder (path : string) (prev : gmap string bool) : gmap string bool :=
  <[ path := negb (default false (prev !! path)) ]> prev.

(** [expanded[key] ?? depth === 0] *)
Definition isOpen (expanded : gmap string bool) (key : string) (depth : nat) : bool :=
  match expanded !! key with
  | Some b => b
  | None => bool_decide (depth = 0)
  end.

(** [isOpen] of the row of a folder node *)
Definition row_open (expanded : gmap string bool) (node : DocumentTreeNode)
    (depth : nat) : bool :=
  isOpen expanded (nodeKey node) depth.

(** The clicks on the rows of folder nodes, applied in order *)
Definition clicks (nodes : list DocumentTreeNode) (expanded : gmap string bool)
  : gmap string bool :=
  foldl (λ e node, toggleFolder (nodeKey node) e) expanded nodes.

End folders.
End Folders.

Section folders_facts.
Context `{JsHost}.


End folders_facts.


(** ** Uploading a folder *)

Module UploadManyItem.
Record t : Type := {
  relative_path : string;
  document_id : string;
  task_id : string;
  task_status : string;
}.
End UploadManyItem.

Module UploadManyResponse.
Record t : Type := {
  workspace_id : string;
  items : list UploadManyItem.t;
}.
End UploadManyResponse.

(** What the page reads of a DOM [File] *)
Class FileHost `{JsHost} : Type := {
  (** [f.name] *)
  File_name : File → string;
  (** [(f as any).webkitRelativePath] *)
  webkitRelativePath : File → maybe string;
}.

Module FolderUpload.
Section folder_upload.
Context `{JsHost} `{!FileHost}.
Variable workspaceId : string.

(** [uploadMany] of [lib/api.ts] puts files and strings in one form; it is
    taken as given here, with the arguments the page passes to it. *)
Variable uploadMany : string → list File → list string → Async UploadManyResponse.t.

(** [(f as any).webkitRelativePath || f.name] *)
Definition relativePath (f : File) : string :=
  match webkitRelativePath f with
  | val s => if truthy s then s else File_name f
  | undefined | null => File_name f
  end.

(** The updater of [setActiveIndexTasks], for the items of the response *)
Definition uploaded (items : list UploadManyItem.t)
    (prev : gmap string IndexTask.t) : gmap string IndexTask.t :=
  let next := prev in
  foldl (λ next it,
           <[ UploadManyItem.document_id it :=
                {| IndexTask.taskId := UploadManyItem.task_id it;
                   IndexTask.status := UploadManyItem.task_status it;
                   IndexTask.stage := null;
                   IndexTask.progress := null;
                   IndexTask.error := None |} ]> next) next items.

(** The state the handler leaves, and how its promise settles: there is
    no [catch], so a rejection of the upload is passed on after [finally]. *)
Definition onUploadFolder (files : list File) (st : WorkspacePage.State)
  : Async (WorkspacePage.State * settled ()) :=
  let st := WorkspacePage.setUploading true st in
  let relativePaths := relativePath <$> files in
  bind (settle (uploadMany workspaceId files relativePaths)) (λ r,
    match r with
    | Fulfilled res =>
        let st := WorkspacePage.setActiveIndexTasks
                    (uploaded (UploadManyResponse.items res)) st in
        bind (WorkspacePage.refreshTree workspaceId st) (λ st,
          Done (WorkspacePage.setUploading false st, Fulfilled ()))
    | Rejected e => Done (WorkspacePage.setUploading false st, Rejected e)
    end).

End folder_upload.
End FolderUpload.

Section folder_upload_facts.
Context `{JsHost} `{!FileHost}.

(** The last item of a document decides its entry. *)
Lemma uploaded_lookup (items : list UploadManyItem.t)
    (prev : gmap string IndexTask.t) (docId : string) :
  FolderUpload.uploaded items prev !! docId
  = match last (filter (λ it, UploadManyItem.document_id it = docId) items) with
    | Some it =>
        Some (WorkspacePage.fresh_task (UploadManyItem.task_id it)
                (UploadManyItem.task_status it))
    | None => prev !! docId
    end.
Proof.
  unfold FolderUpload.uploaded. cbv zeta.
  induction items as [|it items IH] using rev_ind; [done|].
  rewrite foldl_app, filter_app. cbn [foldl].
  destruct (decide (UploadManyItem.document_id it = docId)) as [Heq|Hne].
  - rewrite Heq, lookup_insert_eq.
    rewrite (filter_cons_True _ it []) by done.
    rewrite filter_nil. by rewrite last_snoc.
  - rewrite lookup_insert_ne by done.
    rewrite (filter_cons_False _ it []) by done.
    rewrite filter_nil, app_nil_r. apply IH.
Qed.

End folder_upload_facts.

(** X14. [onUploadFolder] passes to [uploadMany] the files and, for each
    file in order, its [webkitRelativePath] or else its name. If the
    upload fails, the task map is unchanged, the tree is not fetched and
    the rejection is passed on; if it succeeds, the tree is fetched once.
    Either way [uploading] ends false. After a successful upload every
    document of the response is tracked with the task id and status of
    its last item, [stage] and [progress] null, and every other entry of
    the task map is as before. *)
Theorem onUploadFolder_tracks_every_item `{JsHost} `{!FileHost}
    (workspaceId : string)
    (uploadMany : string → list File → list string → Async UploadManyResponse.t)
    (files : list File) (st : WorkspacePage.State)
    (tr : list Exchange) (res : settled (WorkspacePage.State * settled ())) :
  (Exec (FolderUpload.onUploadFolder workspaceId uploadMany files st) tr res ↔
   ∃ tr1 r,
     Exec (uploadMany workspaceId files (FolderUpload.relativePath <$> files)) tr1 r
     ∧ match r with
       | Rejected e =>
           tr = tr1
           ∧ res = Fulfilled
                     (WorkspacePage.setUploading false
                        (WorkspacePage.setUploading true st), Rejected e)
       | Fulfilled out =>
           ∃ r_tree,
             tr = tr1 ++ [ {| ex_type := DocumentTreeNode;
                              ex_call := Api.tree_call workspaceId;
                              ex_outcome := r_tree |} ]
             ∧ res = Fulfilled
                       (WorkspacePage.setUploading false
                          (WorkspacePage.refreshed (Api.received r_tree)
                             (WorkspacePage.setActiveIndexTasks
                                (FolderUpload.uploaded (UploadManyResponse.items out))
                                (WorkspacePage.setUploading true st))),
                        Fulfilled ())
       end)
  ∧ ∀ (items : list UploadManyItem.t) (docId : string),
      (∀ it, it ∈ items → UploadManyItem.document_id it = docId →
         is_Some (FolderUpload.uploaded items (WorkspacePage.activeIndexTasks st)
                    !! docId))
      ∧ FolderUpload.uploaded items (WorkspacePage.activeIndexTasks st) !! docId
        = match last (filter (λ it, UploadManyItem.document_id it = docId) items) with
          | Some it =>
              Some {| IndexTask.taskId := UploadManyItem.task_id it;
                      IndexTask.status := UploadManyItem.task_status it;
                      IndexTask.stage := null;
                      IndexTask.progress := null;
                      IndexTask.error := None |}
          | None => WorkspacePage.activeIndexTasks st !! docId
          end.
Proof.
  split.
  - unfold FolderUpload.onUploadFolder. rewrite Exec_bind_settle. split.
    + intros (tr1 & tr2 & r & -> & Hup & Hk). exists tr1, r. split; [done|].
      destruct r as [out|e].
      * apply Exec_bind in Hk
          as [(tr3 & tr4 & st2 & -> & (r_tree & -> & [= ->])%Exec_refreshTree & [-> ->])
             |(e & (r_tree & _ & [=])%Exec_refreshTree & _)].
        exists r_tree. by rewrite app_nil_r.
      * destruct Hk as [-> ->]. by rewrite app_nil_r.
    + intros (tr1 & r & Hup & Hr). destruct r as [out|e].
      * destruct Hr as (r_tree & -> & ->). eexists tr1, [_], (Fulfilled out).
        split; [done|]. split; [done|]. apply Exec_bind. left.
        eexists [_], [], _. split; [done|]. split; [|done].
        apply Exec_refreshTree. by exists r_tree.
      * destruct Hr as [-> ->]. exists tr1, [], (Rejected e).
        by rewrite app_nil_r.
  - intros items docId. rewrite uploaded_lookup. split; [|done].
    intros it Hin Hdoc.
    assert (it ∈ filter (λ it, UploadManyItem.document_id it = docId) items) as Hf
      by (by apply list_elem_of_filter).
    destruct (filter _ items) as [|x l] using rev_ind; [by apply elem_of_nil in Hf|].
    by rewrite last_snoc.
Qed.

(** ** The rest of the home page, [frontend/src/app/page.tsx] *)

Module Home.
Section home.
Context `{JsHost} `{WebHost}.

(** The state of the component *)
Record State : Type := {
  workspaces : list Workspace.t;
  search : string;
  loading : bool;
  createOpen : bool;
  newName : string;
  creating : bool;
}.

Definition initial : State :=
  {| workspaces := []; search := ""; loading := true; createOpen := false;
     newName := ""; creating := false |}.

Definition setWorkspaces (f : list Workspace.t → list Workspace.t) (st : State) : State :=
  {| workspaces := f (workspaces st); search := search st; loading := loading st;
     createOpen := createOpen st; newName := newName st; creating := creating st |}.

Definition setSearch (v : string) (st : State) : State :=
  {| workspaces := workspaces st; search := v; loading := loading st;
     createOpen := createOpen st; newName := newName st; creating := creating st |}.

Definition setLoading (v : bool) (st : State) : State :=
  {| workspaces := workspaces st; search := search st; loading := v;
     createOpen := createOpen st; newName := newName st; creating := creating st |}.

Definition setCreateOpen (v : bool) (st : State) : State :=
  {| workspaces := workspaces st; search := search st; loading := loading st;
     createOpen := v; newName := newName st; creating := creating st |}.

Definition setNewName (v : string) (st : State) : State :=
  {| workspaces := workspaces st; search := search st; loading := loading st;
     createOpen := createOpen st; newName := v; creating := creating st |}.

Definition setCreating (v : bool) (st : State) : State :=
  {| workspaces := workspaces st; search := search st; loading := loading st;
     createOpen := createOpen st; newName := newName st; creating := v |}.

(** The effect that runs on mount, while the component stays mounted
    ([cancelled] is false). The promise of [then ... finally] is dropped;
    it settles as given beside the state. *)
Definition onMount (st : State) : Async (State * settled ()) :=
  let st := setLoading true st in
  bind (settle ApiMore.listWorkspaces) (λ r,
    match r with
    | Fulfilled rows =>
        let st := setWorkspaces (λ _, rows) st in
        Done (setLoading false st, Fulfilled ())
    | Rejected e => Done (setLoading false st, Rejected e)
    end).

(** [filtered] *)
Definition filtered (st : State) : list Workspace.t :=
  let q := toLowerCase (trim (search st)) in
  if negb (truthy q) then workspaces st
  else filter (λ w, includes (toLowerCase (Workspace.name w)) q = true) (workspaces st).

Definition top5 (st : State) : list Workspace.t := take 5 (filtered st).

(** [new Map(workspaces.map((w) => [w.id, w]))]: a later workspace of
    the same id replaces an earlier one. *)
Definition byId (workspaces : list Workspace.t) : gmap string Workspace.t :=
  foldl (λ m w, <[ Workspace.id w := w ]> m) ∅ workspaces.

(** [recentWorkspaces], for the list [recent] read on mount *)
Definition recentWorkspaces (recent : list HomePage.RecentWorkspace) (st : State)
  : list (option Workspace.t * string) :=
  let byId := byId (workspaces st) in
  take 10
    (filter (λ x, is_Some x.1)
       ((λ r, (byId !! HomePage.workspace_id r, HomePage.last_opened_at r)) <$> recent)).

(** No [catch]: a rejection of the call is passed on after [finally]. *)
Definition onCreate (st : State) : Async (State * settled ()) :=
  let name := trim (newName st) in
  if negb (truthy name) then Done (st, Fulfilled ()) else
  let st := setCreating true st in
  bind (settle (ApiMore.createWorkspace
                  {| CreateWorkspacePayload.name := name;
                     CreateWorkspacePayload.qdrant_alias := undefined |})) (λ r,
    match r with
    | Fulfilled ws =>
        let st := setWorkspaces (λ prev, ws :: prev) st in
        let st := setNewName "" st in
        let st := setCreateOpen false st in
        Done (setCreating false st, Fulfilled ())
    | Rejected e => Done (setCreating false st, Rejected e)
    end).

End home.

(** Workspaces opened one after the other, each with its time *)
Definition opened (opens : list (string * string)) (localStorage : HomePage.Storage)
  : HomePage.Storage :=
  foldl (λ s o, HomePage.onOpenWorkspace o.1 o.2 s) localStorage opens.

End Home.

Section recent_facts.
Import HomePage.

(** The list of recent workspaces as it would be without the cap of 20:
    each opening puts its entry first and drops the older entry of the
    same workspace. *)
Definition moved_first (o : string * string) (acc : list RecentWorkspace)
  : list RecentWorkspace :=
  {| workspace_id := o.1; last_opened_at := o.2 |}
  :: filter (λ x, workspace_id x ≠ o.1) acc.

Definition by_recency (opens : list (string * string)) (before : list RecentWorkspace)
  : list RecentWorkspace :=
  foldl (λ acc o, moved_first o acc) before opens.

Lemma opened_snoc opens o localStorage :
  Home.opened (opens ++ [o]) localStorage
  = onOpenWorkspace o.1 o.2 (Home.opened opens localStorage).
Proof. unfold Home.opened. by rewrite foldl_app. Qed.

Lemma by_recency_snoc opens o before :
  by_recency (opens ++ [o]) before = moved_first o (by_recency opens before).
Proof. unfold by_recency. by rewrite foldl_app. Qed.

Lemma filter_all {A} (P : A → Prop) `{∀ x, Decision (P x)} (l : list A) :
  Forall P l → filter P l = l.
Proof.
  induction 1 as [|x l Hx _ IH]; [done|].
  by rewrite filter_cons_True, IH.
Qed.

(** Dropping one workspace from a list without repetition frees at most
    one place. *)
Lemma take_filter_take (workspaceId : string) (n : nat) (l : list RecentWorkspace) :
  NoDup (ids l) →
  take n (filter (λ x, workspace_id x ≠ workspaceId) (take (S n) l))
  = take n (filter (λ x, workspace_id x ≠ workspaceId) l).
Proof.
  revert n. induction l as [|y l IH]; intros n Hnd; [done|].
  apply NoDup_cons in Hnd as [Hy Hnd].
  change (take (S n) (y :: l)) with (y :: take n l).
  destruct (decide (workspace_id y = workspaceId)) as [Heq|Hne].
  - rewrite !filter_cons_False by (intros Hc; by apply Hc).
    assert (∀ l' : list RecentWorkspace, l' `sublist_of` l →
              filter (λ x, workspace_id x ≠ workspaceId) l' = l') as Hall.
    { intros l' Hsub. apply filter_all, Forall_forall. intros x Hx Hc.
      apply Hy. rewrite Heq, <- Hc. apply list_elem_of_fmap. exists x.
      split; [done|]. by eapply elem_of_sublist. }
    rewrite !Hall by (done || apply sublist_take).
    by rewrite take_take, Nat.min_id.
  - rewrite !filter_cons_True by done.
    destruct n as [|n]; [done|]. cbn [take]. f_equal. by apply IH.
Qed.

Lemma by_recency_NoDup opens before :
  NoDup (ids before) → NoDup (ids (by_recency opens before)).
Proof.
  intros Hnd. induction opens as [|o opens IH] using rev_ind; [done|].
  rewrite by_recency_snoc. by apply (ids_filter_NoDup o.1).
Qed.

Lemma opened_by_recency opens localStorage :
  NoDup (ids (loadRecent (Some localStorage))) →
  loadRecent (Some (Home.opened opens localStorage))
  = if bool_decide (opens = []) then loadRecent (Some localStorage)
    else take 20 (by_recency opens (loadRecent (Some localStorage))).
Proof.
  intros Hnd. induction opens as [|o opens IH] using rev_ind; [done|].
  rewrite opened_snoc, by_recency_snoc.
  rewrite bool_decide_eq_false_2 by (by destruct opens).
  unfold onOpenWorkspace. rewrite loadRecent_saveRecent, IH.
  unfold moved_first. cbn [app]. change 20 with (S 19). cbn [take]. f_equal.
  case_bool_decide as Hnil; [by subst opens|].
  apply take_filter_take. by apply by_recency_NoDup.
Qed.

Lemma elem_of_by_recency opens before (id : string) :
  id ∈ ids (by_recency opens before) ↔ id ∈ opens.*1 ∨ id ∈ ids before.
Proof.
  induction opens as [|o opens IH] using rev_ind.
  - cbn. rewrite elem_of_nil. split; [by right|by intros [[]|?]].
  - rewrite by_recency_snoc, fmap_app, elem_of_app. cbn.
    unfold moved_first, ids. cbn [fmap list_fmap]. fold (ids (by_recency opens before)).
    rewrite elem_of_cons, list_elem_of_singleton.
    split.
    + intros [->|Hin]; [left; by right|].
      apply list_elem_of_fmap in Hin as (x & -> & [_ Hx]%list_elem_of_filter).
      assert (workspace_id x ∈ ids (by_recency opens before)) as Hid
        by (apply list_elem_of_fmap; by exists x).
      apply IH in Hid as [?|?]; [left; by left|by right].
    + intros Hin. destruct (decide (id = o.1)) as [->|Hne]; [by left|]. right.
      assert (id ∈ ids (by_recency opens before)) as Hid
        by (apply IH; destruct Hin as [[?|?]|?]; [by left|done|by right]).
      apply list_elem_of_fmap in Hid as (x & -> & Hx).
      apply list_elem_of_fmap. exists x. split; [done|].
      by apply list_elem_of_filter.
Qed.

Lemma by_recency_times opens before (r : RecentWorkspace) :
  r ∈ by_recency opens before →
  workspace_id r ∈ opens.*1 →
  last (filter (λ o, o.1 = workspace_id r) opens)
  = Some (workspace_id r, last_opened_at r).
Proof.
  induction opens as [|o opens IH] using rev_ind; [by intros _ ?%elem_of_nil|].
  rewrite by_recency_snoc, fmap_app, filter_app. unfold moved_first.
  intros [->|[Hne Hin]%list_elem_of_filter]%elem_of_cons Hopened.
  - cbn [workspace_id last_opened_at].
    rewrite (filter_cons_True _ o []) by done.
    rewrite filter_nil, last_snoc. by destruct o.
  - rewrite (filter_cons_False _ o []) by (intros Hc; by apply Hne).
    rewrite filter_nil, app_nil_r. apply IH; [done|].
    apply elem_of_app in Hopened as [?|Ho]; [done|].
    apply list_elem_of_singleton in Ho. by destruct Hne.
Qed.

End recent_facts.

(** X15. The recent list is a least-recently-used list. Start from a
    stored list that names no workspace twice (an absent, unparsable or
    non-array value reads as the empty list) and open workspaces one after
    the other. The list read back is then the first 20 entries of the
    list that the same openings give without any cap: cutting to 20 at
    every step loses nothing that cutting once at the end would keep. That
    list names no workspace twice, names exactly the workspaces opened or
    listed before, and the entry of an opened workspace carries the time
    of its last opening. *)
Theorem recent_list_is_lru
    (localStorage : HomePage.Storage) (opens : list (string * string)) :
  NoDup (HomePage.ids (HomePage.loadRecent (Some localStorage))) →
  let before := HomePage.loadRecent (Some localStorage) in
  let after := HomePage.loadRecent (Some (Home.opened opens localStorage)) in
  let all := by_recency opens before in
  after = (if bool_decide (opens = []) then before else take 20 all)
  ∧ NoDup (HomePage.ids all)
  ∧ NoDup (HomePage.ids after)
  ∧ (∀ id, id ∈ HomePage.ids all ↔ id ∈ opens.*1 ∨ id ∈ HomePage.ids before)
  ∧ (∀ r, r ∈ after → HomePage.workspace_id r ∈ opens.*1 →
       last (filter (λ o, o.1 = HomePage.workspace_id r) opens)
       = Some (HomePage.workspace_id r, HomePage.last_opened_at r)).
Proof.
  intros Hnd before after all.
  assert (Hafter : after = if bool_decide (opens = []) then before else take 20 all)
    by (by apply opened_by_recency).
  assert (Hall : NoDup (HomePage.ids all)) by (by apply by_recency_NoDup).
  split; [done|]. split; [done|]. split; [|split].
  - rewrite Hafter. case_bool_decide; [done|].
    eapply sublist_NoDup; [exact Hall|]. apply fmap_sublist, sublist_take.
  - apply elem_of_by_recency.
  - intros r Hr Hopened. apply (by_recency_times opens before); [|done].
    rewrite Hafter in Hr. case_bool_decide as Hnil.
    + subst opens. by apply elem_of_nil in Hopened.
    + eapply elem_of_sublist; [exact Hr|apply sublist_take].
Qed.

Lemma recent_list_is_lru_witness :
  let localStorage := {| HomePage.recent_workspaces := Some HomePage.NotJson |} in
  NoDup (HomePage.ids (HomePage.loadRecent (Some localStorage)))
  ∧ HomePage.loadRecent
      (Some (Home.opened [("a", "t1"); ("b", "t2"); ("a", "t3")] localStorage))
    = [ {| HomePage.workspace_id := "a"; HomePage.last_opened_at := "t3" |};
        {| HomePage.workspace_id := "b"; HomePage.last_opened_at := "t2" |} ].
Proof.
  cbv zeta.
  assert (Hnd : NoDup (HomePage.ids (HomePage.loadRecent
            (Some {| HomePage.recent_workspaces := Some HomePage.NotJson |}))))
    by constructor.
  split; [exact Hnd|].
  exact (proj1 (recent_list_is_lru
                  {| HomePage.recent_workspaces := Some HomePage.NotJson |}
                  [("a", "t1"); ("b", "t2"); ("a", "t3")] Hnd)).
Defined.

Section cards_facts.

(** [byId.get(id)] is the last workspace of that id. *)
Lemma byId_lookup (workspaces : list Workspace.t) (id : string) :
  Home.byId workspaces !! id = last (filter (λ w, Workspace.id w = id) workspaces).
Proof.
  unfold Home.byId.
  induction workspaces as [|w workspaces IH] using rev_ind; [done|].
  rewrite foldl_app, filter_app. cbn [foldl].
  destruct (decide (Workspace.id w = id)) as [Heq|Hne].
  - rewrite Heq, lookup_insert_eq, (filter_cons_True _ w []) by done.
    by rewrite filter_nil, last_snoc.
  - rewrite lookup_insert_ne, (filter_cons_False _ w []) by done.
    by rewrite filter_nil, app_nil_r.
Qed.

Lemma byId_is_Some (workspaces : list Workspace.t) (id : string) :
  is_Some (Home.byId workspaces !! id) ↔ id ∈ Workspace.id <$> workspaces.
Proof.
  rewrite byId_lookup. split.
  - intros [w Hw]. apply last_Some in Hw as [l Hl].
    assert (w ∈ filter (λ w, Workspace.id w = id) workspaces) as Hin
      by (rewrite Hl; apply elem_of_app; right; apply list_elem_of_here).
    apply list_elem_of_filter in Hin as [<- Hin].
    apply list_elem_of_fmap. by exists w.
  - intros (w & -> & Hin)%list_elem_of_fmap.
    assert (w ∈ filter (λ w', Workspace.id w' = Workspace.id w) workspaces) as Hf
      by (by apply list_elem_of_filter).
    destruct (filter _ workspaces) as [|x l _] using rev_ind;
      [by apply elem_of_nil in Hf|].
    rewrite last_snoc. by eexists.
Qed.

Lemma filter_found_fmap (m : gmap string Workspace.t)
    (recent : list HomePage.RecentWorkspace) :
  filter (λ x : option Workspace.t * string, is_Some x.1)
    ((λ r, (m !! HomePage.workspace_id r, HomePage.last_opened_at r)) <$> recent)
  = (λ r, (m !! HomePage.workspace_id r, HomePage.last_opened_at r))
    <$> filter (λ r, is_Some (m !! HomePage.workspace_id r)) recent.
Proof.
  induction recent as [|r recent IH]; [done|]. cbn [fmap list_fmap].
  destruct (decide (is_Some (m !! HomePage.workspace_id r))) as [Hsome|Hnone].
  - rewrite !filter_cons_True by done. cbn [fmap list_fmap]. f_equal. exact IH.
  - rewrite !filter_cons_False by done. exact IH.
Qed.

End cards_facts.

(** X16. The cards under [最近打开] are the first ten recent entries whose
    workspace is in the list loaded from the server, in the order of the
    recent list: an entry of a workspace that is not listed is skipped
    and does not use up one of the ten places. Each card shows the last
    listed workspace of the entry's id. While the list of workspaces is
    empty no card is shown. *)
Theorem recentWorkspaces_shows_listed
    (recent : list HomePage.RecentWorkspace) (st : Home.State) :
  let listed (r : HomePage.RecentWorkspace) :=
    HomePage.workspace_id r ∈ Workspace.id <$> Home.workspaces st in
  let shown := Home.recentWorkspaces recent st in
  shown
  = (λ r, (last (filter (λ w, Workspace.id w = HomePage.workspace_id r)
                   (Home.workspaces st)),
           HomePage.last_opened_at r))
    <$> take 10 (filter listed recent)
  ∧ length shown ≤ 10
  ∧ (∀ x, x ∈ shown →
       ∃ ws r, x = (Some ws, HomePage.last_opened_at r)
               ∧ r ∈ recent
               ∧ ws ∈ Home.workspaces st
               ∧ Workspace.id ws = HomePage.workspace_id r)
  ∧ Home.recentWorkspaces recent (Home.setWorkspaces (λ _, []) st) = [].
Proof.
  intros listed shown.
  assert (Hshown : shown
    = (λ r, (last (filter (λ w, Workspace.id w = HomePage.workspace_id r)
                     (Home.workspaces st)),
             HomePage.last_opened_at r))
      <$> take 10 (filter listed recent)).
  { subst shown listed. unfold Home.recentWorkspaces. cbv zeta.
    rewrite filter_found_fmap, <- fmap_take.
    rewrite (list_filter_iff _ (λ r, HomePage.workspace_id r
                                     ∈ Workspace.id <$> Home.workspaces st))
      by (intros r; apply byId_is_Some).
    apply list_fmap_ext. intros _ r _. by rewrite byId_lookup. }
  split; [exact Hshown|]. split; [|split].
  - rewrite Hshown, length_fmap, length_take. lia.
  - intros x Hx. rewrite Hshown in Hx.
    apply list_elem_of_fmap in Hx as (r & -> & Hr).
    assert (r ∈ filter listed recent) as [Hlisted Hrecent]%list_elem_of_filter
      by (eapply elem_of_sublist; [exact Hr|apply sublist_take]).
    apply byId_is_Some in Hlisted as [ws Hws]. rewrite byId_lookup in Hws.
    exists ws, r. rewrite Hws. split; [done|]. split; [done|].
    apply last_Some in Hws as [l Hl].
    assert (ws ∈ filter (λ w, Workspace.id w = HomePage.workspace_id r)
                   (Home.workspaces st)) as [Hid Hin]%list_elem_of_filter
      by (rewrite Hl; apply elem_of_app; right; apply list_elem_of_here).
    done.
  - unfold Home.recentWorkspaces. cbn. rewrite filter_found_fmap.
    clear. induction recent as [|r recent IH]; [done|].
    rewrite filter_cons_False; [exact IH|].
    rewrite lookup_empty. by intros [? ?].
Qed.

(** X17. [onCreate] sends nothing and changes nothing when the name is
    blank after trimming. Otherwise it makes one POST to [/workspaces]
    whose body is the JSON of the trimmed name. When it succeeds the new
    workspace is put first in the list, the name field is emptied and the
    dialog is closed; when it fails the list, the name and the dialog stay
    as they were and the rejection is passed on. [creating] ends false in
    both cases. *)
Theorem onCreate_runs `{JsHost} `{WebHost}
    (st : Home.State) (tr : list Exchange) (res : settled (Home.State * settled ())) :
  Exec (Home.onCreate st) tr res ↔
  if decide (trim (Home.newName st) = "")
  then tr = [] ∧ res = Fulfilled (st, Fulfilled ())
  else
    ∃ r : settled (Response Workspace.t),
      tr = [ {| ex_type := Workspace.t;
                ex_call :=
                  {| url := Api.apiBaseUrl +:+ "/workspaces";
                     init := {| method := Some "POST";
                                headers := Some {[ "Content-Type" := "application/json" ]};
                                body := Some (TextBody (JSON_stringify
                                          {| CreateWorkspacePayload.name :=
                                               trim (Home.newName st);
                                             CreateWorkspacePayload.qdrant_alias :=
                                               undefined |})) |} |};
                ex_outcome := r |} ]
      ∧ res = Fulfilled
          match Api.received r with
          | Fulfilled ws =>
              ({| Home.workspaces := ws :: Home.workspaces st;
                  Home.search := Home.search st;
                  Home.loading := Home.loading st;
                  Home.createOpen := false;
                  Home.newName := "";
                  Home.creating := false |}, Fulfilled ())
          | Rejected e =>
              ({| Home.workspaces := Home.workspaces st;
                  Home.search := Home.search st;
                  Home.loading := Home.loading st;
                  Home.createOpen := Home.createOpen st;
                  Home.newName := Home.newName st;
                  Home.creating := false |}, Rejected e)
          end.
Proof.
  unfold Home.onCreate, truthy. cbv zeta.
  destruct (decide (trim (Home.newName st) = "")) as [Hblank|Hname]; [done|].
  cbn [negb]. rewrite Exec_bind_settle.
  unfold ApiMore.createWorkspace. setoid_rewrite Exec_post_json. split.
  - intros (tr1 & tr2 & r0 & -> & (r & -> & ->) & Hk). exists r. split.
    + destruct (Api.received r); by destruct Hk as [-> _].
    + destruct (Api.received r); by destruct Hk as [_ ->].
  - intros (r & -> & ->). eexists [_], [], (Api.received r).
    split; [done|]. split; [by exists r|]. by destruct (Api.received r).
Qed.

(** X18. The effect that runs when the home page mounts makes one GET to
    [/workspaces]. [loading] ends false whether the call succeeds or not;
    the list becomes the rows of the response on success and is left as
    it was on failure, so after a failed load of the initial page no card
    is shown in either section. *)
Theorem onMount_lists_workspaces `{JsHost} `{WebHost}
    (st : Home.State) (recent : list HomePage.RecentWorkspace)
    (tr : list Exchange) (res : settled (Home.State * settled ())) :
  let after (r : settled (Response (list Workspace.t))) : Home.State :=
    {| Home.workspaces :=
         match Api.received r with
         | Fulfilled rows => rows
         | Rejected _ => Home.workspaces st
         end;
       Home.search := Home.search st;
       Home.loading := false;
       Home.createOpen := Home.createOpen st;
       Home.newName := Home.newName st;
       Home.creating := Home.creating st |} in
  (Exec (Home.onMount st) tr res ↔
   ∃ r, tr = [ {| ex_type := list Workspace.t;
                  ex_call :=
                    {| url := Api.apiBaseUrl +:+ "/workspaces";
                       init := {| method := None; headers := Some ∅; body := None |} |};
                  ex_outcome := r |} ]
        ∧ res = Fulfilled
                  (after r,
                   match Api.received r with
                   | Fulfilled _ => Fulfilled ()
                   | Rejected e => Rejected e
                   end))
  ∧ ∀ r e, Api.received r = Rejected e →
      Exec (Home.onMount Home.initial) 
        [ {| ex_type := list Workspace.t;
             ex_call := ApiMore.get_call "/workspaces";
             ex_outcome := r |} ]
        (Fulfilled (Home.setLoading false Home.initial, Rejected e))
      ∧ Home.top5 (Home.setLoading false Home.initial) = []
      ∧ Home.recentWorkspaces recent (Home.setLoading false Home.initial) = [].
Proof.
  intros after.
  assert (Hrun : ∀ st' tr' res',
    Exec (Home.onMount st') tr' res' ↔
    ∃ r, tr' = [ {| ex_type := list Workspace.t;
                    ex_call := ApiMore.get_call "/workspaces";
                    ex_outcome := r |} ]
         ∧ res' = Fulfilled
             match Api.received r with
             | Fulfilled rows =>
                 (Home.setLoading false
                    (Home.setWorkspaces (λ _, rows) (Home.setLoading true st')),
                  Fulfilled ())
             | Rejected e =>
                 (Home.setLoading false (Home.setLoading true st'), Rejected e)
             end).
  { intros st' tr' res'. unfold Home.onMount. rewrite Exec_bind_settle.
    unfold ApiMore.listWorkspaces. setoid_rewrite Exec_get. split.
    - intros (tr1 & tr2 & r0 & -> & (r & -> & ->) & Hk). exists r. split.
      + destruct (Api.received r); by destruct Hk as [-> _].
      + destruct (Api.received r); by destruct Hk as [_ ->].
    - intros (r & -> & ->). eexists [_], [], (Api.received r).
      split; [done|]. split; [by exists r|]. by destruct (Api.received r). }
  split.
  - rewrite Hrun. subst after. cbv beta.
    split; intros (r & -> & ->); exists r; (split; [done|]);
      by destruct (Api.received r).
  - intros r e Hr. split; [|split].
    + apply Hrun. exists r. split; [done|]. by rewrite Hr.
    + unfold Home.top5, Home.filtered. cbn. by destruct (negb _).
    + unfold Home.recentWorkspaces. cbn.
      induction recent as [|x recent IH]; [done|]. cbn [fmap list_fmap].
      rewrite filter_cons_False; [exact IH|].
      cbn. rewrite lookup_empty. by intros [? ?].
Qed.

(** ** More on the page buttons of the PDF viewer *)

Section pdf_more_facts.
Import PdfViewer.

(** [count] clicks on a button *)
Definition clicks_next (count : nat) (st : State) : State := Nat.iter count clickNext st.
Definition clicks_prev (count : nat) (st : State) : State := Nat.iter count clickPrev st.

(** The buttons work: a document is loaded and has pages. *)
Definition ready (st : State) : Prop :=
  loading st = false ∧ (0 < numPages st)%Z.

Lemma clickNext_page (st : State) :
  page_in_range st → ready st →
  page (clickNext st) = Z.min (page st + 1) (numPages st)
  ∧ page_in_range (clickNext st) ∧ ready (clickNext st).
Proof.
  intros Hr [Hl Hn]. split; [|split; [by apply clickNext_in_range|]].
  - revert Hr. unfold page_in_range, clickNext, next_disabled, onNextClick, clampedPage.
    destruct st as [n p l e]; simpl in *. subst l.
    destruct (Z.leb_spec n 0); [lia|]. simpl. rewrite Z.geb_leb, orb_false_r.
    intros Hp. destruct (Z.leb_spec n (Z.max 1 (Z.min p n))); simpl; lia.
  - unfold ready, clickNext. by destruct (next_disabled st).
Qed.

Lemma clickPrev_page (st : State) :
  page_in_range st → ready st →
  page (clickPrev st) = Z.max (page st - 1) 1
  ∧ page_in_range (clickPrev st) ∧ ready (clickPrev st).
Proof.
  intros Hr [Hl Hn]. split; [|split; [by apply clickPrev_in_range|]].
  - revert Hr. unfold page_in_range, clickPrev, prev_disabled, onPrevClick, clampedPage.
    destruct st as [n p l e]; simpl in *. subst l.
    destruct (Z.leb_spec n 0); [lia|]. simpl. rewrite orb_false_r.
    intros Hp. destruct (Z.leb_spec (Z.max 1 (Z.min p n)) 1); simpl; lia.
  - unfold ready, clickPrev. by destruct (prev_disabled st).
Qed.

Lemma clicks_next_page (count : nat) (st : State) :
  page_in_range st → ready st →
  page (clicks_next count st) = Z.min (page st + Z.of_nat count) (numPages st)
  ∧ page_in_range (clicks_next count st) ∧ ready (clicks_next count st).
Proof.
  intros Hr Hready.
  assert (page st <= numPages st)%Z as Hle.
  { destruct Hready as [_ Hn]. pose proof (proj2 (clampedPage_bounds st) Hn).
    rewrite Hr. lia. }
  induction count as [|count (IHp & IHr & IHy)]; [split; [cbn; lia|done]|].
  change (clicks_next (S count) st) with (clickNext (clicks_next count st)).
  destruct (clickNext_page _ IHr IHy) as (Hp & Hr' & Hy'). split; [|done].
  rewrite Hp, IHp.
  assert (numPages (clicks_next count st) = numPages st) as ->.
  { clear. induction count as [|count IH]; [done|]. cbn.
    unfold clickNext at 1. by destruct (next_disabled _). }
  lia.
Qed.

Lemma clicks_prev_page (count : nat) (st : State) :
  page_in_range st → ready st →
  page (clicks_prev count st) = Z.max (page st - Z.of_nat count) 1
  ∧ page_in_range (clicks_prev count st) ∧ ready (clicks_prev count st).
Proof.
  intros Hr Hready.
  assert (1 <= page st)%Z as Hle.
  { destruct Hready as [_ Hn]. pose proof (proj2 (clampedPage_bounds st) Hn).
    rewrite Hr. lia. }
  induction count as [|count (IHp & IHr & IHy)]; [split; [cbn; lia|done]|].
  change (clicks_prev (S count) st) with (clickPrev (clicks_prev count st)).
  destruct (clickPrev_page _ IHr IHy) as (Hp & Hr' & Hy'). split; [|done].
  rewrite Hp, IHp. lia.
Qed.

End pdf_more_facts.

(** X19. Once a document with at least one page has loaded and the page
    is in range, [count] clicks on the next button move the page forward
    by [count] but never beyond the last page, and [count] clicks on the
    previous button move it back by [count] but never before page 1. So
    every page of the document can be reached from every other, and
    going forward and then back by the same number of clicks returns to
    the same page when the last page was not hit. While the document is
    loading or has no pages, clicks change nothing. *)
Theorem page_clicks_saturate (st : PdfViewer.State) (count : nat) :
  PdfViewer.page_in_range st →
  (if PdfViewer.loading st || (PdfViewer.numPages st <=? 0)%Z
   then clicks_next count st = st ∧ clicks_prev count st = st
   else
     PdfViewer.page (clicks_next count st)
     = Z.min (PdfViewer.page st + Z.of_nat count) (PdfViewer.numPages st)
     ∧ PdfViewer.page (clicks_prev count st)
       = Z.max (PdfViewer.page st - Z.of_nat count) 1
     ∧ ((PdfViewer.page st + Z.of_nat count <= PdfViewer.numPages st)%Z →
        PdfViewer.page (clicks_prev count (clicks_next count st)) = PdfViewer.page st)
     ∧ ∀ target : Z, (1 <= target <= PdfViewer.numPages st)%Z →
         PdfViewer.page
           (clicks_next (Z.to_nat (target - 1))
              (clicks_prev (Z.to_nat (PdfViewer.numPages st)) st))
         = target).
Proof.
  intros Hr.
  destruct (PdfViewer.loading st || (PdfViewer.numPages st <=? 0)%Z) eqn:Hoff.
  - assert (PdfViewer.clickNext st = st ∧ PdfViewer.clickPrev st = st) as [Hn Hp].
    { unfold PdfViewer.clickNext, PdfViewer.clickPrev, PdfViewer.next_disabled,
        PdfViewer.prev_disabled, PdfViewer.clampedPage.
      destruct (PdfViewer.loading st); [by rewrite !orb_true_r|].
      cbn in Hoff. rewrite Hoff. done. }
    split; (induction count as [|count IH]; [done|]).
    + change (clicks_next (S count) st)
        with (PdfViewer.clickNext (clicks_next count st)). by rewrite IH.
    + change (clicks_prev (S count) st)
        with (PdfViewer.clickPrev (clicks_prev count st)). by rewrite IH.
  - apply orb_false_iff in Hoff as [Hl Hn]. apply Z.leb_gt in Hn.
    assert (Hready : ready st) by (by split).
    destruct (clicks_next_page count st Hr Hready) as (Hnext & Hr1 & Hy1).
    destruct (clicks_prev_page count st Hr Hready) as (Hprev & _ & _).
    split; [done|]. split; [done|]. split.
    + intros Hfit.
      destruct (clicks_prev_page count _ Hr1 Hy1) as (-> & _ & _).
      rewrite Hnext.
      assert (1 <= PdfViewer.page st)%Z
        by (pose proof (proj2 (clampedPage_bounds st) Hn); rewrite Hr; lia).
      lia.
    + intros target Htarget.
      destruct (clicks_prev_page (Z.to_nat (PdfViewer.numPages st)) st Hr Hready)
        as (Hfirst & Hr2 & Hy2).
      destruct (clicks_next_page (Z.to_nat (target - 1)) _ Hr2 Hy2) as (-> & _ & _).
      rewrite Hfirst.
      assert (PdfViewer.numPages (clicks_prev (Z.to_nat (PdfViewer.numPages st)) st)
              = PdfViewer.numPages st) as ->.
      { clear. induction (Z.to_nat (PdfViewer.numPages st)) as [|k IH]; [done|].
        cbn. unfold PdfViewer.clickPrev at 1.
        by destruct (PdfViewer.prev_disabled _). }
      pose proof (proj2 (clampedPage_bounds st) Hn). rewrite <- Hr in *. lia.
Qed.

Lemma page_clicks_saturate_witness :
  let st := {| PdfViewer.numPages := 5; PdfViewer.page := 2;
               PdfViewer.loading := false; PdfViewer.error := None |} in
  PdfViewer.page_in_range st
  ∧ PdfViewer.page (clicks_next 7 st) = 5%Z.
Proof.
  cbv zeta.
  assert (Hr : PdfViewer.page_in_range
                 {| PdfViewer.numPages := 5; PdfViewer.page := 2;
                    PdfViewer.loading := false; PdfViewer.error := None |})
    by reflexivity.
  split; [exact Hr|].
  exact (proj1 (page_clicks_saturate _ 7 Hr)).
Defined.

(** ** More on [gradientForId] *)

Section colors_more_facts.
Import Colors.

Lemma palettes_gradients_differ (i j : nat) :
  i < 5 → j < 5 →
  (p ← palettes !! i; Some ("bg-gradient-to-br " +:+ join " " p))
  = (p ← palettes !! j; Some ("bg-gradient-to-br " +:+ join " " p)) →
  i = j.
Proof.
  intros Hi Hj.
  destruct i as [|[|[|[|[|i]]]]]; [| | | | |lia];
    (destruct j as [|[|[|[|[|j]]]]]; [| | | | |lia]);
    first [reflexivity|vm_compute; discriminate].
Qed.

Lemma gradientForId_index (id : list N) :
  gradientForId id
  = (p ← palettes !! N.to_nat (foldr N.add 0%N (first_units id) mod 5);
     Some ("bg-gradient-to-br " +:+ join " " p)).
Proof. unfold gradientForId, palette_index. by rewrite code_sum_total. Qed.

Lemma foldr_add_Permutation (l1 l2 : list N) :
  l1 ≡ₚ l2 → foldr N.add 0%N l1 = foldr N.add 0%N l2.
Proof. induction 1; cbn; lia. Qed.

End colors_more_facts.

(** X20. Two ids get the same gradient exactly when the sums of their
    character codes (the first code unit of every code point) agree
    modulo 5: the five palettes give five different class strings. In
    particular an id without surrogate pairs and any rearrangement of its
    characters get the same gradient, and so does the id with a
    character of code 5 (or any multiple of 5) put in front. *)
Theorem gradientForId_same_iff_sum_mod_5 (id id' : list N) :
  let sum (s : list N) := foldr N.add 0%N (Colors.first_units s) in
  (Colors.gradientForId id = Colors.gradientForId id' ↔
   (sum id mod 5 = sum id' mod 5)%N)
  ∧ (Forall (λ u, Colors.is_high_surrogate u = false) id → id ≡ₚ id' →
     Colors.gradientForId id = Colors.gradientForId id')
  ∧ (∀ u : N, Colors.is_high_surrogate u = false → (u mod 5 = 0)%N →
     Colors.gradientForId (u :: id) = Colors.gradientForId id).
Proof.
  intros sum.
  assert (Hiff : ∀ a b, Colors.gradientForId a = Colors.gradientForId b ↔
                        (sum a mod 5 = sum b mod 5)%N).
  { intros a b. rewrite !gradientForId_index. fold (sum a) (sum b). split.
    - intros Heq. apply palettes_gradients_differ in Heq.
      + by apply N2Nat.inj.
      + pose proof (N.mod_upper_bound (sum a) 5). lia.
      + pose proof (N.mod_upper_bound (sum b) 5). lia.
    - by intros ->. }
  split; [apply Hiff|]. split.
  - intros Hid Hperm. apply Hiff. subst sum. cbv beta.
    rewrite !first_units_no_high_surrogate;
      [by rewrite (foldr_add_Permutation _ _ Hperm)|by rewrite <- Hperm|done].
  - intros u Hu Hmod. apply Hiff. subst sum. cbv beta.
    assert (Colors.first_units (u :: id) = u :: Colors.first_units id) as ->.
    { unfold Colors.first_units. destruct id as [|v rest]; [done|].
      change (Colors.Array_from (u :: v :: rest)) with
        (if Colors.is_high_surrogate u && Colors.is_low_surrogate v
         then [u; v] :: Colors.Array_from rest
         else [u] :: Colors.Array_from (v :: rest)).
      by rewrite Hu. }
    cbn [foldr]. rewrite N.Div0.add_mod, Hmod, N.add_0_l.
    by rewrite N.Div0.mod_mod.
Qed.

(** ** The paged document list of the earlier workspace page

    [listDocuments] of [lib/api.ts], and the page that lists documents
    ten at a time. Offsets are whole numbers; [String] prints a whole
    number below 10^21 in decimal, and [encodeURIComponent] leaves digits
    and the minus sign as they are. *)

Module DocumentListItem.
Record t `{JsHost} : Type := {
  id : string;
  title : string;
  external_key : string;
  updated_at : string;
  latest_task : maybe TaskSummary.t;
}.
End DocumentListItem.

Module ListOpts.
Record t : Type := {
  limit : option Z;
  offset : option Z;
}.
End ListOpts.

Module PagedList.
Section paged_list.
Context `{JsHost}.
Variable workspaceId : string.

Definition listDocuments (workspaceId : string) (opts : option ListOpts.t)
  : Async (list DocumentListItem.t) :=
  let limit := default 10%Z (opts ≫= ListOpts.limit) in
  let offset := default 0%Z (opts ≫= ListOpts.offset) in
  Api.request ("/workspaces/" +:+ workspaceId +:+ "/documents?limit=" +:+ pretty limit
               +:+ "&offset=" +:+ pretty offset) None.

Record State : Type := {
  documents : list DocumentListItem.t;
  docOffset : Z;
  docLoading : bool;
  docError : maybe string;
}.

Definition docLimit : Z := 10.

Definition initial : State :=
  {| documents := []; docOffset := 0; docLoading := true; docError := null |}.

Definition setDocuments (v : list DocumentListItem.t) (st : State) : State :=
  {| documents := v; docOffset := docOffset st;
     docLoading := docLoading st; docError := docError st |}.

Definition setDocOffset (f : Z → Z) (st : State) : State :=
  {| documents := documents st; docOffset := f (docOffset st);
     docLoading := docLoading st; docError := docError st |}.

Definition setDocLoading (v : bool) (st : State) : State :=
  {| documents := documents st; docOffset := docOffset st;
     docLoading := v; docError := docError st |}.

Definition setDocError (v : maybe string) (st : State) : State :=
  {| documents := documents st; docOffset := docOffset st;
     docLoading := docLoading st; docError := v |}.

Definition refreshDocuments (st : State) : Async State :=
  let st := setDocLoading true st in
  let st := setDocError null st in
  bind (settle (listDocuments workspaceId
                  (Some {| ListOpts.limit := Some docLimit;
                           ListOpts.offset := Some (docOffset st) |}))) (λ r,
    let st :=
      match r with
      | Fulfilled rows => setDocuments rows st
      | Rejected e => setDocError (WorkspacePage.errToString e) st
      end in
    Done (setDocLoading false st)).

Definition prev_disabled (st : State) : bool := bool_decide (docOffset st = 0%Z).

Definition next_disabled (st : State) : bool :=
  bool_decide (Z.of_nat (length (documents st)) < docLimit)%Z.

Definition onPrevClick (st : State) : State :=
  setDocOffset (λ v, Z.max 0 (v - docLimit)) st.

Definition onNextClick (st : State) : State :=
  setDocOffset (λ v, (v + docLimit)%Z) st.

(** A click reaches the handler only when the button is not disabled. *)
Definition clickPrev (st : State) : State :=
  if prev_disabled st then st else onPrevClick st.

Definition clickNext (st : State) : State :=
  if next_disabled st then st else onNextClick st.

(** What happens on the page: a click, or the list request settling. *)
Inductive Event : Type :=
| PrevClicked
| NextClicked
| Refreshed (r : settled (Response (list DocumentListItem.t))).

(** The state [refreshDocuments] leaves when its call settles as [r] *)
Definition refreshed (r : settled (list DocumentListItem.t)) (st : State) : State :=
  let st := setDocError null (setDocLoading true st) in
  let st :=
    match r with
    | Fulfilled rows => setDocuments rows st
    | Rejected e => setDocError (WorkspacePage.errToString e) st
    end in
  setDocLoading false st.

Definition step (st : State) (ev : Event) : State :=
  match ev with
  | PrevClicked => clickPrev st
  | NextClicked => clickNext st
  | Refreshed r => refreshed (Api.received r) st
  end.

Definition run (evs : list Event) : State := foldl step initial evs.

End paged_list.
End PagedList.

Section paged_list_facts.
Context `{JsHost}.

Lemma Exec_refreshDocuments workspaceId (st : PagedList.State) tr res :
  Exec (PagedList.refreshDocuments workspaceId st) tr res ↔
  ∃ r, tr = [ {| ex_type := list DocumentListItem.t;
                 ex_call := ApiMore.get_call
                   ("/workspaces/" +:+ workspaceId +:+ "/documents?limit=10&offset="
                    +:+ pretty (PagedList.docOffset st));
                 ex_outcome := r |} ]
       ∧ res = Fulfilled (PagedList.refreshed (Api.received r) st).
Proof.
  unfold PagedList.refreshDocuments. rewrite Exec_bind_settle.
  unfold PagedList.listDocuments. setoid_rewrite Exec_get. split.
  - intros (tr1 & tr2 & r0 & -> & (r & -> & ->) & Hk). exists r.
    unfold PagedList.refreshed. by destruct (Api.received r), Hk as [-> ->].
  - intros (r & -> & ->). eexists [_], [], (Api.received r).
    split; [done|]. split; [by exists r|].
    unfold PagedList.refreshed. by destruct (Api.received r).
Qed.

Lemma step_aligned (st : PagedList.State) (ev : PagedList.Event) :
  (∃ k : nat, PagedList.docOffset st = (10 * Z.of_nat k)%Z) →
  ∃ k : nat, PagedList.docOffset (PagedList.step st ev) = (10 * Z.of_nat k)%Z.
Proof.
  intros [k Hk]. destruct ev as [| |r]; cbn.
  - unfold PagedList.clickPrev. destruct (PagedList.prev_disabled st); [by exists k|].
    exists (k - 1). cbn. unfold PagedList.docLimit. lia.
  - unfold PagedList.clickNext. destruct (PagedList.next_disabled st); [by exists k|].
    exists (S k). cbn. unfold PagedList.docLimit. lia.
  - exists k. unfold PagedList.refreshed. by destruct (Api.received r).
Qed.

Lemma run_aligned (evs : list PagedList.Event) :
  ∃ k : nat, PagedList.docOffset (PagedList.run evs) = (10 * Z.of_nat k)%Z.
Proof.
  unfold PagedList.run. induction evs as [|ev evs IH] using rev_ind; [by exists 0|].
  rewrite foldl_app. by apply step_aligned.
Qed.

End paged_list_facts.

(** X21. However the previous and next buttons are clicked and however
    the list requests settle, the offset of the paged document list is a
    whole multiple of 10 and never negative. The request that
    [refreshDocuments] then makes is one GET to
    [/workspaces/{workspace_id}/documents?limit=10&offset={offset}], and
    it leaves [docLoading] false whether it succeeds (the rows replace the
    list) or fails (the list stays and the error text is set). The
    previous button is disabled exactly on the first page, and a click on
    next, which is possible only while a full page of 10 is listed,
    followed by a click on previous gives the offset back. *)
Theorem paged_list_offsets_are_aligned `{JsHost}
    (workspaceId : string) (evs : list PagedList.Event)
    (tr : list Exchange) (res : settled PagedList.State) :
  let st := PagedList.run evs in
  (∃ k : nat, PagedList.docOffset st = (10 * Z.of_nat k)%Z
              ∧ PagedList.prev_disabled st = bool_decide (k = 0))
  ∧ (Exec (PagedList.refreshDocuments workspaceId st) tr res ↔
     ∃ r, tr = [ {| ex_type := list DocumentListItem.t;
                    ex_call :=
                      {| url := Api.apiBaseUrl +:+ "/workspaces/" +:+ workspaceId
                                +:+ "/documents?limit=10&offset="
                                +:+ pretty (PagedList.docOffset st);
                         init := {| method := None; headers := Some ∅;
                                    body := None |} |};
                    ex_outcome := r |} ]
          ∧ res = Fulfilled
              {| PagedList.documents :=
                   match Api.received r with
                   | Fulfilled rows => rows
                   | Rejected _ => PagedList.documents st
                   end;
                 PagedList.docOffset := PagedList.docOffset st;
                 PagedList.docLoading := false;
                 PagedList.docError :=
                   match Api.received r with
                   | Fulfilled _ => null
                   | Rejected e => WorkspacePage.errToString e
                   end |})
  ∧ (if PagedList.next_disabled st
     then PagedList.clickNext st = st
     else length (PagedList.documents st) ≥ 10
          ∧ PagedList.docOffset (PagedList.clickNext st)
            = (PagedList.docOffset st + 10)%Z
          ∧ PagedList.docOffset (PagedList.clickPrev (PagedList.clickNext st))
            = PagedList.docOffset st).
Proof.
  intros st. destruct (run_aligned evs) as [k Hk]. fold st in Hk. clearbody st.
  split; [|split].
  - exists k. split; [done|]. unfold PagedList.prev_disabled. rewrite Hk.
    apply bool_decide_ext. lia.
  - rewrite Exec_refreshDocuments.
    split; intros (r & -> & ->); exists r; (split; [done|]); f_equal;
      unfold PagedList.refreshed; by destruct (Api.received r).
  - unfold PagedList.clickNext, PagedList.next_disabled, PagedList.docLimit.
    case_bool_decide as Hlen; [done|]. split; [lia|]. split; [done|].
    unfold PagedList.clickPrev, PagedList.prev_disabled, PagedList.onNextClick.
    cbn. unfold PagedList.docLimit. case_bool_decide; cbn; unfold PagedList.docLimit; lia.
Qed.

(** ** A turn and the history effect together *)

(** X22. A successful turn stores the conversation id of the answer; when
    that id is new the history effect runs and asks the server for the
    first page of that conversation. If that page loads, its chat
    messages replace the whole list shown, the two messages of the turn
    included; if it fails, the list stays as the turn left it: the
    earlier messages, the user's message and the answer. *)
Theorem first_turn_loads_the_history `{JsHost} `{WebHost}
    (workspaceId : string) (c : History.Chat)
    (r : settled (Response ChatResult.t)) (out : ChatResult.t) :
  truthy (trim (WorkspacePage.input (History.page c))) = true →
  Api.received r = Fulfilled out →
  ChatResult.conversation_id out ≠ "" →
  let c1 := History.setPage (WorkspacePage.turn workspaceId r) c in
  WorkspacePage.conversationId (History.page c1) = Some (ChatResult.conversation_id out)
  ∧ WorkspacePage.messages (History.page c1)
    = WorkspacePage.messages (History.page c)
      ++ [ WorkspacePage.user_message (trim (WorkspacePage.input (History.page c)));
           WorkspacePage.answer_message out ]
  ∧ ∀ r_hist : settled (Response MessageListResponse.t), ∃ c2,
      Exec (History.onConversationChange c1)
        [history_exchange (ChatResult.conversation_id out) None r_hist]
        (Fulfilled c2)
      ∧ WorkspacePage.messages (History.page c2)
        = match Api.received r_hist with
          | Fulfilled resp => History.mapped (MessageListResponse.items resp)
          | Rejected _ => WorkspacePage.messages (History.page c1)
          end
      ∧ History.historyLoading c2 = false.
Proof.
  intros Htext Hr Hid c1.
  assert (Hconv : WorkspacePage.conversationId (History.page c1)
                  = Some (ChatResult.conversation_id out)).
  { subst c1. cbn. unfold WorkspacePage.turn. by rewrite Htext, Hr. }
  split; [exact Hconv|]. split.
  { subst c1. cbn. unfold WorkspacePage.turn. rewrite Htext, Hr. cbn [negb].
    apply (messages_end_send_success workspaceId). }
  intros r_hist. eexists. split.
  { unfold History.onConversationChange. rewrite Hconv.
    unfold truthy. destruct (decide (ChatResult.conversation_id out = ""));
      [done|]. cbn [negb].
    apply (Exec_loadHistory None _ (ChatResult.conversation_id out)); [done..|].
    exists r_hist. split; reflexivity. }
  rewrite history_loaded_fields.
  destruct (Api.received r_hist) as [resp|e]; cbn; [|done].
  by rewrite app_nil_r.
Qed.

Section compose_examples.
#[local] Existing Instance example_host.
#[local] Existing Instance example_web_host.

Lemma first_turn_loads_the_history_witness :
  truthy (trim (WorkspacePage.input (History.page (History.initial (typed_page "hi")))))
  = true
  ∧ Api.received (Fulfilled (ok_response example_chat_result))
    = Fulfilled example_chat_result
  ∧ ChatResult.conversation_id example_chat_result ≠ ""
  ∧ WorkspacePage.conversationId
      (WorkspacePage.turn "w-1" (Fulfilled (ok_response example_chat_result))
         (typed_page "hi"))
    = Some "c-1".
Proof.
  assert (H1 : truthy (trim (WorkspacePage.input
                 (History.page (History.initial (typed_page "hi"))))) = true)
    by (vm_compute; reflexivity).
  assert (H2 : Api.received (Fulfilled (ok_response example_chat_result))
               = Fulfilled example_chat_result) by reflexivity.
  assert (H3 : ChatResult.conversation_id example_chat_result ≠ "") by discriminate.
  do 3 (split; [assumption|]).
  exact (proj1 (first_turn_loads_the_history "w-1" (History.initial (typed_page "hi"))
                  (Fulfilled (ok_response example_chat_result)) example_chat_result
                  H1 H2 H3)).
Defined.

End compose_examples.

(** ** The definitions above on small inputs *)

Section more_examples.
#[local] Existing Instance example_host.
#[local] Existing Instance example_web_host.

Definition example_file (name id : string) : DocumentTreeNode :=
  TreeNode file name ("docs/" +:+ name) undefined
    (val {| DocumentRef.id := id; DocumentRef.title := name;
            DocumentRef.external_key := name; DocumentRef.updated_at := null;
            DocumentRef.latest_task := null |}).

(** A root with one folder [docs] holding two files, and a file without
    a document. *)
Definition example_tree : DocumentTreeNode :=
  TreeNode folder "" ""
    (val [ TreeNode folder "docs" "docs"
             (val [example_file "a.md" "d-1"; example_file "b.pdf" "d-2"]) null;
           TreeNode file "c.txt" "c.txt" null null ])
    null.

Example collectDocIds_example :
  Deleting.collectDocIds example_tree = ["d-1"; "d-2"].
Proof. vm_compute. reflexivity. Qed.

Example toggleFolderSelection_example :
  let once := Deleting.toggleFolderSelection example_tree {[ "d-1" := true ]} in
  once = {[ "d-1" := true; "d-2" := true ]}
  ∧ Deleting.toggleFolderSelection example_tree once = ∅.
Proof. cbv zeta. split; apply map_eq; intros k; vm_compute; reflexivity. Qed.

Example folder_clicks_example :
  let docs := TreeNode folder "docs" "docs" null null in
  Folders.row_open Folders.initial docs 1 = false
  ∧ Folders.row_open (Folders.clicks [docs] Folders.initial) docs 1 = true
  ∧ Folders.row_open (Folders.clicks [docs; docs] Folders.initial) docs 1 = false
  ∧ Folders.row_open (Folders.clicks [docs] Folders.initial) docs 0 = true.
Proof. vm_compute. done. Qed.

Definition example_workspace (id name : string) : Workspace.t :=
  {| Workspace.id := id; Workspace.name := name;
     Workspace.qdrant_collection := "ws_" +:+ id; Workspace.qdrant_alias := null;
     Workspace.created_at := "t0"; Workspace.updated_at := "t0" |}.

Example recentWorkspaces_example :
  let st := Home.setWorkspaces
              (λ _, [example_workspace "a" "Alpha"; example_workspace "b" "Beta"])
              Home.initial in
  let recent :=
    [ {| HomePage.workspace_id := "b"; HomePage.last_opened_at := "t2" |};
      {| HomePage.workspace_id := "gone"; HomePage.last_opened_at := "t1" |};
      {| HomePage.workspace_id := "a"; HomePage.last_opened_at := "t0" |} ] in
  Home.recentWorkspaces recent st
  = [ (Some (example_workspace "b" "Beta"), "t2");
      (Some (example_workspace "a" "Alpha"), "t0") ].
Proof. vm_compute. reflexivity. Qed.

Example paged_list_example :
  let full := replicate 10
                {| DocumentListItem.id := "d"; DocumentListItem.title := "t";
                   DocumentListItem.external_key := "k";
                   DocumentListItem.updated_at := "t0";
                   DocumentListItem.latest_task := null |} in
  PagedList.docOffset
    (PagedList.run [ PagedList.Refreshed (Fulfilled (ok_response full));
                     PagedList.NextClicked; PagedList.NextClicked;
                     PagedList.Refreshed (Fulfilled (ok_response []));
                     PagedList.NextClicked; PagedList.PrevClicked ])
  = 10%Z.
Proof. vm_compute. reflexivity. Qed.

Example gradient_anagram_example :
  Colors.gradientForId [97; 98; 99]%N = Colors.gradientForId [99; 97; 98]%N.
Proof. vm_compute. reflexivity. Qed.

End more_examples.
